(** * splref: attribution lifecycle, fraud heuristics, verification
      scheduler, leaderboard cache and review workflow.

    A shallow embedding of the Python sources under [app/] and the
    properties of the specification checked against it.

    Conventions
    - A Python [str] is the list of its code points ([pystr]).
    - A [datetime] is an integer number of microseconds ([Z]).
    - The tables of the database are lists of rows, in insertion order.
    - Module-level dictionaries ([_verification_tasks], [_subnet_events],
      [_cache]) are finite maps threaded through the operations. *)

From Stdlib Require Import ZArith NArith List Bool Ascii String Lia Permutation.
From Stdlib Require Import DecimalPos DecimalN.
From stdpp Require Import base decidable option list sorting gmap.

Local Open Scope Z_scope.

(* ===================================================================== *)
(** ** Python strings *)
(* ===================================================================== *)

Module Py.

(** A [str] is a sequence of Unicode code points. *)
Abbreviation char := N (only parsing).
Abbreviation pystr := (list N) (only parsing).

(** Literals: the code points of a Rocq string. *)
Fixpoint py (s : string) : pystr :=
  match s with
  | EmptyString => []
  | String a s' => N_of_ascii a :: py s'
  end.

(** [str.isspace] on one code point (the code points with the Unicode
    White_Space property or a bidirectional class of WS, B or S). *)
Definition is_space (c : N) : bool :=
  (((9 <=? c) && (c <=? 13)) || ((28 <=? c) && (c <=? 32))
   || (c =? 133) || (c =? 160) || (c =? 5760)
   || ((8192 <=? c) && (c <=? 8202))
   || (c =? 8232) || (c =? 8233) || (c =? 8239) || (c =? 8287)
   || (c =? 12288))%N.

(** [s.lstrip(chars)], [s.rstrip(chars)] and [s.strip(chars)], the set of
    stripped characters given as a predicate. *)
Fixpoint lstrip_chars (p : N → bool) (s : pystr) : pystr :=
  match s with
  | [] => []
  | c :: s' => if p c then lstrip_chars p s' else s
  end.

Definition rstrip_chars (p : N → bool) (s : pystr) : pystr :=
  rev (lstrip_chars p (rev s)).

Definition strip_chars (p : N → bool) (s : pystr) : pystr :=
  rstrip_chars p (lstrip_chars p s).

(** [s.strip()] strips white space. *)
Definition strip (s : pystr) : pystr := strip_chars is_space s.

(** [s.split(sep)] for a separator of one character: never returns the
    empty list; [''.split(',') == ['']]. *)
Fixpoint split (sep : N) (s : pystr) : list pystr :=
  match s with
  | [] => [[]]
  | c :: s' =>
      if (c =? sep)%N then [] :: split sep s'
      else match split sep s' with
           | w :: ws => (c :: w) :: ws
           | [] => [[c]]
           end
  end.

(** [sep.join(parts)] for a separator of one character. *)
Fixpoint join (sep : N) (parts : list pystr) : pystr :=
  match parts with
  | [] => []
  | [w] => w
  | w :: ws => w ++ sep :: join sep ws
  end.

(** [a <= b] on [str]: lexicographic on code points. *)
Fixpoint str_leb (a b : pystr) : bool :=
  match a, b with
  | [], _ => true
  | _ :: _, [] => false
  | x :: a', y :: b' =>
      if (x <? y)%N then true
      else if (x =? y)%N then str_leb a' b' else false
  end.

Definition str_le (a b : pystr) : Prop := str_leb a b = true.

(** Truthiness of a [str] and of an [Optional[str]]: [None] and [''] are
    falsy. *)
Definition truthy (s : pystr) : bool :=
  match s with [] => false | _ => true end.

Definition truthy_opt (o : option pystr) : bool :=
  match o with None => false | Some s => truthy s end.

(** [o or ''] *)
Definition or_empty (o : option pystr) : pystr := default [] o.

(** [sorted(xs)] with the order [leb]: a stable sort (equal elements keep
    their order), here by insertion from the right. *)
Section Sorted.
Context {A : Type} (leb : A → A → bool).

Fixpoint insert_sorted (x : A) (l : list A) : list A :=
  match l with
  | [] => [x]
  | y :: l' => if leb x y then x :: l else y :: insert_sorted x l'
  end.

Definition sorted (l : list A) : list A := foldr insert_sorted [] l.
End Sorted.

Definition comma : N := 44%N.
Definition colon : N := 58%N.
Definition slash : N := 47%N.
Definition dot : N := 46%N.

(** [str(n)] for a natural number: its decimal digits. *)
Fixpoint digits (u : Decimal.uint) : pystr :=
  match u with
  | Decimal.Nil => []
  | Decimal.D0 u' => 48%N :: digits u'
  | Decimal.D1 u' => 49%N :: digits u'
  | Decimal.D2 u' => 50%N :: digits u'
  | Decimal.D3 u' => 51%N :: digits u'
  | Decimal.D4 u' => 52%N :: digits u'
  | Decimal.D5 u' => 53%N :: digits u'
  | Decimal.D6 u' => 54%N :: digits u'
  | Decimal.D7 u' => 55%N :: digits u'
  | Decimal.D8 u' => 56%N :: digits u'
  | Decimal.D9 u' => 57%N :: digits u'
  end.

Definition str_of_N (n : N) : pystr := digits (N.to_uint n).

(** [xs[:n]] for an [int] [n]: a negative [n] counts from the end. *)
Definition slice_to {A} (n : Z) (xs : list A) : list A :=
  if (0 <=? n)%Z then take (Z.to_nat n) xs
  else take (length xs - Z.to_nat (- n)) xs.

(** Functions of the Python standard library that the sources call and
    that are not modelled here. *)
Inductive IpAddress :=
| IPv4Address (a b c d : N)
| IPv6Address.

Class PyLib := {
  (** [urllib.parse.urlparse(url).path] *)
  urlparse_path : pystr → pystr;
  (** [ipaddress.ip_address(s)]; [None] stands for [ValueError] *)
  ip_address : pystr → option IpAddress;
  (** [int(s)]; [None] stands for [ValueError] *)
  py_int : pystr → option Z;
}.

End Py.

Import Py.

(* ===================================================================== *)
(** ** models.py *)
(* ===================================================================== *)

Inductive EventType := JOIN | LEAVE | PROMOTE | REVOKE.

Inductive AttributionStatus := PENDING | VERIFIED | REVOKED.

Global Instance AttributionStatus_eq_dec : EqDecision AttributionStatus.
Proof. solve_decision. Defined.

Global Instance EventType_eq_dec : EqDecision EventType.
Proof. solve_decision. Defined.

(** A [datetime], in microseconds. *)
Abbreviation datetime := Z (only parsing).

Record User := mkUser {
  user_id : Z;
  username : option pystr;
  first_name : option pystr;
  last_name : option pystr;
}.

Record Affiliate := mkAffiliate {
  aff_id : Z;
  owner_user_id : Z;
  invite_link : pystr;
  link_code : pystr;
  is_active : bool;
}.

Record Attribution := mkAttribution {
  attr_id : Z;
  joined_user_id : Z;
  affiliate_id : Z;
  joined_at : datetime;
  verified_at : option datetime;
  status : AttributionStatus;
  note : option pystr;
  last_seen_ip : option pystr;
  source_subnet : option pystr;
}.

(** The JSON payload [raw] of an event, for the two shapes the handlers
    write. *)
Inductive RawPayload :=
| RawJoin (invite_link link_code : pystr) (attribution_id : Z)
          (flags : list pystr) (source_ip source_subnet : option pystr)
| RawLeave (reason : pystr) (attribution_id : Z)
| RawEmpty.

Record Event := mkEvent {
  ev_id : Z;
  ev_type : EventType;
  ev_user_id : Z;
  ev_affiliate_id : option Z;
  raw : RawPayload;
}.

(** Field assignments on an [Attribution] object. *)
Definition set_status (st : AttributionStatus) (a : Attribution) : Attribution :=
  mkAttribution (attr_id a) (joined_user_id a) (affiliate_id a) (joined_at a)
    (verified_at a) st (note a) (last_seen_ip a) (source_subnet a).

Definition set_verified_at (v : option datetime) (a : Attribution) : Attribution :=
  mkAttribution (attr_id a) (joined_user_id a) (affiliate_id a) (joined_at a)
    v (status a) (note a) (last_seen_ip a) (source_subnet a).

Definition set_note (n : option pystr) (a : Attribution) : Attribution :=
  mkAttribution (attr_id a) (joined_user_id a) (affiliate_id a) (joined_at a)
    (verified_at a) (status a) n (last_seen_ip a) (source_subnet a).

(* ===================================================================== *)
(** ** db.py: the session *)
(* ===================================================================== *)

(** The tables, rows in insertion order, and the two sequences behind the
    autoincrement keys. Every handler runs its statements inside one
    [session_scope()], which commits on a normal exit (an early [return]
    included), so a handler maps a database to the committed database. *)
Record Database := mkDatabase {
  users : list User;
  affiliates : list Affiliate;
  attributions : list Attribution;
  events : list Event;
  attribution_seq : Z;
  event_seq : Z;
}.

Definition with_users (us : list User) (db : Database) : Database :=
  mkDatabase us (affiliates db) (attributions db) (events db)
    (attribution_seq db) (event_seq db).

Definition with_attributions (l : list Attribution) (db : Database) : Database :=
  mkDatabase (users db) (affiliates db) l (events db)
    (attribution_seq db) (event_seq db).

(** Flushing a modified [Attribution] object: [UPDATE ... WHERE id = pk]. *)
Definition save_attribution (a : Attribution) (db : Database) : Database :=
  with_attributions
    ((λ r, if decide (attr_id r = attr_id a) then a else r) <$> attributions db) db.

(* ===================================================================== *)
(** ** services/users.py *)
(* ===================================================================== *)

Definition get_user (db : Database) (uid : Z) : option User :=
  snd <$> list_find (λ u, user_id u = uid) (users db).

Definition upsert_user (db : Database) (uid : Z)
    (uname fname lname : option pystr) : Database * User :=
  let u := mkUser uid uname fname lname in
  match get_user db uid with
  | Some _ =>
      (with_users ((λ r, if decide (user_id r = uid) then u else r) <$> users db) db, u)
  | None => (with_users (users db ++ [u]) db, u)
  end.

(* ===================================================================== *)
(** ** services/affiliates.py *)
(* ===================================================================== *)

Definition get_affiliate (db : Database) (id : Z) : option Affiliate :=
  snd <$> list_find (λ a, aff_id a = id) (affiliates db).

Definition get_affiliate_by_code (db : Database) (code : pystr) : option Affiliate :=
  snd <$> list_find (λ a, link_code a = code) (affiliates db).

(* ===================================================================== *)
(** ** services/events.py *)
(* ===================================================================== *)

Definition log_event (db : Database) (ty : EventType) (uid : Z)
    (aff : option Z) (payload : RawPayload) : Database :=
  mkDatabase (users db) (affiliates db) (attributions db)
    (events db ++ [mkEvent (event_seq db) ty uid aff payload])
    (attribution_seq db) (event_seq db + 1).

(* ===================================================================== *)
(** ** services/attributions.py *)
(* ===================================================================== *)

(** [create_attribution]: the status column defaults to [PENDING],
    [verified_at] to NULL. [joined_at or datetime.now()]: the handler
    always passes [joined_at]. *)
Definition create_attribution (db : Database) (aff : Affiliate) (uid : Z)
    (joined : datetime) (source_ip subnet note_ : option pystr)
    : Database * Attribution :=
  let record := mkAttribution (attribution_seq db) uid (aff_id aff) joined
                  None PENDING note_ source_ip subnet in
  (mkDatabase (users db) (affiliates db) (attributions db ++ [record])
     (events db) (attribution_seq db + 1) (event_seq db), record).

(** [select(Attribution).where(joined_user_id == user_id)].scalar_one_or_none():
    the unique constraint on [joined_user_id] leaves at most one row. *)
Definition get_attribution_by_user (db : Database) (uid : Z) : option Attribution :=
  snd <$> list_find (λ a, joined_user_id a = uid) (attributions db).

(** [session.get(Attribution, attr_id)] *)
Definition get_attribution (db : Database) (id : Z) : option Attribution :=
  snd <$> list_find (λ a, attr_id a = id) (attributions db).

(** [update_attribution_status]: [now] is the clock read by
    [verified_at or datetime.now(tz=timezone.utc)]. *)
Definition update_attribution_status (db : Database) (a : Attribution)
    (st : AttributionStatus) (v : option datetime) (now : datetime)
    : Database * Attribution :=
  let a1 := set_status st a in
  let a2 := if decide (st = VERIFIED)
            then set_verified_at (Some (default now v)) a1
            else set_verified_at v a1 in
  (save_attribution a2 db, a2).

(** [merge_note]:
<<
    reasons = {r.strip() for r in (existing or "").split(",") if r.strip()}
    reasons.add(reason)
    return ",".join(sorted(reasons))
>>
    The set is a [gset]; its iteration order ([elements]) is arbitrary and
    [sorted] makes the result independent of it. *)
Definition note_reasons (existing : option pystr) : gset (list N) :=
  list_to_set
    (filter (λ r, truthy r = true) (strip <$> split comma (or_empty existing))).

Definition merge_note (existing : option pystr) (reason : pystr) : pystr :=
  let reasons := note_reasons existing ∪ {[ reason ]} in
  join comma (sorted str_leb (elements reasons)).

Definition ip_burst : pystr := py "ip_burst".
Definition fresh_account : pystr := py "fresh_account".
Definition manual_revoke : pystr := py "manual_revoke".

Global Arguments py : simpl never.
Global Arguments ip_burst : simpl never.
Global Arguments fresh_account : simpl never.
Global Arguments manual_revoke : simpl never.
Global Arguments merge_note : simpl never.

(** The [WHERE] clause of [flag_subnet_burst]; a NULL [source_subnet]
    matches no subnet. *)
Definition in_burst (subnet : pystr) (since : datetime) (a : Attribution) : bool :=
  bool_decide (source_subnet a = Some subnet) && (since <=? joined_at a).

Definition flag (a : Attribution) : Attribution :=
  set_note (Some (merge_note (note a) ip_burst))
    (set_verified_at None (set_status PENDING a)).

(** [flag_subnet_burst]: every selected row is rewritten in place; the
    rewritten objects are returned, in the order of the table. *)
Definition flag_subnet_burst (db : Database) (subnet : pystr) (since : datetime)
    : Database * list Attribution :=
  (with_attributions
     ((λ a, if in_burst subnet since a then flag a else a) <$> attributions db) db,
   flag <$> filter (λ a, in_burst subnet since a = true) (attributions db)).

(** [list_pending_reviews]: [ORDER BY joined_at ASC LIMIT limit]. *)
Definition list_pending_reviews (db : Database) (limit : nat) : list Attribution :=
  take limit
    (sorted (λ a b, joined_at a <=? joined_at b)
       (filter (λ a, status a = PENDING ∧ note a ≠ None) (attributions db))).

(* ===================================================================== *)
(** ** services/integrity.py: the verification scheduler *)
(* ===================================================================== *)

(** An [asyncio.Task] running [_verify_after_delay]. A task is [Created]
    until the event loop runs its first step, [Sleeping] while it awaits
    [asyncio.sleep(delay)], and [Done] once the coroutine has returned or
    raised. [Task.cancel()] only requests the cancellation: the
    [CancelledError] is thrown into the coroutine when the loop next runs
    the task. *)
Inductive TaskState :=
| Created
| Sleeping (wake_at : datetime)
| Done.

Record Task := mkTask {
  task_user : Z;
  task_state : TaskState;
  cancel_requested : bool;
}.

(** The tasks of the event loop (a handle is an index in [tasks]) and the
    module-level registry [_verification_tasks]. *)
Record Scheduler := mkScheduler {
  tasks : list Task;
  _verification_tasks : gmap Z nat;
}.

Definition VERIFICATION_DELAY_SECONDS : Z := 600.

Definition seconds (n : Z) : Z := n * 1000000.

(** [task.cancel()]: no effect on a task that is done. *)
Definition task_cancel (t : Task) : Task :=
  match task_state t with
  | Done => t
  | _ => mkTask (task_user t) (task_state t) true
  end.

(** [cancel_verification]:
<<
    task = _verification_tasks.pop(joined_user_id, None)
    if task:
        task.cancel()
>> *)
Definition cancel_verification (uid : Z) (s : Scheduler) : Scheduler :=
  match _verification_tasks s !! uid with
  | Some h =>
      mkScheduler (alter task_cancel h (tasks s)) (delete uid (_verification_tasks s))
  | None => s
  end.

(** [schedule_verification]; [running_loop] tells whether
    [asyncio.get_running_loop()] succeeds. *)
Definition schedule_verification (running_loop : bool) (uid : Z) (s : Scheduler)
    : Scheduler :=
  let s1 := cancel_verification uid s in
  if running_loop then
    mkScheduler (tasks s1 ++ [mkTask uid Created false])
      (<[uid := length (tasks s1)]> (_verification_tasks s1))
  else s1.

(** The body of [_verify_after_delay] after the sleep, inside its
    [session_scope()]. *)
Definition verify_pending (db : Database) (uid : Z) (now : datetime) : Database :=
  match get_attribution_by_user db uid with
  | Some a =>
      if bool_decide (status a = PENDING) && negb (truthy_opt (note a))
      then fst (update_attribution_status db a VERIFIED (Some now) now)
      else db
  | None => db
  end.

(** [finally: _verification_tasks.pop(joined_user_id, None)] *)
Definition finally_pop (uid : Z) (reg : gmap Z nat) : gmap Z nat := delete uid reg.

(** One step of the event loop on the task with handle [h], at time [now].
    - A task cancelled before its first step gets the [CancelledError]
      thrown at the start of the coroutine: the [try] statement is never
      entered, so its [finally] clause does not run.
    - A sleeping task with a requested cancellation gets the
      [CancelledError] at [await asyncio.sleep(delay)]: it is re-raised and
      the [finally] clause runs.
    - A sleeping task whose delay has elapsed runs the body and then the
      [finally] clause.
    - Otherwise the task is not runnable and nothing happens. *)
Definition run_task (h : nat) (now : datetime) (db : Database) (s : Scheduler)
    : Database * Scheduler :=
  match tasks s !! h with
  | None => (db, s)
  | Some t =>
      let uid := task_user t in
      match task_state t with
      | Done => (db, s)
      | Created =>
          if cancel_requested t
          then (db, mkScheduler (<[h := mkTask uid Done true]> (tasks s))
                      (_verification_tasks s))
          else (db, mkScheduler
                      (<[h := mkTask uid
                               (Sleeping (now + seconds VERIFICATION_DELAY_SECONDS))
                               false]> (tasks s))
                      (_verification_tasks s))
      | Sleeping wake_at =>
          if cancel_requested t
          then (db, mkScheduler (<[h := mkTask uid Done true]> (tasks s))
                      (finally_pop uid (_verification_tasks s)))
          else if wake_at <=? now
          then (verify_pending db uid now,
                mkScheduler (<[h := mkTask uid Done false]> (tasks s))
                  (finally_pop uid (_verification_tasks s)))
          else (db, s)
      end
  end.

(** A timer is live while its task can still reach the body. *)
Definition live (t : Task) : bool :=
  match task_state t with
  | Done => false
  | _ => negb (cancel_requested t)
  end.

(** The handles of the live timers of a user. *)
Definition live_timers (uid : Z) (s : Scheduler) : list nat :=
  fst <$> filter (λ p, task_user p.2 = uid ∧ live p.2 = true) (imap pair (tasks s)).

(* ===================================================================== *)
(** ** handlers/members.py *)
(* ===================================================================== *)

Definition BURST_WINDOW : Z := seconds (5 * 60).
Definition BURST_THRESHOLD : nat := 3.

(** [while bucket and (now - bucket[0]) > BURST_WINDOW: bucket.popleft()] *)
Fixpoint popleft_old (now : datetime) (bucket : list datetime) : list datetime :=
  match bucket with
  | [] => []
  | t :: bucket' =>
      if BURST_WINDOW <? now - t then popleft_old now bucket' else bucket
  end.

(** [_record_subnet_event] on the [defaultdict(deque)] [_subnet_events]. *)
Definition _record_subnet_event (subnet : pystr) (now : datetime)
    (ev : gmap (list N) (list datetime)) : bool * gmap (list N) (list datetime) :=
  let bucket := default [] (ev !! subnet) in
  let bucket' := popleft_old now bucket ++ [now] in
  (bool_decide (BURST_THRESHOLD < length bucket')%nat, <[subnet := bucket']> ev).

(** The fields of [aiogram.types.User] the handlers read. *)
Record TgUser := mkTgUser {
  tg_id : Z;
  tg_is_bot : bool;
  tg_username : option pystr;
  tg_first_name : option pystr;
  tg_last_name : option pystr;
  tg_is_premium : option bool;
}.

(** [_is_fresh_account] *)
Definition _is_fresh_account (user : TgUser) : bool :=
  if tg_is_bot user then true
  else
    let username := or_empty (tg_username user) in
    let first_name := or_empty (tg_first_name user) in
    let is_premium := default false (tg_is_premium user) in
    if is_premium then false
    else if truthy username then false
    else if bool_decide (length (strip first_name) ≤ 2)%nat then true
    else false.

Inductive ChatMemberStatus :=
| CREATOR | ADMINISTRATOR | MEMBER | RESTRICTED | LEFT | KICKED.

Global Instance ChatMemberStatus_eq_dec : EqDecision ChatMemberStatus.
Proof. solve_decision. Defined.

Definition status_value (st : ChatMemberStatus) : pystr :=
  match st with
  | CREATOR => py "creator"
  | ADMINISTRATOR => py "administrator"
  | MEMBER => py "member"
  | RESTRICTED => py "restricted"
  | LEFT => py "left"
  | KICKED => py "kicked"
  end.

(** The fields of [ChatMemberUpdated] the handlers read, with the two
    readings of the environment a handler makes: the context variable
    [request_ip_var] and the clock. [upd_invite_link] is
    [update.invite_link.invite_link], [None] when [update.invite_link] is
    [None]. *)
Record ChatMemberUpdated := mkUpdate {
  upd_chat_id : Z;
  upd_old_status : ChatMemberStatus;
  upd_new_status : ChatMemberStatus;
  upd_old_user : TgUser;
  upd_new_user : TgUser;
  upd_invite_link : option pystr;
  upd_request_ip : option pystr;
  upd_now : datetime;
}.

(** The state the handlers share. *)
Record World := mkWorld {
  db : Database;
  _subnet_events : gmap (list N) (list datetime);
  scheduler : Scheduler;
}.

Section Handlers.
Context `{PyLib}.

(** utils/invite_links.py *)
Definition extract_link_code (invite_link : pystr) : pystr :=
  let path := strip_chars (N.eqb slash) (urlparse_path invite_link) in
  if truthy path then List.last (split slash path) [] else invite_link.

(** [_ip_subnet]: the /24 network of an IPv4 address, [None] otherwise. *)
Definition _ip_subnet (ip_str : option pystr) : option pystr :=
  match ip_str with
  | None => None
  | Some s =>
      if truthy s then
        match ip_address s with
        | Some (IPv4Address a b c _) =>
            Some (str_of_N a ++ dot :: str_of_N b ++ dot :: str_of_N c
                  ++ dot :: py "0/24")
        | Some IPv6Address => None
        | None => None
        end
      else None
  end.

(** [for user_id in flagged_users: if user_id != target: cancel_verification(user_id)] *)
Definition cancel_flagged (target : Z) (flagged_users : list Z) (s : Scheduler)
    : Scheduler :=
  foldl (λ s uid, if decide (uid ≠ target) then cancel_verification uid s else s)
    s flagged_users.

(** [_handle_join] *)
Definition _handle_join (update : ChatMemberUpdated) (w : World) : World :=
  match upd_invite_link update with
  | None => w
  | Some link_url =>
    if negb (truthy link_url) then w else
    let link_code := extract_link_code link_url in
    let target_user := upd_new_user update in
    let source_ip := upd_request_ip update in
    let subnet := _ip_subnet source_ip in
    let now := upd_now update in
    let '(burst, ev) :=
      match subnet with
      | Some sn =>
          if truthy sn then _record_subnet_event sn now (_subnet_events w)
          else (false, _subnet_events w)
      | None => (false, _subnet_events w)
      end in
    let suspicion_reasons :=
      (if burst then [ip_burst] else [])
      ++ (if _is_fresh_account target_user then [fresh_account] else []) in
    let '(db1, joined_user) :=
      upsert_user (db w) (tg_id target_user) (tg_username target_user)
        (tg_first_name target_user) (tg_last_name target_user) in
    match get_affiliate_by_code db1 link_code with
    | None => mkWorld db1 ev (scheduler w)
    | Some affiliate =>
      if bool_decide (owner_user_id affiliate = user_id joined_user)
         || negb (is_active affiliate)
      then mkWorld db1 ev (scheduler w)
      else
        match get_attribution_by_user db1 (user_id joined_user) with
        | Some _ => mkWorld db1 ev (scheduler w)
        | None =>
          let note_ :=
            match suspicion_reasons with
            | [] => None
            | _ => Some (join comma suspicion_reasons)
            end in
          let '(db2, attribution) :=
            create_attribution db1 affiliate (user_id joined_user) now
              source_ip subnet note_ in
          let '(db3, flagged_users) :=
            match subnet with
            | Some sn =>
                if bool_decide (ip_burst ∈ suspicion_reasons) && truthy sn
                then let '(d, flagged) :=
                       flag_subnet_burst db2 sn (now - BURST_WINDOW) in
                     (d, joined_user_id <$> flagged)
                else (db2, [])
            | None => (db2, [])
            end in
          let db4 :=
            log_event db3 JOIN (user_id joined_user) (Some (aff_id affiliate))
              (RawJoin link_url link_code (attr_id attribution)
                 suspicion_reasons source_ip subnet) in
          let s1 :=
            match suspicion_reasons with
            | [] => schedule_verification true (tg_id target_user) (scheduler w)
            | _ => cancel_verification (tg_id target_user) (scheduler w)
            end in
          mkWorld db4 ev (cancel_flagged (tg_id target_user) flagged_users s1)
        end
    end
  end.

(** [_handle_leave] *)
Definition _handle_leave (update : ChatMemberUpdated) (w : World) : World :=
  let target_user := upd_old_user update in
  let uid := tg_id target_user in
  let status_ := status_value (upd_new_status update) in
  let '(db1, user) :=
    upsert_user (db w) uid (tg_username target_user)
      (tg_first_name target_user) (tg_last_name target_user) in
  match get_attribution_by_user db1 uid with
  | Some attribution =>
      if bool_decide (status attribution = PENDING)
         || bool_decide (status attribution = VERIFIED)
      then
        let '(db2, attribution') :=
          update_attribution_status db1 attribution REVOKED
            (verified_at attribution) (upd_now update) in
        let db3 :=
          log_event db2 LEAVE (user_id user) (Some (affiliate_id attribution'))
            (RawLeave status_ (attr_id attribution')) in
        mkWorld db3 (_subnet_events w) (cancel_verification uid (scheduler w))
      else mkWorld db1 (_subnet_events w) (scheduler w)
  | None => mkWorld db1 (_subnet_events w) (scheduler w)
  end.

(** [handle_chat_member], for the chat configured as [target_chat_id]. *)
Definition handle_chat_member (target_chat_id : Z) (update : ChatMemberUpdated)
    (w : World) : World :=
  if bool_decide (upd_chat_id update ≠ target_chat_id) then w
  else if bool_decide (upd_new_status update = MEMBER)
          && bool_decide (upd_old_status update ≠ MEMBER)
  then _handle_join update w
  else if bool_decide (upd_old_status update = MEMBER)
          && (bool_decide (upd_new_status update = LEFT)
              || bool_decide (upd_new_status update = KICKED))
  then _handle_leave update w
  else w.

End Handlers.

(* ===================================================================== *)
(** ** services/leaderboard.py *)
(* ===================================================================== *)

(** [LEADERBOARD_WINDOWS]: the length of each window, [None] for ["all"]. *)
Definition LEADERBOARD_WINDOWS : list (list N * option Z) :=
  [ (py "all", None);
    (py "7d", Some (seconds (7 * 24 * 3600)));
    (py "30d", Some (seconds (30 * 24 * 3600))) ].

Definition window_delta (window_key : pystr) : option (option Z) :=
  (λ p, p.2.2) <$> list_find (λ p, p.1 = window_key) LEADERBOARD_WINDOWS.

(** [_window_cutoff]: [LEADERBOARD_WINDOWS.get(window_key, None)]. *)
Definition _window_cutoff (window_key : pystr) (now : datetime) : option datetime :=
  match window_delta window_key with
  | Some (Some delta) => Some (now - delta)
  | _ => None
  end.

(** The [WHERE] clause shared by the live query and [recompute_cache]. *)
Definition verified_since (cutoff : option datetime) (a : Attribution) : bool :=
  bool_decide (status a = VERIFIED)
  && match cutoff with
     | Some c => c <=? joined_at a
     | None => true
     end.

(** A [Dict[int, int]] of counts, in insertion order. *)
Abbreviation Counts := (list (Z * Z)) (only parsing).

(** [counts[x]] *)
Definition count_of (counts : Counts) (x : Z) : Z :=
  default 0 ((λ p, p.2.2) <$> list_find (λ p, p.1 = x) counts).

(** [sorted(counts.keys(), key=lambda x: counts[x], reverse=True)[:limit]] *)
Definition top_ids (counts : Counts) (limit : Z) : list Z :=
  slice_to limit (sorted (λ x y, count_of counts y <=? count_of counts x) (fst <$> counts)).

(** [_sorted_affiliates_from_counts] *)
Definition _sorted_affiliates_from_counts (db : Database) (counts : Counts)
    (limit : Z) : list (Affiliate * Z) :=
  match counts with
  | [] => []
  | _ =>
      let affiliate_ids := top_ids counts limit in
      match affiliate_ids with
      | [] => []
      | _ =>
          omap (λ affiliate_id,
                  aff ← get_affiliate db affiliate_id;
                  Some (aff, count_of counts affiliate_id))
               affiliate_ids
      end
  end.

(** [func.count(Attribution.id)] of the group of one affiliate. *)
Definition verified_total (db : Database) (cutoff : option datetime) (id : Z) : Z :=
  Z.of_nat (length (filter (λ a, affiliate_id a = id ∧ verified_since cutoff a = true)
                      (attributions db))).

(** SQL leaves the order of the rows that [ORDER BY] ties open, and the
    engine does not follow the order of the table. The engine is taken
    to deliver the groups of a [GROUP BY] in the order of a key of its
    own, [group_rank] (groups with equal keys in the order of the table),
    and to sort them stably by the [ORDER BY] expression: whatever the
    order an engine gives to tied rows, it is the order of some key. *)
Class SqlEngine := {
  group_rank : Affiliate → Z;
}.

(** [.limit(limit)] on SQLite, the engine of the default [database_url]
    ([sqlite:///./affiliate.db]): a negative [LIMIT] sets no limit. *)
Definition sql_limit {A} (limit : Z) (rows : list A) : list A :=
  if limit <? 0 then rows else take (Z.to_nat limit) rows.

(** [_live_query_top_affiliates]: the inner join keeps the affiliates with
    at least one selected attribution. *)
Definition _live_query_top_affiliates `{SqlEngine} (db : Database)
    (window_key : pystr) (limit : Z) (now : datetime) : list (Affiliate * Z) :=
  let cutoff := _window_cutoff window_key now in
  let groups :=
    filter (λ p, 0 < p.2)
      ((λ aff, (aff, verified_total db cutoff (aff_id aff))) <$> affiliates db) in
  sql_limit limit
    (sorted (λ p q : Affiliate * Z, q.2 <=? p.2)
       (sorted (λ p q : Affiliate * Z, group_rank p.1 <=? group_rank q.1) groups)).

(** The module-level [_cache] and [_cache_generated_at]. *)
Record Leaderboard := mkLeaderboard {
  _cache : gmap (list N) (list (Z * Z));
  _cache_generated_at : gmap (list N) datetime;
}.

(** [top_affiliates] *)
Definition top_affiliates `{SqlEngine} (db : Database) (lb : Leaderboard) (limit : Z)
    (window : pystr) (use_cache : bool) (now : datetime) : list (Affiliate * Z) :=
  let window_key :=
    if bool_decide (window ∈ fst <$> LEADERBOARD_WINDOWS) then window else py "all" in
  match (if use_cache then _cache lb !! window_key else None) with
  | Some counts => _sorted_affiliates_from_counts db counts limit
  | None => _live_query_top_affiliates db window_key limit now
  end.

(** The body of the loop of [recompute_cache] for one window: the groups
    of [GROUP BY affiliate_id], one per affiliate id among the selected
    attributions. *)
Definition recompute_window (db : Database) (window_key : pystr) (now : datetime)
    (lb : Leaderboard) : Leaderboard :=
  let cutoff := _window_cutoff window_key now in
  let selected := filter (λ a, verified_since cutoff a = true) (attributions db) in
  let counts :=
    (λ id, (id, verified_total db cutoff id)) <$> remove_dups (affiliate_id <$> selected) in
  mkLeaderboard (<[window_key := counts]> (_cache lb))
    (<[window_key := now]> (_cache_generated_at lb)).

(** [recompute_cache], the clock read as [now] throughout. *)
Definition recompute_cache (db : Database) (now : datetime) (lb : Leaderboard)
    : Leaderboard :=
  foldl (λ lb p, recompute_window db p.1 now lb) lb LEADERBOARD_WINDOWS.

(* ===================================================================== *)
(** ** handlers/commands.py: the review workflow *)
(* ===================================================================== *)

(** The fields of [CallbackQuery] the handler reads, with the answer of
    [_is_admin] about the caller, the reading of the clock, and whether
    the call of the messaging gateway that acknowledges a review,
    [await callback.answer(message_text, show_alert=False)], returns
    ([cb_answered]) or raises. *)
Record CallbackQuery := mkCallback {
  cb_from_user : option Z;
  cb_is_admin : bool;
  cb_data : option pystr;
  cb_now : datetime;
  cb_answered : bool;
}.

(** [callback.answer(text, show_alert=...)] *)
Record Answer := mkAnswer {
  answer_text : option pystr;
  show_alert : bool;
}.

Definition str_of_Z (z : Z) : pystr :=
  if z <? 0 then 45%N :: str_of_N (Z.to_N (- z)) else str_of_N (Z.to_N z).

Section Review.
Context `{PyLib}.

(** [handle_review_callback] up to its second [await]: the transaction
    and the answer to send, with the user whose timer is to be disarmed
    once the answer has been sent. *)
Definition review_transaction (callback : CallbackQuery) (d : Database)
    : Database * Answer * option Z :=
  let admin_only := (d, mkAnswer (Some (py "Admin only.")) true, None) in
  match cb_from_user callback with
  | None => admin_only
  | Some _ =>
    if negb (cb_is_admin callback) then admin_only else
    if negb (truthy_opt (cb_data callback)) then (d, mkAnswer None false, None) else
    let invalid := (d, mkAnswer (Some (py "Invalid data.")) true, None) in
    match split colon (or_empty (cb_data callback)) with
    | [_; action; attr_id_str] =>
      match py_int attr_id_str with
      | None => invalid
      | Some id =>
        let now := cb_now callback in
        match get_attribution d id with
        | None => (d, mkAnswer (Some (py "Attribution not found.")) true, None)
        | Some attribution =>
          let uid := joined_user_id attribution in
          if bool_decide (action = py "verify") then
            let '(d1, a1) :=
              update_attribution_status d attribution VERIFIED (Some now) now in
            (save_attribution (set_note None a1) d1,
             mkAnswer (Some (py "Attribution #" ++ str_of_Z id ++ py " verified.")) false,
             Some uid)
          else if bool_decide (action = py "revoke") then
            let '(d1, a1) :=
              update_attribution_status d attribution REVOKED
                (verified_at attribution) now in
            (save_attribution (set_note (Some (merge_note (note a1) manual_revoke)) a1) d1,
             mkAnswer (Some (py "Attribution #" ++ str_of_Z id ++ py " revoked.")) false,
             Some uid)
          else (d, mkAnswer (Some (py "Unsupported action.")) true, None)
        end
      end
    | _ => invalid
    end
  end.

(** [handle_review_callback]: the transaction, which is committed when
    the [with] block is left, then
    [await callback.answer(message_text, show_alert=False)] and, once
    this call has returned,
    [if user_id is not None: cancel_verification(user_id)]. No [try]
    statement surrounds the call: when it raises, the handler is left
    there, after the commit and before [cancel_verification]. The second
    component is the answer the handler sends, or tries to send. *)
Definition handle_review_callback (callback : CallbackQuery) (w : World)
    : World * Answer :=
  let '(d, answer, user) := review_transaction callback (db w) in
  (mkWorld d (_subnet_events w)
     (match user with
      | Some uid =>
          if cb_answered callback then cancel_verification uid (scheduler w)
          else scheduler w
      | None => scheduler w
      end),
   answer).

(* ===================================================================== *)
(** ** The program as a reactive system *)
(* ===================================================================== *)

(** What the event loop can do next: dispatch a membership update or a
    review callback to its handler, run one step of a verification task,
    or run one of the other commands of [commands.py], which write the
    [users] and [affiliates] tables only. *)
Inductive Input :=
| ChatMember (update : ChatMemberUpdated)
| ReviewCallback (callback : CallbackQuery)
| LoopStep (h : nat) (now : datetime)
| OtherCommand (us : list User) (affs : list Affiliate).

Definition react (target_chat_id : Z) (i : Input) (w : World) : World :=
  match i with
  | ChatMember update => handle_chat_member target_chat_id update w
  | ReviewCallback callback => fst (handle_review_callback callback w)
  | LoopStep h now =>
      let '(d, s) := run_task h now (db w) (scheduler w) in
      mkWorld d (_subnet_events w) s
  | OtherCommand us affs =>
      mkWorld (mkDatabase us affs (attributions (db w)) (events (db w))
                 (attribution_seq (db w)) (event_seq (db w)))
        (_subnet_events w) (scheduler w)
  end.

Definition run (target_chat_id : Z) (inputs : list Input) (w : World) : World :=
  foldl (λ w i, react target_chat_id i w) w inputs.

Definition empty_database : Database := mkDatabase [] [] [] [] 1 1.

Definition initial_world : World :=
  mkWorld empty_database ∅ (mkScheduler [] ∅).

Definition reachable (target_chat_id : Z) (w : World) : Prop :=
  ∃ inputs, w = run target_chat_id inputs initial_world.

End Review.

(* ===================================================================== *)
(** ** Predicates of the statements *)
(* ===================================================================== *)

(** A reason tag as the handlers write them: not empty, without a comma
    and without surrounding white space. *)
Definition tag (t : list N) : Prop :=
  truthy t = true ∧ (comma ∉ t) ∧ strip t = t.

(** A note in the form [merge_note] writes: its tags in increasing
    order, without repetition. *)
Definition canonical_tags (l : list (list N)) : Prop :=
  Sorted str_le l ∧ NoDup l ∧ Forall tag l.

Section JoinPredicates.
Context `{PyLib}.

(** The user a membership update is about to attribute. *)
Definition join_user (update : ChatMemberUpdated) : Z := tg_id (upd_new_user update).

Definition join_subnet (update : ChatMemberUpdated) : option (list N) :=
  _ip_subnet (upd_request_ip update).

(** The burst detector reports a burst on this join. *)
Definition burst_reported (update : ChatMemberUpdated) (w : World) : bool :=
  match join_subnet update with
  | Some sn =>
      truthy sn && fst (_record_subnet_event sn (upd_now update) (_subnet_events w))
  | None => false
  end.

(** The join carries an invite link. *)
Definition join_link (update : ChatMemberUpdated) (link : list N) : Prop :=
  upd_invite_link update = Some link ∧ truthy link = true.

(** The guards of [_handle_join] let the join through, for [affiliate]. *)
Definition join_accepted (update : ChatMemberUpdated) (w : World)
    (link : list N) (affiliate : Affiliate) : Prop :=
  join_link update link
  ∧ get_affiliate_by_code (db w) (extract_link_code link) = Some affiliate
  ∧ owner_user_id affiliate ≠ join_user update
  ∧ is_active affiliate = true
  ∧ get_attribution_by_user (db w) (join_user update) = None.

(** One of the guards of [_handle_join] stops the join: the code of the
    link resolves to no affiliate, or to one that is inactive or owned by
    the joining user, or the user has an attribution already. *)
Definition join_rejected (update : ChatMemberUpdated) (w : World)
    (link : list N) : Prop :=
  join_link update link
  ∧ (get_affiliate_by_code (db w) (extract_link_code link) = None
     ∨ (∃ affiliate,
          get_affiliate_by_code (db w) (extract_link_code link) = Some affiliate
          ∧ (is_active affiliate = false
             ∨ owner_user_id affiliate = join_user update))
     ∨ is_Some (get_attribution_by_user (db w) (join_user update))).

(** The row [create_attribution] inserts for an accepted join. *)
Definition new_attribution (update : ChatMemberUpdated) (w : World)
    (affiliate : Affiliate) (reasons : list (list N)) : Attribution :=
  mkAttribution (attribution_seq (db w)) (join_user update) (aff_id affiliate)
    (upd_now update) None PENDING
    (match reasons with [] => None | _ => Some (join comma reasons) end)
    (upd_request_ip update) (join_subnet update).

(** [suspicion_reasons] *)
Definition join_reasons (update : ChatMemberUpdated) (w : World) : list (list N) :=
  (if burst_reported update w then [ip_burst] else [])
  ++ (if _is_fresh_account (upd_new_user update) then [fresh_account] else []).

(** The bucket of the burst detector after the join. *)
Definition join_subnet_events (update : ChatMemberUpdated) (w : World)
    : gmap (list N) (list Z) :=
  match join_subnet update with
  | Some sn =>
      if truthy sn
      then snd (_record_subnet_event sn (upd_now update) (_subnet_events w))
      else _subnet_events w
  | None => _subnet_events w
  end.

(** A table of the library functions on the strings of the examples
    below, where it agrees with Python. *)
Definition sample_lib : PyLib := {|
  urlparse_path url :=
    if decide (url = py "https://t.me/+abc") then py "/+abc"
    else if decide (url = py "https://t.me/+zzz") then py "/+zzz"
    else [];
  ip_address s :=
    if decide (s = py "10.0.0.5") then Some (IPv4Address 10 0 0 5)
    else if decide (s = py "10.0.0.9") then Some (IPv4Address 10 0 0 9)
    else if decide (s = py "::1") then Some IPv6Address
    else None;
  py_int s :=
    if decide (s = py "1") then Some 1
    else if decide (s = py "2") then Some 2
    else None;
|}.

End JoinPredicates.

(** The worlds and updates of the examples: three users join through the
    link of the affiliate of user 100, from one /24 network, within a
    minute. *)
Definition sample_tg (id : Z) : TgUser :=
  mkTgUser id false (Some (py "alice")) (Some (py "Alice")) None None.

Definition sample_join (id : Z) (link ip : list N) (now : Z) : ChatMemberUpdated :=
  mkUpdate (-100) LEFT MEMBER (sample_tg id) (sample_tg id) (Some link) (Some ip) now.

Definition sample_affiliates : list Affiliate :=
  [mkAffiliate 1 100 (py "https://t.me/+abc") (py "+abc") true].

Definition sample_joins : list Input :=
  [ OtherCommand [] sample_affiliates;
    ChatMember (sample_join 1 (py "https://t.me/+abc") (py "10.0.0.5") (seconds 0));
    ChatMember (sample_join 2 (py "https://t.me/+abc") (py "10.0.0.9") (seconds 10));
    ChatMember (sample_join 3 (py "https://t.me/+abc") (py "10.0.0.5") (seconds 20)) ].

(** An administrator verifies the first attribution by hand. *)
Definition sample_review : CallbackQuery :=
  mkCallback (Some 100) true (Some (py "review:verify:1")) (seconds 25) true.

Definition sample_inputs : list Input :=
  sample_joins ++ [ReviewCallback sample_review].

(** The owner of the link joins through it, from the same network, ten
    seconds later. *)
Definition sample_self_join : ChatMemberUpdated :=
  sample_join 100 (py "https://t.me/+abc") (py "10.0.0.5") (seconds 30).

(** A fourth user joins instead. *)
Definition sample_fourth_join : ChatMemberUpdated :=
  sample_join 4 (py "https://t.me/+abc") (py "10.0.0.9") (seconds 30).

Definition sample_world : World :=
  @run sample_lib (-100) sample_inputs initial_world.

(** An attribution counts in a window when it joined at or after the
    cutoff; the window ["all"] has none. *)
Definition in_window (cutoff : option Z) (a : Attribution) : Prop :=
  match cutoff with
  | Some c => c ≤ joined_at a
  | None => True
  end.

Global Instance in_window_dec cutoff a : Decision (in_window cutoff a).
Proof. destruct cutoff; simpl; apply _. Defined.

(** *** Invariants of the reachable worlds *)

(** The users that have an attribution. *)
Definition attributed_users (d : Database) : list Z :=
  joined_user_id <$> attributions d.

(** The primary key and the unique constraint of the [attributions]
    table, and its sequence ahead of the keys in use. *)
Definition wf_db (d : Database) : Prop :=
  NoDup (attr_id <$> attributions d)
  ∧ NoDup (attributed_users d)
  ∧ Forall (λ a, attr_id a < attribution_seq d) (attributions d).

(** The timers: every task is the task of an attributed user, no user has
    two tasks, and a live timer is the one registered for its user. *)
Definition wf_sched (us : list Z) (s : Scheduler) : Prop :=
  (∀ h t, tasks s !! h = Some t → task_user t ∈ us)
  ∧ (∀ h h' t t', tasks s !! h = Some t → tasks s !! h' = Some t' →
                  task_user t = task_user t' → h = h')
  ∧ (∀ h t, tasks s !! h = Some t → live t = true →
            _verification_tasks s !! task_user t = Some h).

Definition wf_world (w : World) : Prop :=
  wf_db (db w) ∧ wf_sched (attributed_users (db w)) (scheduler w).

(** No timer of the user can fire any more. *)
Definition disarmed (uid : Z) (s : Scheduler) : Prop :=
  ∀ h t, tasks s !! h = Some t → task_user t = uid → live t = false.

(** The keys of the [attributions] table: primary key and user. *)
Definition keys (d : Database) : list (Z * Z) :=
  (λ a, (attr_id a, joined_user_id a)) <$> attributions d.

(** What a handler other than an accepted join does to the table: nothing,
    or it saves one modified record of a user. *)
Definition untouched (d d' : Database) : Prop :=
  attributions d' = attributions d ∧ attribution_seq d' = attribution_seq d.

Definition saved (uid : Z) (d d' : Database) : Prop :=
  ∃ a a', a ∈ attributions d ∧ joined_user_id a = uid
          ∧ attr_id a' = attr_id a ∧ joined_user_id a' = uid
          ∧ attributions d' = attributions (save_attribution a' d)
          ∧ attribution_seq d' = attribution_seq d
          ∧ status a' ≠ PENDING.

(** A record on which a firing timer does nothing, and a user all of whose
    records are such. *)
Definition settled (a : Attribution) : Prop :=
  status a ≠ PENDING ∨ truthy_opt (note a) = true.

Definition user_settled (uid : Z) (d : Database) : Prop :=
  uid ∈ attributed_users d
  ∧ ∀ a, a ∈ attributions d → joined_user_id a = uid → settled a.

(** The rows of [d'] are rows of [d], or settled, or rows of a user
    without attribution in [d]. *)
Definition rows_evolve (d d' : Database) : Prop :=
  ∀ a', a' ∈ attributions d' →
        a' ∈ attributions d ∨ settled a' ∨ joined_user_id a' ∉ attributed_users d.

(** The record [aid] of the user [uid] is in the table and out of reach
    of the timers. *)
Definition record_settled (aid uid : Z) (d : Database) : Prop :=
  wf_db d ∧ user_settled uid d ∧ (aid, uid) ∈ keys d.

(** The state of affairs after a review of the attribution [aid] of the
    user [uid]: the record is in the table and no timer of the user can
    fire. *)
Definition review_settled (aid uid : Z) (w : World) : Prop :=
  wf_world w ∧ disarmed uid (scheduler w) ∧ (aid, uid) ∈ keys (db w).

(** The scheduler on its own: calls of its two functions, interleaved
    with steps of the event loop (on a database without attributions). *)
Inductive SchedulerCall :=
| Schedule (uid : Z)
| Cancel (uid : Z)
| Step (h : nat) (now : Z).

Definition scheduler_call (c : SchedulerCall) (s : Scheduler) : Scheduler :=
  match c with
  | Schedule uid => schedule_verification true uid s
  | Cancel uid => cancel_verification uid s
  | Step h now => (run_task h now empty_database s).2
  end.

Definition scheduler_calls (cs : list SchedulerCall) (s : Scheduler) : Scheduler :=
  foldl (λ s c, scheduler_call c s) s cs.

Definition empty_scheduler : Scheduler := mkScheduler [] ∅.

(** The user 1 of the sample world leaves. *)
Definition sample_leave : ChatMemberUpdated :=
  mkUpdate (-100) MEMBER LEFT (sample_tg 1) (sample_tg 1) None None (seconds 40).


(* ===================================================================== *)
(** ** The other queries of the services *)
(* ===================================================================== *)

(** Exceptions that reach the caller of a service. *)
Inductive Raised :=
| IntegrityError
| MultipleResultsFound.

(** Two functions on text that are not modelled: [str.lower] and the
    [lower] of the database. *)
Class PyText := {
  str_lower : list N → list N;
  sql_lower : list N → list N;
}.

Definition at_sign : N := 64%N.
Definition space : N := 32%N.
Definition newline : N := 10%N.

(** *** services/users.py *)

(** [func.lower(User.username) == normalized.lower()]; a NULL [username]
    matches no name. *)
Definition username_matches `{PyText} (normalized : list N) (u : User) : bool :=
  match username u with
  | Some n => bool_decide (sql_lower n = str_lower normalized)
  | None => false
  end.

(** [get_user_by_username]: [scalar_one_or_none()] raises when the
    statement selects more than one row; no constraint makes user names
    unique. *)
Definition get_user_by_username `{PyText} (db : Database) (uname : list N)
    : Raised + option User :=
  let normalized := lstrip_chars (N.eqb at_sign) uname in
  if negb (truthy normalized) then inr None
  else
    match filter (λ u, username_matches normalized u = true) (users db) with
    | [] => inr None
    | [u] => inr (Some u)
    | _ => inl MultipleResultsFound
    end.

(** *** services/affiliates.py *)

Definition with_affiliates (affs : list Affiliate) (db : Database) : Database :=
  mkDatabase (users db) affs (attributions db) (events db)
    (attribution_seq db) (event_seq db).

(** [get_affiliate_by_owner]: the unique constraint on [owner_user_id]
    leaves at most one row. *)
Definition get_affiliate_by_owner (db : Database) (owner : Z) : option Affiliate :=
  snd <$> list_find (λ a, owner_user_id a = owner) (affiliates db).

(** [create_affiliate]: [new_id] is the key the autoincrement column
    assigns. The flush raises [IntegrityError] when the row breaks one of
    the unique constraints of the table (on [invite_link], on [link_code]
    and on [owner_user_id]). *)
Definition create_affiliate (db : Database) (owner : User)
    (invite_link_ link_code_ : list N) (is_active_ : bool) (new_id : Z)
    : Raised + Database * Affiliate :=
  if bool_decide (Exists (λ a, invite_link a = invite_link_
                               ∨ link_code a = link_code_
                               ∨ owner_user_id a = user_id owner) (affiliates db))
  then inl IntegrityError
  else
    let affiliate :=
      mkAffiliate new_id (user_id owner) invite_link_ link_code_ is_active_ in
    inr (with_affiliates (affiliates db ++ [affiliate]) db, affiliate).

Definition set_is_active (b : bool) (a : Affiliate) : Affiliate :=
  mkAffiliate (aff_id a) (owner_user_id a) (invite_link a) (link_code a) b.

(** [set_affiliate_active]: the flush is [UPDATE ... WHERE id = pk]. *)
Definition set_affiliate_active (db : Database) (affiliate : Affiliate)
    (is_active_ : bool) : Database * Affiliate :=
  let affiliate' := set_is_active is_active_ affiliate in
  (with_affiliates
     ((λ r, if decide (aff_id r = aff_id affiliate) then affiliate' else r)
        <$> affiliates db) db,
   affiliate').

(** [bulk_set_active]: an [UPDATE] without [WHERE]; [rowcount] is the
    number of rows of the table. *)
Definition bulk_set_active (db : Database) (is_active_ : bool) : Database * Z :=
  (with_affiliates (set_is_active is_active_ <$> affiliates db) db,
   Z.of_nat (length (affiliates db))).

(** The result of [count_affiliates], a dictionary with the keys
    ["active"], ["inactive"] and ["total"]. *)
Record AffiliateCounts := mkAffiliateCounts {
  count_active : Z;
  count_inactive : Z;
  count_total : Z;
}.

Definition count_affiliates (db : Database) : AffiliateCounts :=
  let total := Z.of_nat (length (affiliates db)) in
  let active := Z.of_nat (length (filter (λ a, is_active a = true) (affiliates db))) in
  let inactive := Z.max (total - active) 0 in
  mkAffiliateCounts active inactive total.

(** A [Dict[AttributionStatus, int]], in insertion order. Assigning to a
    key that is present keeps its place. *)
Definition dict_set {K V} `{EqDecision K} (k : K) (v : V) (d : list (K * V))
    : list (K * V) :=
  if bool_decide (k ∈ d.*1)
  then (λ p, if decide (p.1 = k) then (k, v) else p) <$> d
  else d ++ [(k, v)].

(** [d.get(k, default)] *)
Definition dict_get {K V} `{EqDecision K} (k : K) (dflt : V) (d : list (K * V)) : V :=
  default dflt ((λ p, p.2.2) <$> list_find (λ p, p.1 = k) d).

(** The rows of [SELECT status, func.count() ... GROUP BY status] over the
    selected attributions: one row for each status that occurs. *)
Definition status_groups (selected : list Attribution)
    : list (AttributionStatus * Z) :=
  (λ st, (st, Z.of_nat (length (filter (λ a, status a = st) selected))))
    <$> remove_dups (status <$> selected).

(** [{status: 0 for status in AttributionStatus}], then
    [for status, total in rows: counts[status] = total]. *)
Definition status_counts (rows : list (AttributionStatus * Z))
    : list (AttributionStatus * Z) :=
  foldl (λ counts row, dict_set row.1 row.2 counts)
    [(PENDING, 0); (VERIFIED, 0); (REVOKED, 0)] rows.

Definition get_affiliate_stats (db : Database) (affiliate_id_ : Z)
    : list (AttributionStatus * Z) :=
  status_counts
    (status_groups (filter (λ a, affiliate_id a = affiliate_id_) (attributions db))).

(** *** services/attributions.py *)

(** [list_attributions_by_affiliate]: [ORDER BY joined_at DESC]; rows
    joined at the same time keep the order of the table. *)
Definition list_attributions_by_affiliate (db : Database) (affiliate_id_ : Z)
    : list Attribution :=
  sorted (λ a b, joined_at b <=? joined_at a)
    (filter (λ a, affiliate_id a = affiliate_id_) (attributions db)).

(** The key SQLite, the engine of the default [database_url], gives to
    the next row of a table whose key is declared as the models declare
    it (an [INTEGER PRIMARY KEY] without [AUTOINCREMENT]): one more than
    the largest key in the table, and 1 in an empty table. *)
Definition next_rowid (ids : list Z) : Z :=
  match ids with
  | [] => 1
  | id :: ids' => foldr Z.max id ids' + 1
  end.

(** [delete_attribution]: [DELETE ... WHERE id = pk]. The next key is
    taken from the rows that are left, so the key of a deleted last row
    is given again. *)
Definition delete_attribution (db : Database) (attribution : Attribution) : Database :=
  let rows := filter (λ r, attr_id r ≠ attr_id attribution) (attributions db) in
  mkDatabase (users db) (affiliates db) rows (events db)
    (next_rowid (attr_id <$> rows)) (event_seq db).

(** [set_attribution_note], [append] defaulting to [True]. *)
Definition set_attribution_note (db : Database) (attribution : Attribution)
    (reason : list N) (append : bool) : Database * Attribution :=
  let attribution' :=
    set_note (Some (if append then merge_note (note attribution) reason else reason))
      attribution in
  (save_attribution attribution' db, attribution').

Definition count_by_status_since (db : Database) (since : Z)
    : list (AttributionStatus * Z) :=
  status_counts
    (status_groups (filter (λ a, since ≤ joined_at a) (attributions db))).

(** *** services/integrity.py *)

(** The result of [run_integrity_checks], a dictionary with the keys
    ["inactive_affiliates_with_verified"] and ["dangling_attributions"]. *)
Record Issues := mkIssues {
  inactive_affiliates_with_verified : Z;
  dangling_attributions : Z;
}.

(** [run_integrity_checks]: the outer join on the primary key of
    [affiliates] gives one row for each attribution, with its affiliate or
    with [None]. *)
Definition run_integrity_checks (db : Database) : Issues :=
  foldl (λ issues attribution,
           match get_affiliate db (affiliate_id attribution) with
           | None =>
               mkIssues (inactive_affiliates_with_verified issues)
                 (dangling_attributions issues + 1)
           | Some affiliate =>
               if negb (is_active affiliate)
                  && bool_decide (status attribution = VERIFIED)
               then mkIssues (inactive_affiliates_with_verified issues + 1)
                      (dangling_attributions issues)
               else issues
           end)
    (mkIssues 0 0) (attributions db).

(** *** services/leaderboard.py *)

(** [cache_generated_at] *)
Definition cache_generated_at (lb : Leaderboard) (window : list N) : option Z :=
  _cache_generated_at lb !! window.

(* ===================================================================== *)
(** ** handlers/commands.py: the rate limiter and the commands *)
(* ===================================================================== *)

(** The [float] values the rate limiter works on, with the operations it
    uses: [x - n] for an [int] [n], [x > y] and the truth value of [x]. *)
Class PyFloat := {
  pyfloat : Type;
  float_sub : pyfloat → Z → pyfloat;
  float_gt : pyfloat → pyfloat → bool;
  float_truthy : pyfloat → bool;
}.

Definition RATE_LIMITED_COMMANDS : list (list N) :=
  [py "ping"; py "mylink"; py "deactivate"; py "reactivate"; py "mystats"; py "top"].

Section RateLimiter.
Context `{PyFloat}.

Record RateLimiter := mkRateLimiter {
  per_seconds : Z;
  max_calls : Z;
  _bucket : gmap Z (list pyfloat);
}.

(** [RateLimiter.__init__] *)
Definition RateLimiter_init (per_minutes max_calls_ : Z) : RateLimiter :=
  mkRateLimiter (per_minutes * 60) max_calls_ ∅.

(** [RateLimiter.hit]; [time_time] is the reading of [time.time()] that
    [now or time.time()] makes when [now] is [None] or zero. *)
Definition hit (self : RateLimiter) (uid : Z) (now : option pyfloat)
    (time_time : pyfloat) : bool * RateLimiter :=
  let current :=
    match now with
    | Some t => if float_truthy t then t else time_time
    | None => time_time
    end in
  let window_start := float_sub current (per_seconds self) in
  let bucket := default [] (_bucket self !! uid) in
  let bucket := filter (λ timestamp, float_gt timestamp window_start = true) bucket in
  let allowed := bool_decide (Z.of_nat (length bucket) < max_calls self) in
  let bucket := if allowed then bucket ++ [current] else bucket in
  (allowed,
   mkRateLimiter (per_seconds self) (max_calls self) (<[uid := bucket]> (_bucket self))).

(** [rate_limiter = RateLimiter()] *)
Definition initial_rate_limiter : RateLimiter := RateLimiter_init 1 5.

(** [_rate_limit], on the module-level limiter. *)
Definition _rate_limit (from_user : option TgUser) (command : list N)
    (time_time : pyfloat) (limiter : RateLimiter) : bool * RateLimiter :=
  if bool_decide (command ∉ RATE_LIMITED_COMMANDS) then (true, limiter)
  else
    match from_user with
    | None => (false, limiter)
    | Some user => hit limiter (tg_id user) None time_time
    end.

(** A sequence of calls of [hit] on one limiter, with their verdicts. *)
Record Call := mkCall {
  call_user : Z;
  call_now : option pyfloat;
  call_time : pyfloat;
}.

Definition call_current (c : Call) : pyfloat :=
  match call_now c with
  | Some t => if float_truthy t then t else call_time c
  | None => call_time c
  end.

Fixpoint hits (calls : list Call) (limiter : RateLimiter)
    : list bool * RateLimiter :=
  match calls with
  | [] => ([], limiter)
  | c :: calls' =>
      let '(allowed, limiter') :=
        hit limiter (call_user c) (call_now c) (call_time c) in
      let '(verdicts, limiter'') := hits calls' limiter' in
      (allowed :: verdicts, limiter'')
  end.

(** The fields of [Message] the commands read, with the readings of the
    environment a command makes: the clock of the rate limiter and the
    answer of [bot.get_chat_member] about the sender ([None] stands for
    [TelegramAPIError]). *)
Record Message := mkMessage {
  msg_from_user : option TgUser;
  msg_time : pyfloat;
  msg_member : option ChatMemberStatus;
}.

(** The state the commands on links share. *)
Record Bot := mkBot {
  bot_db : Database;
  rate_limiter : RateLimiter;
}.

End RateLimiter.

(** [_is_admin], on the answer of [bot.get_chat_member]. *)
Definition _is_admin (member : option ChatMemberStatus) : bool :=
  match member with
  | None => false
  | Some st => bool_decide (st = ADMINISTRATOR ∨ st = CREATOR)
  end.

Definition too_many_requests : list N :=
  py "Too many requests. Please try again shortly.".
Definition cannot_resolve : list N :=
  py "Cannot resolve your Telegram identity.".
Definition admins_only : list N :=
  py "Only chat administrators can use this command.".
Definition no_link_yet : list N :=
  py "You do not have an affiliate link yet. Send /mylink to create one.".

Global Arguments too_many_requests : simpl never.
Global Arguments cannot_resolve : simpl never.
Global Arguments admins_only : simpl never.
Global Arguments no_link_yet : simpl never.

(** The text [handle_my_link] answers with, under its three headlines. *)
Definition my_link_text (headline invite_link_ link_code_ : list N) : list N :=
  let instructions :=
    py "Share this link to attribute new members to you."
    ++ newline :: py "Use /deactivate to pause attribution or /reactivate to resume." in
  let code_line :=
    if truthy link_code_ then newline :: py "Code: `" ++ link_code_ ++ py "`" else [] in
  headline ++ newline :: invite_link_ ++ code_line ++ newline :: newline :: instructions.

Section Commands.
Context `{PyLib} `{PyText} `{PyFloat} `{SqlEngine}.

(** [_ensure_admin]: the answer it sends when it returns [False], [None]
    when it returns [True]. *)
Definition _ensure_admin (message : Message) : option (list N) :=
  match msg_from_user message with
  | None => Some cannot_resolve
  | Some caller =>
      if negb (_is_admin (msg_member message)) then Some admins_only else None
  end.

(** [handle_my_link]. [chat_invite] is the link the gateway creates when
    it is asked for one ([None] stands for [TelegramAPIError]) and
    [new_id] the key the database assigns to a new affiliate. The first
    transaction is committed before the gateway is called; an exception
    in the second one rolls it back and leaves the handler. *)
Definition handle_my_link (message : Message) (chat_invite : option (list N))
    (new_id : Z) (bot : Bot) : Bot * (Raised + list N) :=
  let '(allowed, limiter) :=
    _rate_limit (msg_from_user message) (py "mylink") (msg_time message)
      (rate_limiter bot) in
  if negb allowed then (mkBot (bot_db bot) limiter, inr too_many_requests) else
  match msg_from_user message with
  | None => (mkBot (bot_db bot) limiter, inr cannot_resolve)
  | Some tg_user =>
    let failed := py "Failed to resolve your affiliate link. Please try again." in
    let '(db1, user) :=
      upsert_user (bot_db bot) (tg_id tg_user) (tg_username tg_user)
        (tg_first_name tg_user) (tg_last_name tg_user) in
    match get_affiliate_by_owner db1 (user_id user) with
    | Some affiliate =>
        let invite_link_ := invite_link affiliate in
        let link_code_ := link_code affiliate in
        let '(db2, reactivated) :=
          if negb (is_active affiliate)
          then (fst (set_affiliate_active db1 affiliate true), true)
          else (db1, false) in
        if negb (truthy invite_link_) then (mkBot db2 limiter, inr failed)
        else
          (mkBot db2 limiter,
           inr (my_link_text
                  (if reactivated then py "Your affiliate link has been reactivated."
                   else py "Your affiliate link is active.")
                  invite_link_ link_code_))
    | None =>
        match chat_invite with
        | None =>
            (mkBot db1 limiter,
             inr (py "I could not create your invite link. Ensure the bot has permission to manage invite links."))
        | Some invite_link_ =>
            let link_code_ := extract_link_code invite_link_ in
            let '(db2, user) :=
              upsert_user db1 (tg_id tg_user) (tg_username tg_user)
                (tg_first_name tg_user) (tg_last_name tg_user) in
            match create_affiliate db2 user invite_link_ link_code_ true new_id with
            | inl e => (mkBot db1 limiter, inl e)
            | inr (db3, _) =>
                if negb (truthy invite_link_) then (mkBot db3 limiter, inr failed)
                else
                  (mkBot db3 limiter,
                   inr (my_link_text (py "Your affiliate link is ready!")
                          invite_link_ link_code_))
            end
        end
    end
  end.

(** [handle_deactivate] *)
Definition handle_deactivate (message : Message) (bot : Bot) : Bot * list N :=
  let '(allowed, limiter) :=
    _rate_limit (msg_from_user message) (py "deactivate") (msg_time message)
      (rate_limiter bot) in
  if negb allowed then (mkBot (bot_db bot) limiter, too_many_requests) else
  match msg_from_user message with
  | None => (mkBot (bot_db bot) limiter, cannot_resolve)
  | Some tg_user =>
    match get_user (bot_db bot) (tg_id tg_user) with
    | Some user =>
      match get_affiliate_by_owner (bot_db bot) (user_id user) with
      | Some affiliate =>
          if negb (is_active affiliate)
          then (mkBot (bot_db bot) limiter,
                py "Your affiliate link is already deactivated.")
          else (mkBot (fst (set_affiliate_active (bot_db bot) affiliate false)) limiter,
                py "Your affiliate link has been deactivated. Use /reactivate when you are ready to share it again.")
      | None => (mkBot (bot_db bot) limiter, no_link_yet)
      end
    | None => (mkBot (bot_db bot) limiter, no_link_yet)
    end
  end.

(** [handle_reactivate] *)
Definition handle_reactivate (message : Message) (bot : Bot) : Bot * list N :=
  let '(allowed, limiter) :=
    _rate_limit (msg_from_user message) (py "reactivate") (msg_time message)
      (rate_limiter bot) in
  if negb allowed then (mkBot (bot_db bot) limiter, too_many_requests) else
  match msg_from_user message with
  | None => (mkBot (bot_db bot) limiter, cannot_resolve)
  | Some tg_user =>
    match get_user (bot_db bot) (tg_id tg_user) with
    | Some user =>
      match get_affiliate_by_owner (bot_db bot) (user_id user) with
      | Some affiliate =>
          if is_active affiliate
          then (mkBot (bot_db bot) limiter,
                py "Your affiliate link is already active."
                ++ newline :: invite_link affiliate)
          else (mkBot (fst (set_affiliate_active (bot_db bot) affiliate true)) limiter,
                py "Your affiliate link is active again!"
                ++ newline :: invite_link affiliate)
      | None => (mkBot (bot_db bot) limiter, no_link_yet)
      end
    | None => (mkBot (bot_db bot) limiter, no_link_yet)
    end
  end.

(** [handle_pause_links] *)
Definition handle_pause_links (message : Message) (bot : Bot) : Bot * list N :=
  match _ensure_admin message with
  | Some refusal => (bot, refusal)
  | None =>
      let '(db1, updated) := bulk_set_active (bot_db bot) false in
      (mkBot db1 (rate_limiter bot),
       py "Paused " ++ str_of_Z updated
       ++ py " affiliate link(s). Existing attributions remain intact.")
  end.

(** [handle_resume_links] *)
Definition handle_resume_links (message : Message) (bot : Bot) : Bot * list N :=
  match _ensure_admin message with
  | Some refusal => (bot, refusal)
  | None =>
      let '(db1, updated) := bulk_set_active (bot_db bot) true in
      (mkBot db1 (rate_limiter bot),
       py "Reactivated " ++ str_of_Z updated ++ py " affiliate link(s).")
  end.

(** [s.split()]: the words between runs of white space. *)
Fixpoint split_whitespace (s : list N) : list (list N) :=
  match s with
  | [] => []
  | c :: s' =>
      if is_space c then split_whitespace s'
      else
        match s' with
        | [] => [[c]]
        | c' :: _ =>
            if is_space c' then [c] :: split_whitespace s'
            else
              match split_whitespace s' with
              | w :: ws => (c :: w) :: ws
              | [] => [[c]]
              end
        end
  end.

(** The window and the limit [handle_top] reads from the arguments of
    the command. *)
Definition top_arguments (command_args : option (list N)) : list N * Z :=
  let args := split_whitespace (or_empty command_args) in
  let '(window, args) :=
    match args with
    | arg :: rest =>
        let token := str_lower arg in
        if bool_decide (token ∈ [py "7d"; py "30d"]) then (token, rest)
        else (py "all", args)
    | [] => (py "all", args)
    end in
  let limit :=
    match args with
    | arg :: _ =>
        match py_int arg with
        | Some n => Z.max 1 (Z.min 50 n)
        | None => 10
        end
    | [] => 10
    end in
  (window, limit).

(** The rows [handle_top] shows: [top_affiliates(session, limit=limit,
    window=window)], the cache in use. *)
Definition handle_top_rows (command_args : option (list N)) (db : Database)
    (lb : Leaderboard) (now : Z) : list (Affiliate * Z) :=
  let '(window, limit) := top_arguments command_args in
  top_affiliates db lb limit window true now.

End Commands.

(** [" ".join(filter(None, parts)).strip()] for
    [parts = [user.first_name, user.last_name]]. *)
Definition full_name (user : User) : list N :=
  strip (join space
           (omap (λ part, if truthy_opt part then part else None)
              [first_name user; last_name user])).

(** [_friendly_user_label] *)
Definition _friendly_user_label (user : User) : list N :=
  if truthy_opt (username user) then at_sign :: or_empty (username user)
  else
    let name := full_name user in
    if truthy name then name else str_of_Z (user_id user).

(** [_affiliate_display_name]; [owner] is [affiliate.owner], the row of
    [users] with the key [owner_user_id]. *)
Definition _affiliate_display_name (owner : option User) (affiliate : Affiliate)
    : list N :=
  match owner with
  | Some user =>
      if truthy_opt (username user) then at_sign :: or_empty (username user)
      else
        let name := full_name user in
        if truthy name then name else str_of_Z (user_id user)
  | None => py "Affiliate #" ++ str_of_Z (aff_id affiliate)
  end.

(** [format(s, ">w")] and [format(s, "<w")]: padding with spaces. *)
Definition rjust (width : nat) (s : list N) : list N :=
  replicate (width - length s) space ++ s.

Definition ljust (width : nat) (s : list N) : list N :=
  s ++ replicate (width - length s) space.

(** [f"{index:>4} {label:<20.20} {total:>9}"] *)
Definition format_row (index : Z) (label : list N) (total : Z) : list N :=
  rjust 4 (str_of_Z index) ++ space :: ljust 20 (take 20 label)
  ++ space :: rjust 9 (str_of_Z total).

Definition table_header : list N := py "Rank Affiliate            Verified".

(** [_format_table]: the rows are numbered from 1. *)
Definition _format_table (db : Database) (rows : list (Affiliate * Z)) : list N :=
  join newline
    (table_header
     :: imap (λ i row,
                format_row (Z.of_nat i + 1)
                  (_affiliate_display_name (get_user db (owner_user_id row.1)) row.1)
                  row.2)
          rows).

(** An engine that delivers the groups in the order of the keys of the
    affiliates, for the examples. *)
Definition sample_engine : SqlEngine := {| group_rank := aff_id |}.

(** A clock and a table of [lower] for the examples. *)
Definition sample_float : PyFloat := {|
  pyfloat := Z;
  float_sub x n := x - n;
  float_gt x y := y <? x;
  float_truthy x := negb (x =? 0);
|}.

Definition sample_text : PyText := {|
  str_lower s := if decide (s = py "7D") then py "7d" else s;
  sql_lower s := if decide (s = py "Alice") then py "alice" else s;
|}.

(* ===================================================================== *)
(** ** Predicates of the further statements *)
(* ===================================================================== *)

(** An ASCII digit. *)
Definition is_digit (c : N) : Prop := (48 ≤ c ≤ 57)%N.

(** The unique constraints and the primary key of the [affiliates]
    table. *)
Definition unique_links (d : Database) : Prop :=
  NoDup (aff_id <$> affiliates d)
  ∧ NoDup (owner_user_id <$> affiliates d)
  ∧ NoDup (invite_link <$> affiliates d)
  ∧ NoDup (link_code <$> affiliates d).

(** Two databases with the same ledger: the same attributions and events
    and the same sequences. *)
Definition same_ledger (d d' : Database) : Prop :=
  attributions d' = attributions d ∧ events d' = events d
  ∧ attribution_seq d' = attribution_seq d ∧ event_seq d' = event_seq d.

(** A bot for the examples: the user 100 owns the one link of the
    examples; nobody has sent a command yet. *)
Definition sample_users : list User :=
  [mkUser 100 (Some (py "alice")) (Some (py "Alice")) None].

Definition sample_bot : @Bot sample_float :=
  @mkBot sample_float (mkDatabase sample_users sample_affiliates [] [] 1 1)
    (@initial_rate_limiter sample_float).

Definition sample_message (uid : Z) (now : Z) : @Message sample_float :=
  @mkMessage sample_float (Some (sample_tg uid)) now (Some MEMBER).

(** The counts [recompute_cache] stores for a window at the time [now]. *)
Definition window_counts (d : Database) (window_key : list N) (now : Z)
    : list (Z * Z) :=
  let cutoff := _window_cutoff window_key now in
  (λ id, (id, verified_total d cutoff id))
    <$> remove_dups (affiliate_id
                       <$> filter (λ a, verified_since cutoff a = true) (attributions d)).

(** The window [top_affiliates] serves for a name. *)
Definition served_window (window : list N) : list N :=
  if bool_decide (window ∈ fst <$> LEADERBOARD_WINDOWS) then window else py "all".

(** The world of the examples after the fourth join, which flags the
    attributions of the network, and its first attribution. *)
Definition sample_flagged_db : Database :=
  db (@_handle_join sample_lib sample_fourth_join sample_world).

Definition sample_flagged_item : Attribution :=
  mkAttribution 1 1 1 (seconds 0) None PENDING (Some (py "ip_burst"))
    (Some (py "10.0.0.5")) (Some (py "10.0.0.0/24")).

(** The columns of an attribution that [create_attribution] fills in and
    that no other statement of the services assigns. *)
Definition origin (a : Attribution)
    : Z * Z * Z * Z * option (list N) * option (list N) :=
  (attr_id a, joined_user_id a, affiliate_id a, joined_at a,
   last_seen_ip a, source_subnet a).

Definition origins (d : Database)
    : list (Z * Z * Z * Z * option (list N) * option (list N)) :=
  origin <$> attributions d.

(** The event [e] is the [JOIN] event that [_handle_join] logs for the
    attribution [a]. *)
Definition join_event_of (e : Event) (a : Attribution) : Prop :=
  ev_type e = JOIN
  ∧ ev_user_id e = joined_user_id a
  ∧ ev_affiliate_id e = Some (affiliate_id a)
  ∧ ∃ link code flags,
      raw e = RawJoin link code (attr_id a) flags (last_seen_ip a) (source_subnet a).

(* ===================================================================== *)
(** * Properties *)
(* ===================================================================== *)

(** ** The order on strings *)

Lemma str_leb_refl a : str_leb a a = true.
Proof.
  induction a as [|x a IH]; simpl; [done|].
  rewrite N.ltb_irrefl, N.eqb_refl. exact IH.
Qed.

Lemma str_leb_total a b : str_leb a b = true ∨ str_leb b a = true.
Proof.
  revert b. induction a as [|x a IH]; intros [|y b]; simpl; auto.
  destruct (N.ltb_spec x y), (N.ltb_spec y x); auto; try lia.
  assert (x = y) as -> by lia. rewrite N.eqb_refl. apply IH.
Qed.

Lemma str_leb_trans a b c :
  str_leb a b = true → str_leb b c = true → str_leb a c = true.
Proof.
  revert b c. induction a as [|x a IH]; intros [|y b] [|z c]; simpl; auto; try done.
  destruct (N.ltb_spec x y), (N.ltb_spec y z), (N.ltb_spec x z); try done; try lia.
  - destruct (N.eqb_spec y z); [lia|done].
  - destruct (N.eqb_spec x y); [lia|done].
  - destruct (N.eqb_spec x y), (N.eqb_spec y z), (N.eqb_spec x z);
      try done; try lia. apply IH.
Qed.

Lemma str_leb_antisym a b :
  str_leb a b = true → str_leb b a = true → a = b.
Proof.
  revert b. induction a as [|x a IH]; intros [|y b]; simpl; try done.
  destruct (N.ltb_spec x y), (N.ltb_spec y x); try lia; try done.
  - destruct (N.eqb_spec y x); [lia|done].
  - destruct (N.eqb_spec x y); [lia|done].
  - destruct (N.eqb_spec x y), (N.eqb_spec y x); try done.
    intros. f_equal; [done|]. by apply IH.
Qed.

Lemma str_le_trans : Transitive str_le.
Proof. intros a b c. apply str_leb_trans. Qed.

Lemma str_le_antisym : AntiSymm (=) str_le.
Proof. intros a b. apply str_leb_antisym. Qed.

(** ** [sorted] sorts *)

Section SortedFacts.
Context {A : Type} (leb : A → A → bool).
Hypothesis leb_total : ∀ x y, leb x y = true ∨ leb y x = true.

Lemma insert_sorted_perm x l : insert_sorted leb x l ≡ₚ x :: l.
Proof.
  induction l as [|y l IH]; simpl; [done|].
  destruct (leb x y); [done|]. rewrite IH. apply Permutation_swap.
Qed.

Lemma sorted_perm l : sorted leb l ≡ₚ l.
Proof.
  induction l as [|x l IH]; simpl; [done|].
  unfold sorted in *. simpl. rewrite insert_sorted_perm. by rewrite IH.
Qed.

Lemma insert_sorted_Sorted x l :
  Sorted (λ x y, leb x y = true) l →
  Sorted (λ x y, leb x y = true) (insert_sorted leb x l).
Proof using leb_total.
  induction l as [|y l IH]; simpl; intros Hs.
  - by repeat constructor.
  - destruct (leb x y) eqn:E.
    + constructor; [done|]. by constructor.
    + inversion Hs as [|? ? Hl Hd]; subst. constructor; [by apply IH|].
      assert (leb y x = true) by (destruct (leb_total x y); [congruence|done]).
      destruct l as [|z l]; simpl; [by constructor|].
      destruct (leb x z); constructor; [done|]. by inversion Hd.
Qed.

Lemma sorted_Sorted l : Sorted (λ x y, leb x y = true) (sorted leb l).
Proof using leb_total.
  induction l as [|x l IH]; [constructor|].
  unfold sorted in *. simpl. by apply insert_sorted_Sorted.
Qed.
End SortedFacts.

Lemma sorted_str_unique (l1 l2 : list (list N)) :
  Sorted str_le l2 → l1 ≡ₚ l2 → sorted str_leb l1 = l2.
Proof.
  intros Hs Hp.
  apply (@Sorted_unique _ str_le str_le_trans str_le_antisym); [|done|].
  - apply sorted_Sorted, str_leb_total.
  - by rewrite sorted_perm.
Qed.

(** ** [strip], [split] and [join] *)

Section Strip.
Context (p : N → bool).

Lemma lstrip_chars_suffix s : ∃ ws, s = ws ++ lstrip_chars p s.
Proof.
  induction s as [|c s [ws IH]]; simpl; [by exists []|].
  destruct (p c); [|by exists []].
  exists (c :: ws). simpl. by f_equal.
Qed.

Lemma lstrip_chars_length s : (length (lstrip_chars p s) ≤ length s)%nat.
Proof.
  destruct (lstrip_chars_suffix s) as [ws E].
  rewrite E at 2. rewrite length_app. lia.
Qed.

Lemma lstrip_chars_head c s : lstrip_chars p (c :: s) = c :: s → p c = false.
Proof.
  simpl. destruct (p c); [|done]. intros E.
  pose proof (lstrip_chars_length s) as Hl. rewrite E in Hl. simpl in Hl. lia.
Qed.

Lemma lstrip_chars_idem s : lstrip_chars p (lstrip_chars p s) = lstrip_chars p s.
Proof.
  induction s as [|c s IH]; simpl; [done|].
  destruct (p c) eqn:E; [done|]. simpl. by rewrite E.
Qed.

Lemma rstrip_chars_prefix s : ∃ ws, s = rstrip_chars p s ++ ws.
Proof.
  unfold rstrip_chars. destruct (lstrip_chars_suffix (rev s)) as [ws E].
  exists (rev ws). rewrite <- rev_app_distr, <- E. by rewrite rev_involutive.
Qed.

Lemma rstrip_chars_idem s : rstrip_chars p (rstrip_chars p s) = rstrip_chars p s.
Proof.
  unfold rstrip_chars. by rewrite rev_involutive, lstrip_chars_idem.
Qed.

Lemma lstrip_rstrip_chars s :
  lstrip_chars p s = s → lstrip_chars p (rstrip_chars p s) = rstrip_chars p s.
Proof.
  intros Hs. destruct (rstrip_chars_prefix s) as [ws E].
  destruct (rstrip_chars p s) as [|c r]; [done|].
  rewrite E in Hs. simpl in Hs. apply lstrip_chars_head in Hs.
  simpl. by rewrite Hs.
Qed.

Lemma strip_chars_idem s : strip_chars p (strip_chars p s) = strip_chars p s.
Proof.
  unfold strip_chars.
  rewrite (lstrip_rstrip_chars (lstrip_chars p s)) by apply lstrip_chars_idem.
  apply rstrip_chars_idem.
Qed.

Lemma strip_chars_subseteq s : strip_chars p s ⊆ s.
Proof.
  unfold strip_chars. intros x Hx.
  destruct (rstrip_chars_prefix (lstrip_chars p s)) as [ws1 E1].
  destruct (lstrip_chars_suffix s) as [ws2 E2].
  rewrite E2, E1. set_solver.
Qed.
End Strip.

Section Split.
Context (sep : N).

Lemma split_not_nil s : split sep s ≠ [].
Proof.
  destruct s as [|c s]; simpl; [done|].
  destruct (c =? sep)%N; [done|]. by destruct (split sep s).
Qed.

Lemma split_sep_free s : Forall (λ w, sep ∉ w) (split sep s).
Proof.
  induction s as [|c s IH]; simpl.
  - repeat constructor. set_solver.
  - destruct (N.eqb_spec c sep) as [->|Hne].
    + constructor; [set_solver|done].
    + destruct (split sep s) as [|w ws]; [repeat constructor; set_solver|].
      inversion IH; subst. constructor; [set_solver|done].
Qed.

Lemma split_app w s : sep ∉ w → split sep (w ++ sep :: s) = w :: split sep s.
Proof.
  induction w as [|c w IH]; simpl; intros Hw.
  - by rewrite N.eqb_refl.
  - destruct (N.eqb_spec c sep) as [->|Hne]; [set_solver|].
    rewrite IH by set_solver. done.
Qed.

Lemma split_sep_free_id w : sep ∉ w → split sep w = [w].
Proof.
  induction w as [|c w IH]; simpl; intros Hw; [done|].
  destruct (N.eqb_spec c sep) as [->|Hne]; [set_solver|].
  rewrite IH by set_solver. done.
Qed.

Lemma split_join l :
  l ≠ [] → Forall (λ w, sep ∉ w) l → split sep (join sep l) = l.
Proof.
  induction l as [|w l IH]; [done|]. intros _ Hf.
  inversion Hf as [|? ? Hw Hl]; subst.
  destruct l as [|w' l]; simpl.
  - by apply split_sep_free_id.
  - rewrite split_app by done. f_equal. by apply IH.
Qed.

Lemma join_truthy l r : r ∈ l → truthy r = true → truthy (join sep l) = true.
Proof.
  induction l as [|w l IH]; intros Hin Hr; [set_solver|].
  destruct l as [|w' l]; simpl.
  - assert (r = w) as <- by set_solver. done.
  - destruct w; [|done]. done.
Qed.
End Split.

(** ** [merge_note] *)

Lemma tag_stripped t : tag t → strip t = t ∧ truthy t = true ∧ comma ∉ t.
Proof. intros (?&?&?). done. Qed.

Lemma note_reasons_elem e r :
  r ∈ note_reasons e ↔
  ∃ w, w ∈ split comma (or_empty e) ∧ r = strip w ∧ truthy r = true.
Proof.
  unfold note_reasons. rewrite elem_of_list_to_set, list_elem_of_filter, list_elem_of_fmap.
  naive_solver.
Qed.

Lemma note_reasons_tag e r : r ∈ note_reasons e → tag r.
Proof.
  rewrite note_reasons_elem. intros (w & Hw & -> & Ht).
  split; [done|]. split.
  - intros Hc. apply strip_chars_subseteq in Hc.
    pose proof (split_sep_free comma (or_empty e)) as Hf.
    rewrite Forall_forall in Hf. by apply (Hf w).
  - apply strip_chars_idem.
Qed.

Lemma note_reasons_join l :
  Forall tag l → note_reasons (Some (join comma l)) = list_to_set l.
Proof.
  intros Hf. unfold note_reasons. simpl.
  destruct l as [|w l]; [done|].
  rewrite split_join; [|done|].
  - f_equal. induction Hf as [|x l' Hx Hl IH]; [done|].
    rewrite fmap_cons, filter_cons. destruct Hx as (Ht & _ & Hs).
    rewrite Hs. rewrite decide_True by done. f_equal. destruct l'; [done|]. apply IH.
  - eapply Forall_impl; [done|]. by intros x (_&?&_).
Qed.

Lemma merge_note_sorted e r :
  ∃ l, merge_note e r = join comma l ∧ Sorted str_le l ∧ NoDup l
       ∧ ∀ x, x ∈ l ↔ x ∈ note_reasons e ∨ x = r.
Proof.
  exists (sorted str_leb (elements (note_reasons e ∪ {[ r ]}))).
  split; [done|]. split; [apply sorted_Sorted, str_leb_total|].
  split.
  - rewrite sorted_perm. apply NoDup_elements.
  - intros x. rewrite sorted_perm, elem_of_elements. set_solver.
Qed.

Lemma merge_note_canonical e r :
  tag r → ∃ l, merge_note e r = join comma l ∧ canonical_tags l ∧ r ∈ l
               ∧ ∀ x, x ∈ l ↔ x ∈ note_reasons e ∨ x = r.
Proof.
  intros Hr. destruct (merge_note_sorted e r) as (l & E & Hs & Hn & Hl).
  exists l. repeat split; try done; try apply Hl; auto.
  rewrite Forall_forall. intros x Hx. apply Hl in Hx as [Hx| ->]; [|done].
  by apply note_reasons_tag in Hx.
Qed.

Lemma merge_note_present l r :
  canonical_tags l → r ∈ l → merge_note (Some (join comma l)) r = join comma l.
Proof.
  intros (Hs & Hn & Hf) Hr. unfold merge_note.
  rewrite note_reasons_join by done. f_equal.
  apply sorted_str_unique; [done|].
  assert (list_to_set l ∪ {[ r ]} = (list_to_set l : gset (list N))) as -> by set_solver.
  by apply elements_list_to_set.
Qed.

Lemma merge_note_twice e r :
  tag r → merge_note (Some (merge_note e r)) r = merge_note e r.
Proof.
  intros Hr. destruct (merge_note_canonical e r Hr) as (l & E & Hc & Hin & _).
  rewrite E. by apply merge_note_present.
Qed.

Lemma merge_note_truthy e r : truthy r = true → truthy (merge_note e r) = true.
Proof.
  intros Hr. destruct (merge_note_sorted e r) as (l & E & _ & _ & Hl).
  rewrite E. apply join_truthy with r; [|done]. apply Hl. by right.
Qed.

(** C7 as stated fails on the note [_handle_join] writes when both
    heuristics apply: merging the tag [ip_burst], already present in
    ["ip_burst,fresh_account"], rewrites the note in sorted order. *)
Lemma merge_note_present_reorders :
  ¬ (∀ (existing reason : list N),
       reason ∈ note_reasons (Some existing) →
       merge_note (Some existing) reason = existing).
Proof.
  intros Hc.
  specialize (Hc (py "ip_burst,fresh_account") (py "ip_burst")).
  assert (merge_note (Some (py "ip_burst,fresh_account")) (py "ip_burst")
          = py "fresh_account,ip_burst") as E by (vm_compute; reflexivity).
  rewrite E in Hc. clear E.
  assert (py "fresh_account,ip_burst" ≠ py "ip_burst,fresh_account") as Hne
    by (vm_compute; discriminate).
  apply Hne, Hc.
  apply note_reasons_elem. exists (py "ip_burst").
  split; [|by vm_compute].
  vm_compute. apply list_elem_of_here.
Qed.

(** C7 (amended). [merge_note] re-serializes the set of the tags of the
    note together with the new tag, sorted and without repetition, so the
    result is a function of that set; merging ["ip_burst"] into
    ["fresh_account"] gives ["fresh_account,ip_burst"] and merging it
    again gives the same note; merging a tag already present leaves a note
    unchanged when the note is in the sorted form [merge_note] writes, and
    merging a tag twice gives what merging it once gives. *)
Theorem merge_note_spec :
  merge_note (Some (py "fresh_account")) (py "ip_burst") = py "fresh_account,ip_burst"
  ∧ merge_note (Some (py "fresh_account,ip_burst")) (py "ip_burst")
    = py "fresh_account,ip_burst"
  ∧ (∀ existing reason, ∃ l,
        merge_note existing reason = join comma l ∧ Sorted str_le l ∧ NoDup l
        ∧ ∀ x, x ∈ l ↔ x ∈ note_reasons existing ∨ x = reason)
  ∧ (∀ l reason, canonical_tags l → reason ∈ l →
        merge_note (Some (join comma l)) reason = join comma l)
  ∧ (∀ existing reason, tag reason →
        merge_note (Some (merge_note existing reason)) reason
        = merge_note existing reason).
Proof.
  split; [by vm_compute|]. split; [by vm_compute|].
  split; [apply merge_note_sorted|].
  split; [apply merge_note_present|apply merge_note_twice].
Qed.

Lemma tag_ip_burst : tag ip_burst.
Proof.
  split; [by vm_compute|]. split; [|by vm_compute].
  apply (bool_decide_unpack _). by vm_compute.
Qed.

Lemma tag_fresh_account : tag fresh_account.
Proof.
  split; [by vm_compute|]. split; [|by vm_compute].
  apply (bool_decide_unpack _). by vm_compute.
Qed.

Lemma tag_manual_revoke : tag manual_revoke.
Proof.
  split; [by vm_compute|]. split; [|by vm_compute].
  apply (bool_decide_unpack _). by vm_compute.
Qed.

Lemma merge_note_spec_witness :
  canonical_tags [fresh_account; ip_burst]
  ∧ merge_note (Some (join comma [fresh_account; ip_burst])) ip_burst
    = join comma [fresh_account; ip_burst].
Proof.
  assert (canonical_tags [fresh_account; ip_burst]) as Hc.
  { split; [|split].
    - repeat constructor.
    - apply (bool_decide_unpack _). by vm_compute.
    - repeat constructor; [apply tag_fresh_account|apply tag_ip_burst]. }
  split; [exact Hc|].
  apply (proj1 (proj2 (proj2 (proj2 merge_note_spec)))); [exact Hc|].
  apply list_elem_of_further, list_elem_of_here.
Defined.

(** ** The fresh-account heuristic *)

Example fresh_account_Al :
  _is_fresh_account (mkTgUser 7 false None (Some (py "Al")) None None) = true.
Proof. reflexivity. Qed.

Example fresh_account_Alex :
  _is_fresh_account (mkTgUser 7 false None (Some (py "Alex")) None None) = false.
Proof. reflexivity. Qed.

Example fresh_account_padded :
  _is_fresh_account (mkTgUser 7 false None (Some (py "  Al ")) None (Some false)) = true.
Proof. reflexivity. Qed.

(** C3. [_is_fresh_account] flags a user exactly when it is a bot, or it
    is not premium, has no username and its first name, trimmed, has at
    most two characters. A premium account and an account with a username
    are flagged by the bot rule only, whatever the name. *)
Theorem is_fresh_account_spec (user : TgUser) :
  (_is_fresh_account user = true ↔
     tg_is_bot user = true
     ∨ (default false (tg_is_premium user) = false
        ∧ truthy_opt (tg_username user) = false
        ∧ (length (strip (or_empty (tg_first_name user))) ≤ 2)%nat))
  ∧ (default false (tg_is_premium user) = true →
     _is_fresh_account user = tg_is_bot user)
  ∧ (truthy_opt (tg_username user) = true →
     _is_fresh_account user = tg_is_bot user).
Proof.
  unfold _is_fresh_account.
  destruct user as [id bot uname fname lname prem]; simpl.
  destruct bot; simpl.
  { split; [naive_solver|done]. }
  destruct (default false prem) eqn:Ep; simpl.
  { split; [naive_solver|done]. }
  assert (truthy (or_empty uname) = truthy_opt uname) as -> by by destruct uname.
  destruct (truthy_opt uname) eqn:Eu; simpl.
  { split; [naive_solver|done]. }
  case_bool_decide; split; try done; naive_solver.
Qed.

Lemma is_fresh_account_spec_witness :
  _is_fresh_account (mkTgUser 7 false (Some (py "al")) (Some (py "Al")) None (Some true))
  = false.
Proof.
  exact (proj1 (proj2 (is_fresh_account_spec
           (mkTgUser 7 false (Some (py "al")) (Some (py "Al")) None (Some true))))
         eq_refl).
Defined.

(** ** Reading and writing rows *)

Lemma find_replace {A} (P Q : A → Prop) `{!∀ x, Decision (P x)}
    `{!∀ x, Decision (Q x)} (l : list A) (a a' : A) :
  snd <$> list_find P l = Some a → Q a → P a' →
  snd <$> list_find P ((λ r, if decide (Q r) then a' else r) <$> l) = Some a'.
Proof.
  intros Hf Hq Hp. induction l as [|x l IH]; [done|].
  rewrite fmap_cons. simpl in *.
  destruct (decide (P x)) as [Hx|Hx].
  - simpl in Hf. injection Hf as ->. rewrite (decide_True (P:=Q a)) by done.
    by rewrite decide_True.
  - destruct (decide (Q x)); [by rewrite decide_True|].
    rewrite decide_False by done.
    destruct (list_find P l) as [[i y]|]; [|done]. simpl in Hf. injection Hf as ->.
    specialize (IH eq_refl).
    destruct (list_find P _) as [[j z]|]; [|done]. simpl in *. done.
Qed.

Lemma find_Some_elem {A} (P : A → Prop) `{!∀ x, Decision (P x)} (l : list A) a :
  snd <$> list_find P l = Some a → a ∈ l ∧ P a.
Proof.
  destruct (list_find P l) as [[i y]|] eqn:E; [|done]. simpl. intros [= ->].
  apply list_find_Some in E as (Hl & Hp & _). split; [|done].
  by eapply list_elem_of_lookup_2.
Qed.

Lemma find_None_elem {A} (P : A → Prop) `{!∀ x, Decision (P x)} (l : list A) :
  snd <$> list_find P l = None ↔ Forall (λ x, ¬ P x) l.
Proof.
  destruct (list_find P l) as [[i y]|] eqn:E; simpl.
  - split; [done|]. intros Hf. apply list_find_Some in E as (Hl & Hp & _).
    rewrite Forall_forall in Hf. exfalso. eapply Hf; [|done].
    by eapply list_elem_of_lookup_2.
  - split; [|done]. intros _. by apply (list_find_None P l).
Qed.

Lemma find_is_Some {A} (P : A → Prop) `{!∀ x, Decision (P x)} (l : list A) a :
  a ∈ l → P a → is_Some (snd <$> list_find P l).
Proof.
  intros Hin Hp. destruct (snd <$> list_find P l) eqn:E; [done|].
  apply find_None_elem in E. rewrite Forall_forall in E. by destruct (E a).
Qed.

Lemma get_attribution_by_user_save d a a' :
  get_attribution_by_user d (joined_user_id a') = Some a →
  attr_id a' = attr_id a →
  get_attribution_by_user (save_attribution a' d) (joined_user_id a') = Some a'.
Proof.
  intros Hg Hid. unfold get_attribution_by_user, save_attribution. simpl.
  apply (find_replace _ (λ r, attr_id r = attr_id a')) with a; done.
Qed.

Lemma get_attribution_save d a a' :
  get_attribution d (attr_id a') = Some a →
  get_attribution (save_attribution a' d) (attr_id a') = Some a'.
Proof.
  intros Hg. unfold get_attribution, save_attribution. simpl.
  apply (find_replace _ (λ r, attr_id r = attr_id a')) with a; try done.
  by apply find_Some_elem in Hg as [_ ?].
Qed.

Lemma get_attribution_by_user_save_at d uid a a' :
  get_attribution_by_user d uid = Some a →
  attr_id a' = attr_id a → joined_user_id a' = uid →
  get_attribution_by_user (save_attribution a' d) uid = Some a'.
Proof. intros Hg Hid <-. by apply get_attribution_by_user_save with a. Qed.

Lemma get_attribution_save_at d aid a a' :
  get_attribution d aid = Some a → attr_id a' = aid →
  get_attribution (save_attribution a' d) aid = Some a'.
Proof. intros Hg <-. by apply get_attribution_save with a. Qed.

Lemma attributions_upsert_user d uid un fn ln :
  attributions (fst (upsert_user d uid un fn ln)) = attributions d.
Proof. unfold upsert_user. by destruct (get_user d uid). Qed.

Lemma in_burst_spec subnet since a :
  in_burst subnet since a = true ↔
  source_subnet a = Some subnet ∧ since ≤ joined_at a.
Proof.
  unfold in_burst. rewrite andb_true_iff, bool_decide_eq_true, Z.leb_le. done.
Qed.

Lemma note_reasons_merge e r t :
  tag r → t ∈ note_reasons (Some (merge_note e r)) ↔ t ∈ note_reasons e ∨ t = r.
Proof.
  intros Hr. destruct (merge_note_canonical e r Hr) as (l & E & (_ & _ & Hf) & _ & Hl).
  rewrite E, note_reasons_join by done. rewrite elem_of_list_to_set. apply Hl.
Qed.

Lemma ip_burst_in_flag a : ip_burst ∈ note_reasons (note (flag a)).
Proof.
  simpl. destruct (merge_note_canonical (note a) ip_burst tag_ip_burst)
    as (l & E & (_ & _ & Hf) & Hin & _).
  rewrite E, note_reasons_join by done. by apply elem_of_list_to_set.
Qed.

(** ** The scheduler registry *)

Lemma cancel_verification_registry uid s :
  _verification_tasks (cancel_verification uid s) = delete uid (_verification_tasks s).
Proof.
  unfold cancel_verification. destruct (_ !! uid) eqn:E; [done|].
  by rewrite delete_id.
Qed.

Lemma cancel_flagged_registry target flagged s v :
  (v ∈ flagged ∧ v ≠ target) ∨ _verification_tasks s !! v = None →
  _verification_tasks (cancel_flagged target flagged s) !! v = None.
Proof.
  unfold cancel_flagged. revert s.
  induction flagged as [|x l IH]; intros s Hv; simpl.
  - destruct Hv as [[Hv _]|Hv]; [set_solver|done].
  - apply IH. destruct (decide (x ≠ target)) as [Hx|Hx].
    + rewrite cancel_verification_registry.
      destruct (decide (v = x)) as [->|Hne]; [right; apply lookup_delete_eq|].
      destruct Hv as [[Hv ?]|Hv]; [left; set_solver|].
      right. by rewrite lookup_delete_ne.
    + destruct Hv as [[Hv ?]|Hv]; [|by right].
      left. split; [|done]. apply dec_stable in Hx. set_solver.
Qed.

(** ** [flag_subnet_burst] *)

Lemma flag_subnet_burst_rows d subnet since :
  attributions (fst (flag_subnet_burst d subnet since))
  = (λ a, if in_burst subnet since a then flag a else a) <$> attributions d.
Proof. done. Qed.

Lemma flag_subnet_burst_users d subnet since :
  joined_user_id <$> snd (flag_subnet_burst d subnet since)
  = joined_user_id <$> filter (λ a, in_burst subnet since a = true) (attributions d).
Proof.
  simpl. rewrite <- list_fmap_compose. by apply list_fmap_ext.
Qed.

(** ** [_handle_join] *)

Section Join.
Context `{PyLib}.

Lemma get_affiliate_by_code_upsert d uid un fn ln code :
  get_affiliate_by_code (fst (upsert_user d uid un fn ln)) code
  = get_affiliate_by_code d code.
Proof. unfold upsert_user. by destruct (get_user d uid). Qed.

Lemma get_attribution_by_user_upsert d uid un fn ln u :
  get_attribution_by_user (fst (upsert_user d uid un fn ln)) u
  = get_attribution_by_user d u.
Proof. unfold upsert_user. by destruct (get_user d uid). Qed.

Lemma upsert_user_id d uid un fn ln : user_id (snd (upsert_user d uid un fn ln)) = uid.
Proof. unfold upsert_user. by destruct (get_user d uid). Qed.

Lemma upsert_user_frame d uid un fn ln :
  let d' := fst (upsert_user d uid un fn ln) in
  affiliates d' = affiliates d ∧ attributions d' = attributions d
  ∧ events d' = events d ∧ attribution_seq d' = attribution_seq d
  ∧ event_seq d' = event_seq d.
Proof. unfold upsert_user. by destruct (get_user d uid). Qed.

Lemma ip_burst_not_fresh (b : bool) :
  ip_burst ∉ (if b then [fresh_account] else []).
Proof.
  destruct b; [|set_solver]. intros Hin. apply list_elem_of_singleton in Hin.
  by vm_compute in Hin.
Qed.

Lemma handle_join_accepted update w link affiliate :
  join_accepted update w link affiliate →
  let reasons := join_reasons update w in
  let new := new_attribution update w affiliate reasons in
  let since := upd_now update - BURST_WINDOW in
  let sn := default [] (join_subnet update) in
  let w' := _handle_join update w in
  attributions (db w')
  = (if burst_reported update w
     then (λ a, if in_burst sn since a then flag a else a)
            <$> (attributions (db w) ++ [new])
     else attributions (db w) ++ [new])
  ∧ scheduler w'
    = cancel_flagged (join_user update)
        (if burst_reported update w
         then joined_user_id
                <$> filter (λ a, in_burst sn since a = true) (attributions (db w) ++ [new])
         else [])
        (match reasons with
         | [] => schedule_verification true (join_user update) (scheduler w)
         | _ => cancel_verification (join_user update) (scheduler w)
         end)
  ∧ events (db w')
    = events (db w)
      ++ [mkEvent (event_seq (db w)) JOIN (join_user update) (Some (aff_id affiliate))
            (RawJoin link (extract_link_code link) (attribution_seq (db w))
               reasons (upd_request_ip update) (join_subnet update))]
  ∧ affiliates (db w') = affiliates (db w)
  ∧ attribution_seq (db w') = attribution_seq (db w) + 1.
Proof.
  intros ((Hl & Ht) & Ha & Ho & Hact & Hn). cbv zeta.
  pose proof (eq_refl (_handle_join update w)) as E.
  unfold _handle_join in E at 2. rewrite Hl, Ht in E. cbn [negb] in E.
  assert (match _ip_subnet (upd_request_ip update) with
          | Some sn =>
              if truthy sn
              then _record_subnet_event sn (upd_now update) (_subnet_events w)
              else (false, _subnet_events w)
          | None => (false, _subnet_events w)
          end = (burst_reported update w,
                 match _ip_subnet (upd_request_ip update) with
                 | Some sn =>
                     if truthy sn
                     then snd (_record_subnet_event sn (upd_now update) (_subnet_events w))
                     else _subnet_events w
                 | None => _subnet_events w
                 end)) as Eb.
  { unfold burst_reported, join_subnet.
    destruct (_ip_subnet _) as [sn|]; [|done].
    destruct (truthy sn); [|done]. by destruct (_record_subnet_event _ _ _). }
  rewrite Eb in E. clear Eb.
  destruct (upsert_user _ _ _ _ _) as [db1 ju] eqn:EU.
  assert (db1 = fst (upsert_user (db w) (tg_id (upd_new_user update))
                       (tg_username (upd_new_user update))
                       (tg_first_name (upd_new_user update))
                       (tg_last_name (upd_new_user update)))) as Hdb1 by by rewrite EU.
  assert (user_id ju = join_user update) as Hju.
  { replace ju with (snd (upsert_user (db w) (tg_id (upd_new_user update))
                       (tg_username (upd_new_user update))
                       (tg_first_name (upd_new_user update))
                       (tg_last_name (upd_new_user update)))) by by rewrite EU.
    apply upsert_user_id. }
  rewrite Hju in E.
  assert (get_affiliate_by_code db1 (extract_link_code link) = Some affiliate) as Ha1
    by by rewrite Hdb1, get_affiliate_by_code_upsert.
  assert (get_attribution_by_user db1 (join_user update) = None) as Hn1
    by by rewrite Hdb1, get_attribution_by_user_upsert.
  rewrite Ha1 in E. rewrite bool_decide_eq_false_2 in E by done.
  rewrite Hact in E. cbn [negb orb] in E. rewrite Hn1 in E.
  destruct (upsert_user_frame (db w) (tg_id (upd_new_user update))
              (tg_username (upd_new_user update))
              (tg_first_name (upd_new_user update))
              (tg_last_name (upd_new_user update))) as (Hf1 & Hf2 & Hf3 & Hf4 & Hf5).
  rewrite <- Hdb1 in Hf1, Hf2, Hf3, Hf4, Hf5.
  rewrite E. clear E. unfold create_attribution, new_attribution, join_reasons.
  rewrite Hf2, Hf3, Hf4, Hf5.
  destruct (burst_reported update w) eqn:Eb.
  - unfold burst_reported, join_subnet in Eb. unfold join_subnet.
    destruct (_ip_subnet _) as [sn|] eqn:Es; [|done].
    apply andb_true_iff in Eb as [Hts _]. rewrite Hts.
    rewrite bool_decide_eq_true_2 by set_solver.
    cbn. repeat split; try done.
    unfold cancel_flagged, join_user. f_equal.
    rewrite <- list_fmap_compose. by apply list_fmap_ext.
  - unfold join_subnet.
    assert (bool_decide (ip_burst ∈ [] ++ (if _is_fresh_account (upd_new_user update)
                                           then [fresh_account] else [])) = false) as ->.
    { apply bool_decide_eq_false_2. apply ip_burst_not_fresh. }
    destruct (_ip_subnet _) as [sn|] eqn:Es; cbn; repeat split; done.
Qed.

Lemma join_burst_pair update w :
  match _ip_subnet (upd_request_ip update) with
  | Some sn =>
      if truthy sn
      then _record_subnet_event sn (upd_now update) (_subnet_events w)
      else (false, _subnet_events w)
  | None => (false, _subnet_events w)
  end = (burst_reported update w, join_subnet_events update w).
Proof.
  unfold burst_reported, join_subnet_events, join_subnet.
  destruct (_ip_subnet _) as [sn|]; [|done].
  destruct (truthy sn); [|done]. by destruct (_record_subnet_event _ _ _).
Qed.

Lemma handle_join_rejected update w link :
  join_rejected update w link →
  _handle_join update w
  = mkWorld (fst (upsert_user (db w) (join_user update)
                    (tg_username (upd_new_user update))
                    (tg_first_name (upd_new_user update))
                    (tg_last_name (upd_new_user update))))
      (join_subnet_events update w) (scheduler w).
Proof.
  intros ((Hl & Ht) & Hr).
  unfold _handle_join. rewrite Hl, Ht. cbn [negb].
  rewrite join_burst_pair. unfold join_user in *.
  destruct (upsert_user _ _ _ _ _) as [db1 ju] eqn:EU.
  assert (db1 = fst (upsert_user (db w) (tg_id (upd_new_user update))
                       (tg_username (upd_new_user update))
                       (tg_first_name (upd_new_user update))
                       (tg_last_name (upd_new_user update)))) as Hdb1 by by rewrite EU.
  assert (user_id ju = tg_id (upd_new_user update)) as Hju.
  { replace ju with (snd (upsert_user (db w) (tg_id (upd_new_user update))
                       (tg_username (upd_new_user update))
                       (tg_first_name (upd_new_user update))
                       (tg_last_name (upd_new_user update)))) by by rewrite EU.
    apply upsert_user_id. }
  rewrite Hju. cbn [fst].
  assert (get_affiliate_by_code db1 (extract_link_code link)
          = get_affiliate_by_code (db w) (extract_link_code link)) as ->
    by by rewrite Hdb1, get_affiliate_by_code_upsert.
  assert (get_attribution_by_user db1 (tg_id (upd_new_user update))
          = get_attribution_by_user (db w) (tg_id (upd_new_user update))) as ->
    by by rewrite Hdb1, get_attribution_by_user_upsert.
  destruct Hr as [-> | [(aff & -> & Hr) | [a Hr]]]; [done| |].
  - destruct Hr as [-> | ->]; [by rewrite orb_true_r|].
    by rewrite bool_decide_eq_true_2.
  - rewrite Hr. destruct (get_affiliate_by_code _ _); [|done].
    by destruct (_ || _).
Qed.

Lemma get_user_upsert d uid un fn ln :
  get_user (fst (upsert_user d uid un fn ln)) uid = Some (mkUser uid un fn ln).
Proof.
  unfold upsert_user. destruct (get_user d uid) as [u|] eqn:E; unfold get_user in *; simpl.
  - apply (find_replace _ (λ r, user_id r = uid)) with u; try done.
    by apply find_Some_elem in E as [_ ?].
  - apply find_None_elem in E.
    destruct (find_is_Some (λ u, user_id u = uid) (users d ++ [mkUser uid un fn ln])
                (mkUser uid un fn ln)) as [x Hx]; [set_solver|done|].
    rewrite Hx. apply find_Some_elem in Hx as [Hin Hp].
    apply elem_of_app in Hin as [Hin|Hin].
    + rewrite Forall_forall in E. by destruct (E x).
    + apply list_elem_of_singleton in Hin. by subst.
Qed.

Lemma rejected_join_attributions update w link :
  join_rejected update w link →
  attributions (db (_handle_join update w)) = attributions (db w).
Proof.
  intros Hr. rewrite (handle_join_rejected _ _ _ Hr). cbn [db].
  apply attributions_upsert_user.
Qed.

(** C9 (amended). A join stopped by a guard of [_handle_join] creates no
    attribution, logs no event and leaves the affiliates and the timers as
    they are; the row of the joining user is upserted all the same, and the
    join is recorded by the burst detector. *)
Theorem rejected_join_spec update w link :
  join_rejected update w link →
  let w' := _handle_join update w in
  attributions (db w') = attributions (db w)
  ∧ events (db w') = events (db w)
  ∧ affiliates (db w') = affiliates (db w)
  ∧ attribution_seq (db w') = attribution_seq (db w)
  ∧ event_seq (db w') = event_seq (db w)
  ∧ scheduler w' = scheduler w
  ∧ get_user (db w') (join_user update)
    = Some (mkUser (join_user update) (tg_username (upd_new_user update))
              (tg_first_name (upd_new_user update))
              (tg_last_name (upd_new_user update)))
  ∧ _subnet_events w' = join_subnet_events update w.
Proof.
  intros Hr. cbv zeta. rewrite (handle_join_rejected _ _ _ Hr). cbn [db scheduler _subnet_events].
  destruct (upsert_user_frame (db w) (join_user update)
              (tg_username (upd_new_user update))
              (tg_first_name (upd_new_user update))
              (tg_last_name (upd_new_user update))) as (Hf1 & Hf2 & Hf3 & Hf4 & Hf5).
  repeat split; try done. apply get_user_upsert.
Qed.

(** ** The burst detector *)

Lemma filter_all {A} (P : A → Prop) `{!∀ x, Decision (P x)} (l : list A) :
  Forall P l → filter P l = l.
Proof.
  induction 1 as [|x l Hx Hl IH]; [done|].
  rewrite filter_cons, decide_True by done. by f_equal.
Qed.

Lemma filter_Forall {A} (P Q : A → Prop) `{!∀ x, Decision (P x)} (l : list A) :
  Forall Q l → Forall Q (filter P l).
Proof.
  rewrite !Forall_forall. intros Hq x Hx. apply list_elem_of_filter in Hx as [_ ?]. auto.
Qed.

Lemma filter_StronglySorted {A} (R : relation A) (P : A → Prop)
    `{!∀ x, Decision (P x)} (l : list A) :
  StronglySorted R l → StronglySorted R (filter P l).
Proof.
  induction 1 as [|x l Hs IH Hall]; [constructor|].
  rewrite filter_cons. destruct (decide (P x)); [|done].
  constructor; [done|]. by apply filter_Forall.
Qed.

Lemma popleft_old_sorted now bucket :
  Sorted Z.le bucket →
  popleft_old now bucket = filter (λ t, now - t ≤ BURST_WINDOW) bucket.
Proof.
  intros Hs. apply Sorted_StronglySorted in Hs; [|intros ???; lia].
  induction Hs as [|t bucket Hs IH Hall]; [done|].
  simpl. rewrite filter_cons. destruct (Z.ltb_spec BURST_WINDOW (now - t)).
  - rewrite decide_False by lia. done.
  - rewrite decide_True by lia. f_equal. symmetry.
    apply filter_all. eapply Forall_impl; [exact Hall|]. simpl. intros. lia.
Qed.

Lemma record_subnet_event_sorted now bucket :
  Sorted Z.le bucket → Forall (λ t, t ≤ now) bucket →
  Sorted Z.le (popleft_old now bucket ++ [now]).
Proof.
  intros Hs Hn. rewrite popleft_old_sorted by done.
  apply Sorted_snoc.
  - apply StronglySorted_Sorted, filter_StronglySorted.
    apply Sorted_StronglySorted; [intros ???; lia|done].
  - assert (Forall (λ t, t ≤ now) (filter (λ t, now - t ≤ BURST_WINDOW) bucket)) as Hf
      by by apply filter_Forall.
    destruct (filter _ bucket) as [|x l _] using rev_ind; [constructor|].
    apply Forall_app in Hf as [_ Hf]. inversion Hf; subst.
    by constructor.
Qed.

Lemma record_subnet_event_burst subnet now ev :
  fst (_record_subnet_event subnet now ev) = true ↔
  (3 ≤ length (popleft_old now (default [] (ev !! subnet))))%nat.
Proof.
  unfold _record_subnet_event, BURST_THRESHOLD. cbn [fst].
  rewrite bool_decide_eq_true, length_app. simpl. lia.
Qed.

Lemma join_reopens update w link affiliate sn a :
  join_accepted update w link affiliate →
  join_subnet update = Some sn →
  burst_reported update w = true →
  a ∈ attributions (db w) ++ [new_attribution update w affiliate (join_reasons update w)] →
  source_subnet a = Some sn →
  upd_now update - BURST_WINDOW ≤ joined_at a →
  flag a ∈ attributions (db (_handle_join update w))
  ∧ _verification_tasks (scheduler (_handle_join update w)) !! joined_user_id a = None.
Proof.
  intros Hacc Hsn Hb Ha Hs Hj.
  destruct (handle_join_accepted _ _ _ _ Hacc) as (Hattr & Hsched & _).
  rewrite Hb, Hsn in Hattr, Hsched.
  change (default [] (Some sn)) with sn in Hattr, Hsched.
  assert (in_burst sn (upd_now update - BURST_WINDOW) a = true) as Hin
    by by apply in_burst_spec.
  split.
  - rewrite Hattr. apply list_elem_of_fmap. exists a. cbv beta. by rewrite Hin.
  - rewrite Hsched. apply cancel_flagged_registry.
    destruct (decide (joined_user_id a = join_user update)) as [Heq|Hne].
    + right. unfold join_reasons. rewrite Hb. cbn [app].
      rewrite cancel_verification_registry, Heq. apply lookup_delete_eq.
    + left. split; [|done]. apply list_elem_of_fmap. exists a. split; [done|].
      by apply list_elem_of_filter.
Qed.

(** C4. [flag_subnet_burst] rewrites every attribution of the subnet
    joined at or after [since], whatever its status: the status becomes
    pending, the verification time is cleared and [ip_burst] is merged
    into the note, whose tags are then the tags it had and [ip_burst];
    the other attributions and the other tables are left as they are. It
    returns the rewritten records, whose user ids are the ids of the
    affected users, and [_handle_join] disarms the timer of each of
    them. *)
Theorem flag_subnet_burst_spec (d : Database) (subnet : list N) (since : Z) :
  let r := flag_subnet_burst d subnet since in
  (∀ i a, attributions d !! i = Some a →
     (source_subnet a = Some subnet ∧ since ≤ joined_at a →
      ∃ a', attributions r.1 !! i = Some a'
            ∧ status a' = PENDING ∧ verified_at a' = None
            ∧ note a' = Some (merge_note (note a) ip_burst)
            ∧ ip_burst ∈ note_reasons (note a')
            ∧ (∀ t, t ∈ note_reasons (note a') ↔ t ∈ note_reasons (note a) ∨ t = ip_burst)
            ∧ attr_id a' = attr_id a ∧ joined_user_id a' = joined_user_id a
            ∧ affiliate_id a' = affiliate_id a ∧ joined_at a' = joined_at a
            ∧ last_seen_ip a' = last_seen_ip a ∧ source_subnet a' = source_subnet a)
     ∧ (¬ (source_subnet a = Some subnet ∧ since ≤ joined_at a) →
        attributions r.1 !! i = Some a))
  ∧ length (attributions r.1) = length (attributions d)
  ∧ users r.1 = users d ∧ affiliates r.1 = affiliates d ∧ events r.1 = events d
  ∧ joined_user_id <$> r.2
    = joined_user_id
        <$> filter (λ a, source_subnet a = Some subnet ∧ since ≤ joined_at a)
              (attributions d)
  ∧ (∀ target s v, v ∈ joined_user_id <$> r.2 → v ≠ target →
       _verification_tasks (cancel_flagged target (joined_user_id <$> r.2) s) !! v = None).
Proof.
  cbv zeta. split; [|split; [|split; [|split; [|split; [|split]]]]].
  - intros i a Hi. rewrite flag_subnet_burst_rows, list_lookup_fmap, Hi. cbn [fmap option_fmap option_map].
    split.
    + intros Hin. apply in_burst_spec in Hin. rewrite Hin.
      exists (flag a). split; [done|]. split; [done|]. split; [done|].
      split; [done|]. split; [apply ip_burst_in_flag|].
      split; [intros t; apply note_reasons_merge, tag_ip_burst|done].
    + intros Hout. destruct (in_burst subnet since a) eqn:E; [|done].
      by apply in_burst_spec in E.
  - rewrite flag_subnet_burst_rows. apply length_fmap.
  - done.
  - done.
  - done.
  - rewrite flag_subnet_burst_users. f_equal.
    apply list_filter_iff. intros a. apply in_burst_spec.
  - intros target s v Hv Hne. apply cancel_flagged_registry. by left.
Qed.

Lemma flag_subnet_burst_spec_witness :
  let a := mkAttribution 1 7 1 (seconds 10) (Some (seconds 700)) VERIFIED
             (Some fresh_account) None (Some (py "10.0.0.0/24")) in
  let d := mkDatabase [] [] [a] [] 2 1 in
  ∃ a', attributions (flag_subnet_burst d (py "10.0.0.0/24") 0).1 !! 0%nat = Some a'
        ∧ status a' = PENDING ∧ verified_at a' = None
        ∧ note a' = Some (merge_note (Some fresh_account) ip_burst)
        ∧ fresh_account ∈ note_reasons (note a')
        ∧ ip_burst ∈ note_reasons (note a').
Proof.
  cbv zeta.
  assert (0 ≤ seconds 10) as Hle by (unfold seconds; lia).
  assert (fresh_account ∈ note_reasons (Some fresh_account)) as Hf.
  { apply note_reasons_elem. exists fresh_account.
    assert (split comma (or_empty (Some fresh_account)) = [fresh_account]) as ->
      by by vm_compute.
    split; [apply list_elem_of_here|]. split; by vm_compute. }
  destruct (proj1 (proj1 (flag_subnet_burst_spec
                     (mkDatabase [] []
                        [mkAttribution 1 7 1 (seconds 10) (Some (seconds 700)) VERIFIED
                           (Some fresh_account) None (Some (py "10.0.0.0/24"))] [] 2 1)
                     (py "10.0.0.0/24") 0) 0%nat _ eq_refl)
              (conj eq_refl Hle))
    as (a' & H1 & H2 & H3 & H4 & H5 & H6 & _).
  exists a'. split; [exact H1|]. split; [exact H2|]. split; [exact H3|].
  split; [exact H4|]. split; [|exact H5]. apply H6. left. exact Hf.
Defined.

End Join.

(** ** Examples on the sample world *)

Example sample_world_attributions :
  attributions (db sample_world)
  = [ mkAttribution 1 1 1 (seconds 0) (Some (seconds 25)) VERIFIED None
        (Some (py "10.0.0.5")) (Some (py "10.0.0.0/24"));
      mkAttribution 2 2 1 (seconds 10) None PENDING None
        (Some (py "10.0.0.9")) (Some (py "10.0.0.0/24"));
      mkAttribution 3 3 1 (seconds 20) None PENDING None
        (Some (py "10.0.0.5")) (Some (py "10.0.0.0/24")) ].
Proof. vm_compute. reflexivity. Qed.

Example sample_world_bucket :
  _subnet_events sample_world !! py "10.0.0.0/24"
  = Some [seconds 0; seconds 10; seconds 20].
Proof. vm_compute. reflexivity. Qed.

Example sample_fourth_join_flags_all :
  (λ a, (attr_id a, status a, verified_at a, note a))
    <$> attributions (db (_handle_join (H:=sample_lib) sample_fourth_join sample_world))
  = [ (1, PENDING, None, Some (py "ip_burst"));
      (2, PENDING, None, Some (py "ip_burst"));
      (3, PENDING, None, Some (py "ip_burst"));
      (4, PENDING, None, Some (py "ip_burst")) ].
Proof. vm_compute. reflexivity. Qed.

Lemma sample_self_join_rejected :
  join_rejected (H:=sample_lib) sample_self_join sample_world (py "https://t.me/+abc").
Proof.
  split; [by split|]. right. left.
  exists (mkAffiliate 1 100 (py "https://t.me/+abc") (py "+abc") true).
  split; [by vm_compute|]. by right.
Qed.

(** C2 as stated fails: the fourth join of the window is reported as a
    burst, but it is the owner of the link who joins, the guard stops the
    join and the attributions of the subnet stay as they were, the first
    one verified. *)
Lemma burst_without_reopening :
  ¬ (∀ (H : PyLib) update w sn a,
       join_subnet update = Some sn →
       burst_reported update w = true →
       a ∈ attributions (db w) →
       source_subnet a = Some sn →
       upd_now update - BURST_WINDOW ≤ joined_at a →
       ∃ a', a' ∈ attributions (db (_handle_join update w))
             ∧ attr_id a' = attr_id a ∧ status a' = PENDING
             ∧ ip_burst ∈ note_reasons (note a')).
Proof.
  intros Hc.
  destruct (Hc sample_lib sample_self_join sample_world (py "10.0.0.0/24")
              (mkAttribution 1 1 1 (seconds 0) (Some (seconds 25)) VERIFIED None
                 (Some (py "10.0.0.5")) (Some (py "10.0.0.0/24"))))
    as (a' & Hin & Hid & Hst & _).
  - by vm_compute.
  - by vm_compute.
  - rewrite sample_world_attributions. apply list_elem_of_here.
  - done.
  - by vm_compute.
  - rewrite (rejected_join_attributions _ _ _ sample_self_join_rejected),
      sample_world_attributions in Hin.
    clear Hc.
    apply elem_of_cons in Hin as [->|Hin]; [discriminate Hst|].
    apply elem_of_cons in Hin as [->|Hin]; [discriminate Hid|].
    apply elem_of_cons in Hin as [->|Hin]; [discriminate Hid|].
    by apply elem_of_nil in Hin.
Qed.

(** C9 as stated fails: the rejected join of the owner writes the row of
    the owner in the [users] table. *)
Lemma rejected_join_writes_user :
  ¬ (∀ (H : PyLib) update w link,
       join_rejected update w link → db (_handle_join update w) = db w).
Proof.
  intros Hc.
  specialize (Hc sample_lib _ _ _ sample_self_join_rejected).
  apply (f_equal (λ d, length (users d))) in Hc. by vm_compute in Hc.
Qed.

Lemma rejected_join_spec_witness :
  attributions (db (_handle_join (H:=sample_lib) sample_self_join sample_world))
  = attributions (db sample_world).
Proof.
  exact (proj1 (rejected_join_spec (H:=sample_lib) _ _ _ sample_self_join_rejected)).
Defined.

Lemma sample_fourth_join_accepted :
  join_accepted (H:=sample_lib) sample_fourth_join sample_world (py "https://t.me/+abc")
    (mkAffiliate 1 100 (py "https://t.me/+abc") (py "+abc") true).
Proof.
  split; [by split|]. split; [by vm_compute|]. split; [by vm_compute|].
  split; [done|]. by vm_compute.
Qed.

(** ** Revocation *)

Lemma save_attribution_twice a b d :
  attr_id a = attr_id b →
  save_attribution b (save_attribution a d) = save_attribution b d.
Proof.
  intros Hid. unfold save_attribution, with_attributions. simpl. f_equal.
  rewrite <- list_fmap_compose. apply list_fmap_ext. intros i r _. simpl.
  destruct (decide (attr_id r = attr_id a)) as [E|E].
  - rewrite decide_True by done. rewrite decide_True by congruence. done.
  - rewrite decide_False by congruence. done.
Qed.

Lemma update_status_revoked d a now :
  update_attribution_status d a REVOKED (verified_at a) now
  = (save_attribution (set_status REVOKED a) d, set_status REVOKED a).
Proof. unfold update_attribution_status. by destruct a. Qed.

Lemma get_attribution_id d id a : get_attribution d id = Some a → attr_id a = id.
Proof. intros Hg. by apply find_Some_elem in Hg as [_ ?]. Qed.

Lemma get_attribution_by_user_id d uid a :
  get_attribution_by_user d uid = Some a → joined_user_id a = uid.
Proof. intros Hg. by apply find_Some_elem in Hg as [_ ?]. Qed.

Section Revocation.
Context `{PyLib}.

Lemma handle_leave_revokes update w a :
  get_attribution_by_user (db w) (tg_id (upd_old_user update)) = Some a →
  status a ≠ REVOKED →
  _handle_leave update w
  = mkWorld
      (log_event
         (save_attribution (set_status REVOKED a)
            (fst (upsert_user (db w) (tg_id (upd_old_user update))
                    (tg_username (upd_old_user update))
                    (tg_first_name (upd_old_user update))
                    (tg_last_name (upd_old_user update)))))
         LEAVE (tg_id (upd_old_user update)) (Some (affiliate_id a))
         (RawLeave (status_value (upd_new_status update)) (attr_id a)))
      (_subnet_events w)
      (cancel_verification (tg_id (upd_old_user update)) (scheduler w)).
Proof.
  intros Ha Hst. unfold _handle_leave.
  destruct (upsert_user _ _ _ _ _) as [db1 ju] eqn:EU.
  assert (db1 = fst (upsert_user (db w) (tg_id (upd_old_user update))
                       (tg_username (upd_old_user update))
                       (tg_first_name (upd_old_user update))
                       (tg_last_name (upd_old_user update)))) as Hdb1 by by rewrite EU.
  assert (user_id ju = tg_id (upd_old_user update)) as Hju.
  { replace ju with (snd (upsert_user (db w) (tg_id (upd_old_user update))
                       (tg_username (upd_old_user update))
                       (tg_first_name (upd_old_user update))
                       (tg_last_name (upd_old_user update)))) by by rewrite EU.
    apply upsert_user_id. }
  assert (get_attribution_by_user db1 (tg_id (upd_old_user update)) = Some a) as ->
    by by rewrite Hdb1, get_attribution_by_user_upsert.
  assert (bool_decide (status a = PENDING) || bool_decide (status a = VERIFIED) = true) as ->.
  { destruct (status a); try done. }
  rewrite update_status_revoked, Hju. cbn [fst]. done.
Qed.

Lemma review_revoke callback d admin data x s aid a :
  cb_from_user callback = Some admin →
  cb_is_admin callback = true →
  cb_data callback = Some data →
  split colon data = [x; py "revoke"; s] →
  py_int s = Some aid →
  get_attribution d aid = Some a →
  review_transaction callback d
  = (save_attribution
       (set_note (Some (merge_note (note a) manual_revoke)) (set_status REVOKED a)) d,
     mkAnswer (Some (py "Attribution #" ++ str_of_Z aid ++ py " revoked.")) false,
     Some (joined_user_id a)).
Proof.
  intros Hu Hadm Hd Hs Hi Ha. unfold review_transaction.
  rewrite Hu, Hadm, Hd. cbn [negb truthy_opt or_empty default from_option id].
  assert (truthy data = true) as ->.
  { destruct data; [|done]. by vm_compute in Hs. }
  cbn [negb]. rewrite Hs, Hi, Ha.
  rewrite bool_decide_eq_false_2 by (by vm_compute).
  rewrite bool_decide_eq_true_2 by done.
  rewrite update_status_revoked. rewrite save_attribution_twice by done. done.
Qed.

Lemma review_verify callback d admin data x s aid a :
  cb_from_user callback = Some admin →
  cb_is_admin callback = true →
  cb_data callback = Some data →
  split colon data = [x; py "verify"; s] →
  py_int s = Some aid →
  get_attribution d aid = Some a →
  review_transaction callback d
  = (save_attribution
       (set_note None (set_verified_at (Some (cb_now callback)) (set_status VERIFIED a))) d,
     mkAnswer (Some (py "Attribution #" ++ str_of_Z aid ++ py " verified.")) false,
     Some (joined_user_id a)).
Proof.
  intros Hu Hadm Hd Hs Hi Ha. unfold review_transaction.
  rewrite Hu, Hadm, Hd. cbn [negb truthy_opt or_empty default from_option id].
  assert (truthy data = true) as ->.
  { destruct data; [|done]. by vm_compute in Hs. }
  cbn [negb]. rewrite Hs, Hi, Ha.
  rewrite bool_decide_eq_true_2 by done.
  unfold update_attribution_status. rewrite decide_True by done.
  cbn [default from_option id]. rewrite save_attribution_twice by done. done.
Qed.


End Revocation.

(** ** The verification timer *)

Lemma NoDup_fmap_elem_inj {A B} (f : A → B) (l : list A) x y :
  NoDup (f <$> l) → x ∈ l → y ∈ l → f x = f y → x = y.
Proof.
  induction l as [|z l IH]; [set_solver|].
  rewrite fmap_cons, NoDup_cons. intros [Hz Hnd] Hx Hy Hf.
  apply elem_of_cons in Hx as [->|Hx]; apply elem_of_cons in Hy as [->|Hy]; auto.
  - exfalso. apply Hz. rewrite Hf. by apply list_elem_of_fmap_2.
  - exfalso. apply Hz. rewrite <- Hf. by apply list_elem_of_fmap_2.
Qed.

Lemma get_attribution_by_user_row d a :
  NoDup (attributed_users d) → a ∈ attributions d →
  get_attribution_by_user d (joined_user_id a) = Some a.
Proof.
  intros Hnd Ha.
  destruct (find_is_Some (λ r, joined_user_id r = joined_user_id a)
              (attributions d) a Ha eq_refl) as [b Hb].
  unfold get_attribution_by_user. rewrite Hb. f_equal.
  apply (find_Some_elem (λ r, joined_user_id r = joined_user_id a)) in Hb as [Hin Hu].
  by apply (NoDup_fmap_elem_inj joined_user_id (attributions d)).
Qed.

Lemma verify_pending_verifies d uid now a :
  get_attribution_by_user d uid = Some a →
  status a = PENDING → truthy_opt (note a) = false →
  verify_pending d uid now
  = save_attribution (set_verified_at (Some now) (set_status VERIFIED a)) d.
Proof.
  intros Ha Hs Hn. unfold verify_pending. rewrite Ha, Hn.
  rewrite bool_decide_eq_true_2 by done. cbn [negb andb].
  unfold update_attribution_status. by rewrite decide_True.
Qed.

Lemma verify_pending_noop d uid now :
  (∀ a, get_attribution_by_user d uid = Some a →
        status a ≠ PENDING ∨ truthy_opt (note a) = true) →
  verify_pending d uid now = d.
Proof.
  intros Hp. unfold verify_pending.
  destruct (get_attribution_by_user d uid) as [a|]; [|done].
  destruct (Hp a eq_refl) as [Hs| ->].
  - by rewrite bool_decide_eq_false_2.
  - by rewrite andb_false_r.
Qed.

(** C1. The task armed by [schedule_verification] sleeps for
    [VERIFICATION_DELAY_SECONDS] (600 seconds) from its first step and
    does nothing before. When it fires it reads the attribution of the
    user again, which in a table that keeps its constraints is the one
    row of this user: a row that is pending and carries no note becomes
    verified, with [verified_at] the time of the firing, and nothing else
    changes; in every other case (no row of the user, a row revoked or
    verified, or one that carries a note) the database is left as it is.
    In all cases the entry of the user is removed from
    [_verification_tasks] and the task is done. *)
Theorem verify_after_delay_spec h now d s t :
  tasks s !! h = Some t →
  cancel_requested t = false →
  let uid := task_user t in
  let r := run_task h now d s in
  VERIFICATION_DELAY_SECONDS = 600
  ∧ (task_state t = Created →
     r = (d, mkScheduler
               (<[h := mkTask uid (Sleeping (now + seconds 600)) false]> (tasks s))
               (_verification_tasks s)))
  ∧ (∀ wake, task_state t = Sleeping wake → now < wake → r = (d, s))
  ∧ (∀ wake, task_state t = Sleeping wake → wake ≤ now →
       (∀ a, get_attribution_by_user d uid = Some a →
             status a = PENDING → truthy_opt (note a) = false →
             let a' := mkAttribution (attr_id a) (joined_user_id a) (affiliate_id a)
                         (joined_at a) (Some now) VERIFIED (note a)
                         (last_seen_ip a) (source_subnet a) in
             get_attribution_by_user r.1 uid = Some a'
             ∧ attributions r.1
               = (λ x, if decide (attr_id x = attr_id a) then a' else x) <$> attributions d
             ∧ users r.1 = users d ∧ affiliates r.1 = affiliates d
             ∧ events r.1 = events d)
       ∧ ((∀ a, get_attribution_by_user d uid = Some a →
                status a ≠ PENDING ∨ truthy_opt (note a) = true) →
          r.1 = d)
       ∧ _verification_tasks r.2 = delete uid (_verification_tasks s)
       ∧ _verification_tasks r.2 !! uid = None
       ∧ tasks r.2 !! h = Some (mkTask uid Done false)
       ∧ ((∀ a, a ∈ attributions d → joined_user_id a ≠ uid) → r.1 = d)
       ∧ (NoDup (attr_id <$> attributions d) → NoDup (attributed_users d) →
          ∀ a, a ∈ attributions d → joined_user_id a = uid →
            let a' := mkAttribution (attr_id a) (joined_user_id a) (affiliate_id a)
                        (joined_at a) (Some now) VERIFIED (note a)
                        (last_seen_ip a) (source_subnet a) in
            get_attribution_by_user d uid = Some a
            ∧ (status a = PENDING → truthy_opt (note a) = false →
               a' ∈ attributions r.1
               ∧ ¬ (a ∈ attributions r.1)
               ∧ get_attribution_by_user r.1 uid = Some a'
               ∧ length (attributions r.1) = length (attributions d)
               ∧ (∀ b, b ≠ a → b ≠ a' →
                       (b ∈ attributions r.1 ↔ b ∈ attributions d)))
            ∧ (status a ≠ PENDING ∨ truthy_opt (note a) = true → r.1 = d))).
Proof.
  intros Ht Hc. cbv zeta. unfold run_task. rewrite Ht, Hc.
  split; [done|]. split; [by intros ->|]. split.
  - intros wake -> Hlt. destruct (Z.leb_spec wake now); [lia|done].
  - intros wake -> Hle. destruct (Z.leb_spec wake now); [|lia].
    cbn [fst snd _verification_tasks tasks].
    assert (∀ a, get_attribution_by_user d (task_user t) = Some a →
                 status a = PENDING → truthy_opt (note a) = false →
                 get_attribution_by_user (verify_pending d (task_user t) now)
                   (task_user t)
                 = Some (set_verified_at (Some now) (set_status VERIFIED a))
                 ∧ attributions (verify_pending d (task_user t) now)
                   = (λ x, if decide (attr_id x = attr_id a)
                           then set_verified_at (Some now) (set_status VERIFIED a)
                           else x) <$> attributions d
                 ∧ users (verify_pending d (task_user t) now) = users d
                 ∧ affiliates (verify_pending d (task_user t) now) = affiliates d
                 ∧ events (verify_pending d (task_user t) now) = events d) as Hfire.
    { intros a Ha Hs Hn. rewrite (verify_pending_verifies _ _ _ _ Ha Hs Hn).
      split; [|done].
      apply get_attribution_by_user_save_at with a; [done|done|].
      by apply get_attribution_by_user_id in Ha. }
    split; [exact Hfire|]. split; [apply verify_pending_noop|].
    split; [done|]. split; [apply lookup_delete_eq|].
    split; [apply list_lookup_insert_eq; by eapply lookup_lt_Some|].
    split.
    + intros Hnone. apply verify_pending_noop. intros a Ha.
      apply find_Some_elem in Ha as [Hin Hu]. by destruct (Hnone a Hin).
    + intros Hids Hus a Hin Hu.
      assert (get_attribution_by_user d (task_user t) = Some a) as Hg
        by (rewrite <- Hu; by apply get_attribution_by_user_row).
      split; [exact Hg|]. split.
      * intros Hs Hn. destruct (Hfire a Hg Hs Hn) as (Hg' & Hattr & _).
        change (mkAttribution (attr_id a) (joined_user_id a) (affiliate_id a)
                  (joined_at a) (Some now) VERIFIED (note a) (last_seen_ip a)
                  (source_subnet a))
          with (set_verified_at (Some now) (set_status VERIFIED a)).
        set (a' := set_verified_at (Some now) (set_status VERIFIED a)) in *.
        assert (a ≠ a') as Hne.
        { intros E. assert (status a = status a') as Es by by rewrite <- E.
          rewrite Hs in Es. done. }
        assert (∀ x, x ∈ attributions d → attr_id x = attr_id a → x = a) as Huniq.
        { intros x Hx E.
          by apply (NoDup_fmap_elem_inj attr_id (attributions d)). }
        split; [|split; [|split; [done|split]]].
        -- rewrite Hattr. apply list_elem_of_fmap. exists a.
           by rewrite decide_True.
        -- rewrite Hattr. intros Hin'.
           apply list_elem_of_fmap in Hin' as (x & E & Hx).
           destruct (decide (attr_id x = attr_id a)) as [Ex|Ex]; [done|].
           by subst x.
        -- by rewrite Hattr, length_fmap.
        -- intros b Hba Hba'. rewrite Hattr, list_elem_of_fmap. split.
           ++ intros (x & E & Hx).
              destruct (decide (attr_id x = attr_id a)) as [Ex|Ex]; [done|].
              by subst x.
           ++ intros Hb. exists b. split; [|done].
              rewrite decide_False; [done|]. intros E. apply Hba. by apply Huniq.
      * intros Hset. apply verify_pending_noop. intros b Hb.
        rewrite Hg in Hb. by injection Hb as <-.
Qed.

(** ** The leaderboard *)

Lemma StronglySorted_take {A} (R : relation A) n (l : list A) :
  StronglySorted R l → StronglySorted R (take n l).
Proof.
  intros Hs. revert n. induction Hs as [|x l Hs IH Hall]; intros [|n]; simpl;
    try constructor; [apply IH|].
  rewrite Forall_forall in Hall. apply Forall_forall. intros y Hy. apply Hall.
  by apply (subseteq_take n l).
Qed.

Lemma StronglySorted_slice_to {A} (R : relation A) n (l : list A) :
  StronglySorted R l → StronglySorted R (slice_to n l).
Proof. unfold slice_to. destruct (0 <=? n); apply StronglySorted_take. Qed.

Lemma StronglySorted_omap {A B} (R : relation A) (R' : relation B)
    (f : A → option B) (l : list A) :
  (∀ x y x' y', f x = Some x' → f y = Some y' → R x y → R' x' y') →
  StronglySorted R l → StronglySorted R' (omap f l).
Proof.
  intros Hf. induction 1 as [|x l Hs IH Hall]; [constructor|].
  cbn. destruct (f x) as [x'|] eqn:Ex; [|done]. constructor; [done|].
  rewrite Forall_forall in Hall. apply Forall_forall. intros y' Hy.
  apply list_elem_of_omap in Hy as (y & Hy & Ey). eauto.
Qed.

Lemma Sorted_mono {A} (R R' : relation A) (l : list A) :
  (∀ x y, R x y → R' x y) → Sorted R l → Sorted R' l.
Proof.
  intros HR. induction 1 as [|x l Hs IH Hd]; constructor; [done|].
  destruct Hd; constructor; auto.
Qed.

Lemma sorted_desc_StronglySorted {A} (key : A → Z) (l : list A) :
  StronglySorted (λ x y, key y ≤ key x) (sorted (λ x y, key y <=? key x) l).
Proof.
  apply Sorted_StronglySorted; [intros x y z ??; lia|].
  eapply Sorted_mono; [|apply (sorted_Sorted (λ x y, key y <=? key x))].
  - intros x y. apply Z.leb_le.
  - intros x y. rewrite !Z.leb_le. lia.
Qed.

Lemma sorted_affiliates_from_counts_eq d counts limit :
  _sorted_affiliates_from_counts d counts limit
  = omap (λ id, aff ← get_affiliate d id; Some (aff, count_of counts id))
      (top_ids counts limit).
Proof.
  unfold _sorted_affiliates_from_counts.
  destruct counts as [|c counts].
  - unfold top_ids, slice_to. simpl. destruct (0 <=? limit); by rewrite ?take_nil.
  - by destruct (top_ids (c :: counts) limit).
Qed.

Lemma get_affiliate_id d id aff : get_affiliate d id = Some aff → aff_id aff = id.
Proof. intros Hg. by apply find_Some_elem in Hg as [_ ?]. Qed.

Lemma recompute_window_counts d window_key now lb :
  _cache (recompute_window d window_key now lb) !! window_key
  = Some ((λ id, (id, verified_total d (_window_cutoff window_key now) id))
            <$> remove_dups
                  (affiliate_id
                     <$> filter (λ a, verified_since (_window_cutoff window_key now) a = true)
                           (attributions d))).
Proof. apply lookup_insert_eq. Qed.

(** C5 as stated fails on a cache that is primed with an empty mapping
    (a [recompute_cache] that found no verified attribution): it answers
    with the empty list, and not from the ledger, which has a verified
    attribution by now. *)
Lemma empty_cache_no_fallback :
  ¬ (∀ d lb limit now,
       _cache lb !! py "all" = Some [] →
       @top_affiliates sample_engine d lb limit (py "all") true now
       = @_live_query_top_affiliates sample_engine d (py "all") limit now).
Proof.
  intros Hc.
  specialize (Hc (db sample_world)
                (recompute_cache empty_database 0 (mkLeaderboard ∅ ∅)) 10 (seconds 30)).
  assert (@top_affiliates sample_engine (db sample_world)
            (recompute_cache empty_database 0 (mkLeaderboard ∅ ∅)) 10 (py "all") true
            (seconds 30) = []) as E1 by (vm_compute; reflexivity).
  assert (@_live_query_top_affiliates sample_engine (db sample_world) (py "all") 10
            (seconds 30)
          = [(mkAffiliate 1 100 (py "https://t.me/+abc") (py "+abc") true, 1)]) as E2
    by (vm_compute; reflexivity).
  rewrite E1, E2 in Hc. discriminate Hc. by vm_compute.
Qed.

Lemma sql_limit_sorted {A} (R : relation A) limit (l : list A) :
  StronglySorted R l → StronglySorted R (sql_limit limit l).
Proof.
  intros Hs. unfold sql_limit. destruct (limit <? 0); [done|].
  by apply StronglySorted_take.
Qed.

Lemma sql_limit_nonneg {A} limit (l : list A) :
  0 ≤ limit → sql_limit limit l = take (Z.to_nat limit) l.
Proof. intros Hl. unfold sql_limit. by destruct (Z.ltb_spec limit 0); [lia|]. Qed.

Section LiveQuery.
Context `{SqlEngine}.

(** The live query: the groups with at least one selected attribution,
    in an order that is sorted by total, largest first, and cut by the
    limit. *)
Lemma live_query_ranking d window_key limit now :
  let cutoff := _window_cutoff window_key now in
  let groups :=
    filter (λ p : Affiliate * Z, 0 < p.2)
      ((λ aff, (aff, verified_total d cutoff (aff_id aff))) <$> affiliates d) in
  ∃ ranking,
    _live_query_top_affiliates d window_key limit now = sql_limit limit ranking
    ∧ ranking ≡ₚ groups
    ∧ StronglySorted (λ p q : Affiliate * Z, q.2 ≤ p.2) ranking.
Proof.
  cbv zeta. eexists. split; [reflexivity|]. split.
  - by rewrite !sorted_perm.
  - apply (sorted_desc_StronglySorted snd).
Qed.

(** C5 (amended). With the cache in use and an entry for the window,
    [top_affiliates] sorts the cached affiliate ids by count, largest
    first, keeps the first [limit] of them, resolves the affiliates of
    these ids and returns them with their counts in that order (an id
    without affiliate is dropped; an entry that is an empty mapping gives
    the empty list). With the cache bypassed, or without entry for the
    window, it answers from the ledger: the affiliates with at least one
    verified attribution joined at or after the cutoff of the window,
    each with the number of these attributions, largest first, the order
    among equal numbers being the engine's; a limit that is not negative
    keeps the first [limit] of them, so that no affiliate left out has a
    larger number than one that is returned, and a negative limit keeps
    them all. The entries [recompute_cache] writes are counted with the
    same cutoff. *)
Theorem top_affiliates_spec d lb limit window use_cache now :
  let window_key :=
    if bool_decide (window ∈ fst <$> LEADERBOARD_WINDOWS) then window else py "all" in
  let result := top_affiliates d lb limit window use_cache now in
  (∀ counts, use_cache = true → _cache lb !! window_key = Some counts →
     let ids := top_ids counts limit in
     result = omap (λ id, aff ← get_affiliate d id; Some (aff, count_of counts id)) ids
     ∧ (0 ≤ limit →
        ids = take (Z.to_nat limit)
                (sorted (λ x y, count_of counts y <=? count_of counts x) (fst <$> counts)))
     ∧ StronglySorted (λ x y, count_of counts y ≤ count_of counts x) ids
     ∧ StronglySorted (λ p q : Affiliate * Z, q.2 ≤ p.2) result
     ∧ (∀ aff n, (aff, n) ∈ result ↔
          aff_id aff ∈ ids ∧ get_affiliate d (aff_id aff) = Some aff
          ∧ n = count_of counts (aff_id aff))
     ∧ (counts = [] → result = []))
  ∧ (use_cache = false ∨ _cache lb !! window_key = None →
     let cutoff := _window_cutoff window_key now in
     let total aff :=
       Z.of_nat (length (filter
                   (λ a, affiliate_id a = aff_id aff ∧ status a = VERIFIED
                         ∧ in_window cutoff a)
                   (attributions d))) in
     ∃ ranking,
       result = (if limit <? 0 then ranking else take (Z.to_nat limit) ranking)
       ∧ ranking ≡ₚ filter (λ p : Affiliate * Z, 0 < p.2)
                      ((λ aff, (aff, total aff)) <$> affiliates d)
       ∧ (∀ aff n, (aff, n) ∈ ranking ↔ aff ∈ affiliates d ∧ n = total aff ∧ 0 < n)
       ∧ StronglySorted (λ p q : Affiliate * Z, q.2 ≤ p.2) ranking
       ∧ StronglySorted (λ p q : Affiliate * Z, q.2 ≤ p.2) result
       ∧ (0 ≤ limit → (length result ≤ Z.to_nat limit)%nat)
       ∧ (∀ p q, p ∈ result → q ∈ ranking → q.2 > p.2 → q ∈ result)
       ∧ (limit < 0 ∨ (length ranking ≤ Z.to_nat limit)%nat → result = ranking))
  ∧ (_cache (recompute_window d window_key now lb) !! window_key
             = Some ((λ id, (id, verified_total d (_window_cutoff window_key now) id))
                 <$> remove_dups
                       (affiliate_id
                          <$> filter (λ a, verified_since (_window_cutoff window_key now) a = true)
                                (attributions d)))).
Proof.
  cbv zeta. unfold top_affiliates.
  set (wk := if bool_decide (window ∈ fst <$> LEADERBOARD_WINDOWS) then window else py "all").
  split; [|split].
  - intros counts -> Hc. rewrite Hc, sorted_affiliates_from_counts_eq.
    assert (StronglySorted (λ x y, count_of counts y ≤ count_of counts x)
              (top_ids counts limit)) as Hs
      by apply StronglySorted_slice_to, (sorted_desc_StronglySorted (count_of counts)).
    split; [done|]. split.
    { intros Hl. unfold top_ids, slice_to. by destruct (Z.leb_spec 0 limit); [|lia]. }
    split; [done|]. split.
    { eapply StronglySorted_omap; [|exact Hs]. intros x y [a n] [b m] Hx Hy Hxy. simpl.
      destruct (get_affiliate d x); [|done]. destruct (get_affiliate d y); [|done].
      simpl in *. congruence. }
    split.
    { intros aff n. rewrite list_elem_of_omap. split.
      - intros (id & Hid & Hf). destruct (get_affiliate d id) as [aff'|] eqn:Eg; [|done].
        simpl in Hf. injection Hf as -> <-.
        apply get_affiliate_id in Eg as Hi. subst id. done.
      - intros (Hid & Hg & ->). exists (aff_id aff). split; [done|]. by rewrite Hg. }
    intros ->. unfold top_ids, slice_to. simpl. destruct (0 <=? limit); by rewrite ?take_nil.
  - intros Hb.
    assert ((if use_cache then _cache lb !! wk else None) = None) as ->.
    { destruct use_cache; [|done]. by destruct Hb. }
    destruct (live_query_ranking d wk limit now) as (ranking & -> & Hperm & Hsorted).
    assert (∀ aff, verified_total d (_window_cutoff wk now) (aff_id aff)
                   = Z.of_nat (length (filter
                       (λ a, affiliate_id a = aff_id aff ∧ status a = VERIFIED
                             ∧ in_window (_window_cutoff wk now) a)
                       (attributions d)))) as Htotal.
    { intros aff. unfold verified_total. do 2 f_equal.
      apply list_filter_iff. intros a. unfold verified_since.
      rewrite andb_true_iff, bool_decide_eq_true. unfold in_window.
      destruct (_window_cutoff wk now); [rewrite Z.leb_le|]; naive_solver. }
    assert ((λ aff, (aff, verified_total d (_window_cutoff wk now) (aff_id aff)))
              <$> affiliates d
            = (λ aff, (aff, Z.of_nat (length (filter
                        (λ a, affiliate_id a = aff_id aff ∧ status a = VERIFIED
                              ∧ in_window (_window_cutoff wk now) a)
                        (attributions d))))) <$> affiliates d) as Hgroups.
    { apply list_fmap_ext. intros i aff _. by rewrite Htotal. }
    rewrite Hgroups in Hperm.
    exists ranking. split; [done|]. split; [exact Hperm|]. split.
    { intros aff n. rewrite Hperm, list_elem_of_filter, list_elem_of_fmap. cbn. split.
      - intros (Hpos & aff' & [= -> ->] & Hin). done.
      - intros (Hin & -> & Hpos). split; [done|]. by exists aff. }
    split; [exact Hsorted|]. split; [by apply sql_limit_sorted|].
    split; [intros Hl; rewrite sql_limit_nonneg by done; rewrite length_take; lia|].
    split.
    { intros p q Hp Hq Hgt. unfold sql_limit in *.
      destruct (limit <? 0); [done|].
      rewrite <- (take_drop (Z.to_nat limit) ranking) in Hq, Hsorted.
      apply elem_of_app in Hq as [Hq|Hq]; [done|]. exfalso.
      pose proof (StronglySorted_app_1_elem_of _ _ _ _ _ Hsorted Hp Hq) as Hle.
      cbn in Hle. lia. }
    intros [Hneg|Hlen]; unfold sql_limit.
    + by destruct (Z.ltb_spec limit 0); [|lia].
    + destruct (limit <? 0); [done|]. by apply take_ge.
  - apply lookup_insert_eq.
Qed.

End LiveQuery.

(** ** The scheduler keeps its invariant under the uses the handlers make *)

Lemma task_cancel_user t : task_user (task_cancel t) = task_user t.
Proof. unfold task_cancel. by destruct (task_state t). Qed.

Lemma task_cancel_live t : live (task_cancel t) = false.
Proof. unfold task_cancel, live. destruct (task_state t) eqn:E; simpl; by rewrite ?E. Qed.

Lemma cancel_verification_lookup uid s h :
  tasks (cancel_verification uid s) !! h
  = if decide (_verification_tasks s !! uid = Some h)
    then task_cancel <$> tasks s !! h
    else tasks s !! h.
Proof.
  unfold cancel_verification. destruct (_verification_tasks s !! uid) as [h0|] eqn:E.
  - cbn [tasks]. destruct (decide (Some h0 = Some h)) as [[= ->]|Hne].
    + apply list_lookup_alter_eq.
    + apply list_lookup_alter_ne. congruence.
  - by rewrite decide_False.
Qed.

Lemma cancel_verification_user uid s h t :
  tasks (cancel_verification uid s) !! h = Some t →
  ∃ t0, tasks s !! h = Some t0 ∧ task_user t = task_user t0
        ∧ task_state t = task_state t0.
Proof.
  rewrite cancel_verification_lookup. case_decide; [|eauto].
  destruct (tasks s !! h) as [t0|]; [|done]. intros [= <-]. exists t0.
  rewrite task_cancel_user. split; [done|]. split; [done|].
  unfold task_cancel. destruct (task_state t0) eqn:E; simpl; by rewrite ?E.
Qed.

Lemma cancel_verification_live uid s h t :
  tasks (cancel_verification uid s) !! h = Some t → live t = true →
  tasks s !! h = Some t ∧ _verification_tasks s !! uid ≠ Some h.
Proof.
  rewrite cancel_verification_lookup. case_decide; [|done].
  destruct (tasks s !! h) as [t0|]; [|done]. intros [= <-].
  by rewrite task_cancel_live.
Qed.

Lemma cancel_verification_length uid s :
  length (tasks (cancel_verification uid s)) = length (tasks s).
Proof.
  unfold cancel_verification. destruct (_ !! uid); [|done]. apply length_alter.
Qed.

Lemma wf_sched_mono us us' s : us ⊆ us' → wf_sched us s → wf_sched us' s.
Proof. intros Hsub (H1 & H2 & H3). split; [|done]. intros h t Ht. eauto. Qed.

Lemma wf_sched_cancel us uid s :
  wf_sched us s → wf_sched us (cancel_verification uid s).
Proof.
  intros (H1 & H2 & H3). split; [|split].
  - intros h t Ht. apply cancel_verification_user in Ht as (t0 & Ht0 & Eu & _).
    rewrite Eu. eauto.
  - intros h h' t t' Ht Ht' Hu.
    apply cancel_verification_user in Ht as (t0 & Ht0 & Eu & _).
    apply cancel_verification_user in Ht' as (t0' & Ht0' & Eu' & _).
    eapply H2; [done|done|congruence].
  - intros h t Ht Hl. rewrite cancel_verification_registry.
    apply cancel_verification_live in Ht as [Ht Hne]; [|done].
    pose proof (H3 _ _ Ht Hl) as Hreg.
    rewrite lookup_delete_ne; [done|]. intros ->. done.
Qed.

(** After [cancel_verification] no timer of the user is live, in a
    scheduler that satisfies the invariant. *)
Lemma cancel_verification_disarms us uid s :
  wf_sched us s → disarmed uid (cancel_verification uid s).
Proof.
  intros (_ & _ & H3) h t Ht Hu. destruct (live t) eqn:Hl; [|done].
  apply cancel_verification_live in Ht as [Ht Hne]; [|done].
  pose proof (H3 _ _ Ht Hl) as Hreg. by rewrite Hu in Hreg.
Qed.

Lemma disarmed_cancel uid v s : disarmed uid s → disarmed uid (cancel_verification v s).
Proof.
  intros Hd h t Ht Hu. destruct (live t) eqn:Hl; [|done].
  apply cancel_verification_live in Ht as [Ht _]; [|done].
  by rewrite (Hd _ _ Ht Hu) in Hl.
Qed.

Lemma wf_sched_schedule us uid s :
  wf_sched us s → uid ∉ us →
  wf_sched (us ++ [uid]) (schedule_verification true uid s).
Proof.
  intros Hwf Hnew. pose proof (wf_sched_cancel us uid s Hwf) as (H1 & H2 & H3).
  pose proof (cancel_verification_disarms us uid s Hwf) as Hd.
  unfold schedule_verification. cbn [tasks _verification_tasks].
  set (s1 := cancel_verification uid s) in *.
  assert (∀ h t, (tasks s1 ++ [mkTask uid Created false]) !! h = Some t →
                 (tasks s1 !! h = Some t ∧ (h < length (tasks s1))%nat)
                 ∨ (h = length (tasks s1) ∧ t = mkTask uid Created false)) as Hcase.
  { intros h t Ht. apply lookup_app_Some in Ht as [Ht|[Hge Ht]].
    - left. split; [done|]. by eapply lookup_lt_Some.
    - right. apply list_lookup_singleton_Some in Ht as [Hh <-]. split; [lia|done]. }
  split; [|split].
  - intros h t Ht. apply Hcase in Ht as [[Ht _]|[_ ->]]; [|set_solver].
    apply elem_of_app. left. eauto.
  - intros h h' t t' Ht Ht' Hu.
    apply Hcase in Ht as [[Ht Hlt]|[-> ->]]; apply Hcase in Ht' as [[Ht' Hlt']|[-> ->]].
    + eauto.
    + exfalso. apply Hnew. simpl in Hu. rewrite <- Hu. eauto.
    + exfalso. apply Hnew. simpl in Hu. rewrite Hu. eauto.
    + done.
  - intros h t Ht Hl. cbn [_verification_tasks].
    apply Hcase in Ht as [[Ht Hlt]|[-> ->]].
    + destruct (decide (task_user t = uid)) as [Hu|Hne].
      * by rewrite (Hd _ _ Ht Hu) in Hl.
      * rewrite lookup_insert_ne by done. eauto.
    + apply lookup_insert_eq.
Qed.

Lemma run_task_cases h now d s :
  run_task h now d s = (d, s)
  ∨ ∃ t st c reg,
      tasks s !! h = Some t
      ∧ (run_task h now d s).2
        = mkScheduler (<[h := mkTask (task_user t) st c]> (tasks s)) reg
      ∧ (live (mkTask (task_user t) st c) = true → live t = true)
      ∧ (reg = _verification_tasks s
         ∨ (reg = delete (task_user t) (_verification_tasks s) ∧ st = Done))
      ∧ ((run_task h now d s).1 = d
         ∨ ((run_task h now d s).1 = verify_pending d (task_user t) now
            ∧ live t = true)).
Proof.
  unfold run_task. destruct (tasks s !! h) as [t|] eqn:Ht; [|by left].
  destruct (task_state t) as [|wake|] eqn:Est; [| |by left].
  - right. destruct (cancel_requested t) eqn:Ec.
    + exists t, Done, true, (_verification_tasks s).
      split; [done|]. split; [done|]. split; [done|]. split; by left.
    + exists t, (Sleeping (now + seconds VERIFICATION_DELAY_SECONDS)), false,
        (_verification_tasks s).
      split; [done|]. split; [done|].
      split; [intros _; unfold live; by rewrite Est, Ec|]. split; by left.
  - destruct (cancel_requested t) eqn:Ec.
    + right. exists t, Done, true, (delete (task_user t) (_verification_tasks s)).
      split; [done|]. split; [done|]. split; [done|]. split; [by right|by left].
    + destruct (wake <=? now); [|by left]. right.
      exists t, Done, false, (delete (task_user t) (_verification_tasks s)).
      split; [done|]. split; [done|]. split; [done|]. split; [by right|].
      right. split; [done|]. unfold live. by rewrite Est, Ec.
Qed.

Lemma wf_sched_run_task us h now d s :
  wf_sched us s → wf_sched us (run_task h now d s).2.
Proof.
  intros (H1 & H2 & H3).
  destruct (run_task_cases h now d s) as [->|(t & st & c & reg & Ht & -> & Hl & Hreg & _)];
    [done|].
  assert (∀ h' t', <[h := mkTask (task_user t) st c]> (tasks s) !! h' = Some t' →
            ∃ t0, tasks s !! h' = Some t0 ∧ task_user t' = task_user t0
                  ∧ (live t' = true → live t0 = true)
                  ∧ (h' = h → t' = mkTask (task_user t) st c)) as Hcase.
  { intros h' t' Ht'. destruct (decide (h' = h)) as [->|Hne].
    - rewrite list_lookup_insert_eq in Ht' by by eapply lookup_lt_Some.
      injection Ht' as <-. exists t. naive_solver.
    - rewrite list_lookup_insert_ne in Ht' by done. exists t'. naive_solver. }
  split; [|split]; cbn [tasks _verification_tasks].
  - intros h' t' Ht'. apply Hcase in Ht' as (t0 & Ht0 & -> & _). eauto.
  - intros h1 h2 t1 t2 Ht1 Ht2 Hu.
    apply Hcase in Ht1 as (t0 & Ht0 & Eu & _).
    apply Hcase in Ht2 as (t0' & Ht0' & Eu' & _).
    eapply H2; [done|done|congruence].
  - intros h' t' Ht' Hl'. apply Hcase in Ht' as (t0 & Ht0 & Eu & Hlive & Hh).
    rewrite Eu. pose proof (H3 _ _ Ht0 (Hlive Hl')) as Hr.
    destruct Hreg as [->|[-> ->]]; [done|].
    destruct (decide (h' = h)) as [->|Hne].
    + rewrite (Hh eq_refl) in Hl'. done.
    + rewrite lookup_delete_ne; [done|]. intros Hu. apply Hne.
      symmetry. eapply H2; [exact Ht|exact Ht0|done].
Qed.

Lemma disarmed_run_task uid h now d s :
  disarmed uid s → disarmed uid (run_task h now d s).2.
Proof.
  intros Hd.
  destruct (run_task_cases h now d s) as [->|(t & st & c & reg & Ht & -> & Hl & _)];
    [done|].
  intros h' t' Ht' Hu. cbn [tasks] in Ht'.
  destruct (decide (h' = h)) as [->|Hne].
  - rewrite list_lookup_insert_eq in Ht' by by eapply lookup_lt_Some.
    injection Ht' as <-. simpl in Hu.
    destruct (live _) eqn:E; [|done]. specialize (Hl eq_refl).
    by rewrite (Hd _ _ Ht Hu) in Hl.
  - rewrite list_lookup_insert_ne in Ht' by done. eauto.
Qed.

Lemma disarmed_schedule uid v s :
  disarmed uid s → v ≠ uid → disarmed uid (schedule_verification true v s).
Proof.
  intros Hd Hne h t Ht Hu. unfold schedule_verification in Ht. cbn [tasks] in Ht.
  apply lookup_app_Some in Ht as [Ht|[_ Ht]].
  - by apply (disarmed_cancel uid v s Hd h t).
  - apply list_lookup_singleton_Some in Ht as [_ <-]. done.
Qed.

Lemma wf_sched_cancel_flagged us target flagged s :
  wf_sched us s → wf_sched us (cancel_flagged target flagged s).
Proof.
  unfold cancel_flagged. revert s.
  induction flagged as [|x l IH]; intros s Hwf; [done|]. simpl. apply IH.
  destruct (decide (x ≠ target)); [by apply wf_sched_cancel|done].
Qed.

Lemma disarmed_cancel_flagged uid target flagged s :
  disarmed uid s → disarmed uid (cancel_flagged target flagged s).
Proof.
  unfold cancel_flagged. revert s.
  induction flagged as [|x l IH]; intros s Hd; [done|]. simpl. apply IH.
  destruct (decide (x ≠ target)); [by apply disarmed_cancel|done].
Qed.

(** ** The attribution table keeps its keys *)

Lemma keys_ids d : (keys d).*1 = attr_id <$> attributions d.
Proof. unfold keys. rewrite <- list_fmap_compose. done. Qed.

Lemma keys_users d : (keys d).*2 = attributed_users d.
Proof. unfold keys, attributed_users. rewrite <- list_fmap_compose. done. Qed.

Lemma saved_keys uid d d' : wf_db d → saved uid d d' → keys d' = keys d.
Proof.
  intros (Hnd & _) (a & a' & Ha & Hu & Hid & Hu' & Hattr & _).
  unfold keys. rewrite Hattr. unfold save_attribution. cbn [attributions with_attributions].
  rewrite <- list_fmap_compose. apply list_fmap_ext. intros i r Hr. simpl.
  destruct (decide (attr_id r = attr_id a')) as [E|E]; [|done].
  assert (r = a) as ->.
  { apply (NoDup_fmap_elem_inj attr_id (attributions d)); try done; [|congruence].
    by eapply list_elem_of_lookup_2. }
  congruence.
Qed.

Lemma wf_db_keys d d' :
  keys d' = keys d → attribution_seq d' = attribution_seq d → wf_db d → wf_db d'.
Proof.
  intros Hk Hs (H1 & H2 & H3). unfold wf_db.
  rewrite <- keys_ids, <- keys_users, Hk, keys_ids, keys_users.
  split; [done|]. split; [done|].
  rewrite Forall_forall in *. intros a Ha. rewrite Hs.
  assert (attr_id a ∈ attr_id <$> attributions d) as Hin.
  { rewrite <- keys_ids, <- Hk, keys_ids. by apply list_elem_of_fmap_2. }
  apply list_elem_of_fmap in Hin as (b & -> & Hb). auto.
Qed.

Lemma wf_db_insert d d' uid :
  keys d' = keys d ++ [(attribution_seq d, uid)] →
  attribution_seq d' = attribution_seq d + 1 →
  uid ∉ attributed_users d →
  wf_db d → wf_db d'.
Proof.
  intros Hk Hs Hu (H1 & H2 & H3). unfold wf_db.
  rewrite <- keys_ids, <- keys_users, Hk, !fmap_app, keys_ids, keys_users. simpl.
  assert (Forall (λ x, x < attribution_seq d) (attr_id <$> attributions d)) as Hlt
    by by apply Forall_fmap.
  split; [|split].
  - apply NoDup_app. split; [done|]. split; [|apply NoDup_singleton].
    intros x Hx Hx'. apply list_elem_of_singleton in Hx' as ->.
    rewrite Forall_forall in Hlt. specialize (Hlt _ Hx). lia.
  - apply NoDup_app. split; [done|]. split; [|apply NoDup_singleton].
    intros x Hx Hx'. apply list_elem_of_singleton in Hx' as ->. done.
  - rewrite Forall_forall. intros a Ha. rewrite Hs.
    assert (attr_id a ∈ (keys d').*1) as Hin
      by (rewrite keys_ids; by apply list_elem_of_fmap_2).
    rewrite Hk, fmap_app, keys_ids in Hin. simpl in Hin.
    apply elem_of_app in Hin as [Hin|Hin].
    + rewrite Forall_forall in Hlt. specialize (Hlt _ Hin). lia.
    + apply list_elem_of_singleton in Hin. lia.
Qed.

Lemma get_attribution_by_user_None d uid :
  get_attribution_by_user d uid = None ↔ uid ∉ attributed_users d.
Proof.
  unfold get_attribution_by_user, attributed_users. rewrite find_None_elem, Forall_forall.
  rewrite list_elem_of_fmap. naive_solver.
Qed.

Lemma get_attribution_by_user_elem d uid a :
  get_attribution_by_user d uid = Some a → a ∈ attributions d ∧ joined_user_id a = uid.
Proof. apply (find_Some_elem (λ a, joined_user_id a = uid)). Qed.

Lemma get_attribution_elem d aid a :
  get_attribution d aid = Some a → a ∈ attributions d ∧ attr_id a = aid.
Proof. apply (find_Some_elem (λ a, attr_id a = aid)). Qed.

Lemma get_attribution_tracked d aid uid :
  wf_db d → (aid, uid) ∈ keys d →
  ∃ b, get_attribution d aid = Some b ∧ joined_user_id b = uid.
Proof.
  intros (Hnd & _) Hin. apply list_elem_of_fmap in Hin as (b & [= -> ->] & Hb).
  destruct (find_is_Some (λ a, attr_id a = attr_id b) (attributions d) b Hb eq_refl)
    as [c Hc].
  exists c. split; [done|]. apply find_Some_elem in Hc as [Hc Hid].
  by rewrite (NoDup_fmap_elem_inj attr_id (attributions d) c b).
Qed.

Lemma get_attribution_save_ne d a' aid :
  attr_id a' ≠ aid →
  get_attribution (save_attribution a' d) aid = get_attribution d aid.
Proof.
  intros Hne. unfold get_attribution, save_attribution. cbn [attributions with_attributions].
  induction (attributions d) as [|r l IH]; [done|].
  rewrite fmap_cons. cbn [list_find].
  destruct (decide (attr_id r = attr_id a')) as [E|E].
  - rewrite !decide_False by congruence.
    destruct (list_find _ l) as [[??]|], (list_find _ (_ <$> l)) as [[??]|];
      simpl in *; congruence.
  - destruct (decide (attr_id r = aid)); [done|].
    destruct (list_find _ l) as [[??]|], (list_find _ (_ <$> l)) as [[??]|];
      simpl in *; congruence.
Qed.

(** ** What each handler does to the table and to the timers *)

Lemma untouched_refl d : untouched d d.
Proof. by split. Qed.

Lemma untouched_upsert d uid un fn ln : untouched d (fst (upsert_user d uid un fn ln)).
Proof. unfold untouched, upsert_user. by destruct (get_user d uid). Qed.

Lemma verify_pending_effect d uid now :
  untouched d (verify_pending d uid now) ∨ saved uid d (verify_pending d uid now).
Proof.
  unfold verify_pending. destruct (get_attribution_by_user d uid) as [a|] eqn:Ha;
    [|left; apply untouched_refl].
  destruct (_ && _); [|left; apply untouched_refl]. right.
  apply get_attribution_by_user_elem in Ha as [Hin Hu].
  unfold update_attribution_status. rewrite decide_True by done. cbn [fst].
  eexists a, _. split; [done|]. split; [done|]. split; [|split; [|split; [|split]]];
    [| |reflexivity|reflexivity|]; done.
Qed.

Lemma loop_step_effect h now d s :
  untouched d (run_task h now d s).1
  ∨ ∃ t, tasks s !! h = Some t ∧ live t = true ∧ saved (task_user t) d (run_task h now d s).1.
Proof.
  destruct (run_task_cases h now d s) as [->|(t & st & c & reg & Ht & _ & _ & _ & Hd)];
    [left; apply untouched_refl|].
  destruct Hd as [->|[-> Hl]]; [left; apply untouched_refl|].
  destruct (verify_pending_effect d (task_user t) now) as [Hu|Hs]; [by left|].
  right. eauto.
Qed.

Section Effects.
Context `{PyLib}.

Lemma join_decide update w link :
  join_link update link →
  join_rejected update w link ∨ ∃ affiliate, join_accepted update w link affiliate.
Proof.
  intros Hl. unfold join_rejected, join_accepted.
  destruct (get_affiliate_by_code (db w) (extract_link_code link)) as [aff|] eqn:Ea;
    [|left; auto].
  destruct (is_active aff) eqn:Eact; [|left; split; [done|]; right; left; eauto].
  destruct (decide (owner_user_id aff = join_user update)) as [Eo|Eo];
    [left; split; [done|]; right; left; eauto|].
  destruct (get_attribution_by_user (db w) (join_user update)) as [a|] eqn:Eg;
    [left; split; [done|]; right; right; eauto|].
  right. exists aff. done.
Qed.

Lemma handle_join_effect update w :
  let w' := _handle_join update w in
  (untouched (db w) (db w') ∧ scheduler w' = scheduler w)
  ∨ ∃ flagged s1,
      keys (db w') = keys (db w) ++ [(attribution_seq (db w), join_user update)]
      ∧ attribution_seq (db w') = attribution_seq (db w) + 1
      ∧ (join_user update ∉ attributed_users (db w))
      ∧ scheduler w' = cancel_flagged (join_user update) flagged s1
      ∧ (s1 = schedule_verification true (join_user update) (scheduler w)
         ∨ s1 = cancel_verification (join_user update) (scheduler w)).
Proof.
  cbv zeta.
  destruct (upd_invite_link update) as [link|] eqn:El;
    [|left; unfold _handle_join; rewrite El; split; [apply untouched_refl|done]].
  destruct (truthy link) eqn:Et;
    [|left; unfold _handle_join; rewrite El, Et; split; [apply untouched_refl|done]].
  destruct (join_decide update w link) as [Hr|[aff Ha]]; [done| |].
  - left. rewrite (handle_join_rejected _ _ _ Hr). cbn [db scheduler].
    split; [apply untouched_upsert|done].
  - right. destruct (handle_join_accepted _ _ _ _ Ha) as (Hattr & Hsched & _ & _ & Hseq).
    destruct Ha as (_ & _ & _ & _ & Hnone).
    eexists _, _. split; [|split; [exact Hseq|split; [|split; [exact Hsched|]]]].
    + unfold keys. rewrite Hattr.
      destruct (burst_reported update w).
      * rewrite <- list_fmap_compose, fmap_app. f_equal.
        -- apply list_fmap_ext. intros i a _. simpl. by destruct (in_burst _ _ _).
        -- simpl. by destruct (in_burst _ _ _).
      * by rewrite fmap_app.
    + by apply get_attribution_by_user_None.
    + destruct (join_reasons update w); auto.
Qed.

Lemma handle_leave_effect update w :
  let w' := _handle_leave update w in
  let uid := tg_id (upd_old_user update) in
  (untouched (db w) (db w') ∧ scheduler w' = scheduler w)
  ∨ (saved uid (db w) (db w') ∧ scheduler w' = cancel_verification uid (scheduler w)).
Proof.
  cbv zeta.
  destruct (get_attribution_by_user (db w) (tg_id (upd_old_user update))) as [a|] eqn:Ha.
  - destruct (decide (status a = REVOKED)) as [Hs|Hs].
    + left. unfold _handle_leave.
      destruct (upsert_user _ _ _ _ _) as [db1 ju] eqn:EU.
      assert (db1 = fst (upsert_user (db w) (tg_id (upd_old_user update))
                       (tg_username (upd_old_user update))
                       (tg_first_name (upd_old_user update))
                       (tg_last_name (upd_old_user update)))) as Hdb1 by by rewrite EU.
      assert (get_attribution_by_user db1 (tg_id (upd_old_user update)) = Some a) as ->
        by by rewrite Hdb1, get_attribution_by_user_upsert.
      rewrite Hs. cbn. split; [|done]. rewrite Hdb1. apply untouched_upsert.
    + right. rewrite (handle_leave_revokes _ _ _ Ha Hs). cbn [db scheduler].
      split; [|done]. apply get_attribution_by_user_elem in Ha as [Hin Hu].
      exists a, (set_status REVOKED a). split; [done|]. split; [done|].
      split; [done|]. split; [done|].
      unfold log_event, save_attribution. cbn.
      destruct (untouched_upsert (db w) (tg_id (upd_old_user update))
                  (tg_username (upd_old_user update))
                  (tg_first_name (upd_old_user update))
                  (tg_last_name (upd_old_user update))) as [-> ->]. done.
  - left. unfold _handle_leave.
    destruct (upsert_user _ _ _ _ _) as [db1 ju] eqn:EU.
    assert (db1 = fst (upsert_user (db w) (tg_id (upd_old_user update))
                       (tg_username (upd_old_user update))
                       (tg_first_name (upd_old_user update))
                       (tg_last_name (upd_old_user update)))) as Hdb1 by by rewrite EU.
    assert (get_attribution_by_user db1 (tg_id (upd_old_user update)) = None) as ->
      by by rewrite Hdb1, get_attribution_by_user_upsert.
    cbn. split; [|done]. rewrite Hdb1. apply untouched_upsert.
Qed.

Lemma review_transaction_effect callback d :
  let r := review_transaction callback d in
  (r.1.1 = d ∧ r.2 = None)
  ∨ ∃ uid, saved uid d r.1.1 ∧ r.2 = Some uid.
Proof.
  cbv zeta. unfold review_transaction.
  destruct (cb_from_user callback); [|by left].
  destruct (cb_is_admin callback); [|by left]. cbn [negb].
  destruct (truthy_opt (cb_data callback)); [|by left]. cbn [negb].
  destruct (split colon _) as [|x [|action [|s [|??]]]]; try by left.
  destruct (py_int s) as [aid|]; [|by left].
  destruct (get_attribution d aid) as [a|] eqn:Ha; [|by left].
  apply get_attribution_elem in Ha as [Hin Hid].
  case_bool_decide; [|case_bool_decide; [|by left]].
  - right. exists (joined_user_id a). unfold update_attribution_status.
    rewrite decide_True by done. cbn [fst snd].
    rewrite save_attribution_twice by done. split; [|done].
    eexists a, _. split; [done|]. split; [done|].
    split; [|split; [|split; [|split]]]; [| |reflexivity|reflexivity|]; done.
  - right. exists (joined_user_id a). rewrite update_status_revoked. cbn [fst snd].
    rewrite save_attribution_twice by done. split; [|done].
    eexists a, _. split; [done|]. split; [done|].
    split; [|split; [|split; [|split]]]; [| |reflexivity|reflexivity|]; done.
Qed.

End Effects.

(** ** The invariants along a run *)

Section Invariants.
Context `{PyLib}.

Lemma untouched_keys d d' : untouched d d' → keys d' = keys d.
Proof. intros [Ha _]. unfold keys. by rewrite Ha. Qed.

Lemma attributed_users_keys d d' extra :
  keys d' = keys d ++ extra → attributed_users d' = attributed_users d ++ extra.*2.
Proof. intros Hk. by rewrite <- !keys_users, Hk, fmap_app. Qed.

Lemma react_step tc i w :
  wf_db (db w) →
  let w' := react tc i w in
  ∃ extra,
    keys (db w') = keys (db w) ++ extra
    ∧ wf_db (db w')
    ∧ (wf_sched (attributed_users (db w)) (scheduler w) →
       wf_sched (attributed_users (db w')) (scheduler w'))
    ∧ (∀ u, u ∈ attributed_users (db w) → disarmed u (scheduler w) →
            disarmed u (scheduler w')).
Proof.
  intros Hdb. cbv zeta.
  assert (∀ w' : World,
            keys (db w') = keys (db w) →
            attribution_seq (db w') = attribution_seq (db w) →
            (wf_sched (attributed_users (db w)) (scheduler w) →
             wf_sched (attributed_users (db w)) (scheduler w')) →
            (∀ u, disarmed u (scheduler w) → disarmed u (scheduler w')) →
            ∃ extra,
              keys (db w') = keys (db w) ++ extra
              ∧ wf_db (db w')
              ∧ (wf_sched (attributed_users (db w)) (scheduler w) →
                 wf_sched (attributed_users (db w')) (scheduler w'))
              ∧ (∀ u, u ∈ attributed_users (db w) → disarmed u (scheduler w) →
                      disarmed u (scheduler w'))) as Hsame.
  { intros w' Hk Hs Hw Hd. exists []. rewrite app_nil_r.
    split; [done|]. split; [by apply (wf_db_keys (db w))|].
    split; [|auto]. intros Hw0. rewrite <- keys_users, Hk, keys_users. by apply Hw. }
  assert (∀ w' : World, w' = w →
            ∃ extra,
              keys (db w') = keys (db w) ++ extra
              ∧ wf_db (db w')
              ∧ (wf_sched (attributed_users (db w)) (scheduler w) →
                 wf_sched (attributed_users (db w')) (scheduler w'))
              ∧ (∀ u, u ∈ attributed_users (db w) → disarmed u (scheduler w) →
                      disarmed u (scheduler w'))) as Hid.
  { intros w' ->. by apply Hsame. }
  destruct i as [update|callback|h now|us affs]; cbn [react].
  - unfold handle_chat_member.
    destruct (bool_decide _); [by apply Hid|].
    destruct (_ && _).
    { destruct (handle_join_effect update w)
        as [[Hu Hs]|(flagged & s1 & Hk & Hseq & Hnew & Hs & Hs1)].
      - apply Hsame; [by apply untouched_keys|by destruct Hu| |]; by rewrite Hs.
      - eexists. split; [exact Hk|]. split; [by eapply wf_db_insert|].
        rewrite (attributed_users_keys _ _ _ Hk), Hs. cbn [fmap list_fmap snd]. split.
        + intros Hw. apply wf_sched_cancel_flagged.
          destruct Hs1 as [-> | ->]; [by apply wf_sched_schedule|].
          eapply wf_sched_mono; [|by apply wf_sched_cancel]. set_solver.
        + intros u Hu Hd. apply disarmed_cancel_flagged.
          destruct Hs1 as [-> | ->]; [|by apply disarmed_cancel].
          apply disarmed_schedule; [done|]. by intros <-. }
    destruct (_ && _); [|by apply Hid].
    destruct (handle_leave_effect update w) as [[Hu Hs]|[Hsv Hs]].
    + apply Hsame; [by apply untouched_keys|by destruct Hu| |]; by rewrite Hs.
    + apply Hsame; [by eapply saved_keys|by destruct Hsv as (?&?&?&?&?&?&?&?&?)| |];
        rewrite Hs; intros; [by apply wf_sched_cancel|by apply disarmed_cancel].
  - unfold handle_review_callback.
    destruct (review_transaction_effect callback (db w)) as [[Hd Hu]|(u & Hsv & Hu)];
      destruct (review_transaction callback (db w)) as [[d answer] user];
      cbn [fst snd] in *; subst.
    + apply Hid. by destruct w.
    + destruct (cb_answered callback).
      * apply (Hsame (mkWorld d (_subnet_events w) (cancel_verification u (scheduler w))));
          cbn [db scheduler];
          [by eapply saved_keys|by destruct Hsv as (?&?&?&?&?&?&?&?&?)| |];
          intros; [by apply wf_sched_cancel|by apply disarmed_cancel].
      * apply (Hsame (mkWorld d (_subnet_events w) (scheduler w)));
          cbn [db scheduler];
          [by eapply saved_keys|by destruct Hsv as (?&?&?&?&?&?&?&?&?)| |]; done.
  - destruct (run_task h now (db w) (scheduler w)) as [d s] eqn:Er.
    assert (d = (run_task h now (db w) (scheduler w)).1) as Hd by by rewrite Er.
    assert (s = (run_task h now (db w) (scheduler w)).2) as Hs by by rewrite Er.
    apply (Hsame (mkWorld d (_subnet_events w) s)); cbn [db scheduler].
    + rewrite Hd. destruct (loop_step_effect h now (db w) (scheduler w))
        as [Hu|(t & _ & _ & Hsv)]; [by apply untouched_keys|by eapply saved_keys].
    + rewrite Hd. destruct (loop_step_effect h now (db w) (scheduler w))
        as [Hu|(t & _ & _ & Hsv)]; [by destruct Hu|by destruct Hsv as (?&?&?&?&?&?&?&?&?)].
    + rewrite Hs. apply wf_sched_run_task.
    + rewrite Hs. intros u. apply disarmed_run_task.
  - by apply (Hsame (mkWorld _ _ _)).
Qed.

Lemma react_wf tc i w : wf_world w → wf_world (react tc i w).
Proof.
  intros [Hdb Hs]. destruct (react_step tc i w Hdb) as (extra & _ & Hdb' & Hs' & _).
  split; auto.
Qed.

Lemma run_wf tc inputs w : wf_world w → wf_world (run tc inputs w).
Proof.
  revert w. induction inputs as [|i l IH]; intros w Hw; [done|].
  apply IH. by apply react_wf.
Qed.

Lemma wf_initial : wf_world initial_world.
Proof.
  split; [split; [|split]; constructor|].
  split; [|split]; intros ???; done.
Qed.

Lemma reachable_wf tc w : reachable tc w → wf_world w.
Proof. intros [inputs ->]. apply run_wf, wf_initial. Qed.

Lemma react_settled tc i aid uid w :
  review_settled aid uid w → review_settled aid uid (react tc i w).
Proof.
  intros ([Hdb Hs] & Hd & Hk).
  destruct (react_step tc i w Hdb) as (extra & Hk' & Hdb' & Hs' & Hd').
  split; [split; auto|]. split.
  - apply Hd'; [|done]. rewrite <- keys_users.
    by apply (list_elem_of_fmap_2 snd) in Hk.
  - rewrite Hk'. apply elem_of_app. by left.
Qed.

Lemma run_settled tc inputs aid uid w :
  review_settled aid uid w → review_settled aid uid (run tc inputs w).
Proof.
  revert w. induction inputs as [|i l IH]; intros w Hw; [done|].
  apply IH. by apply react_settled.
Qed.

(** A step of the loop leaves the record of a settled review alone. *)
Lemma settled_loop_step tc aid uid h now w :
  review_settled aid uid w →
  get_attribution (db (react tc (LoopStep h now) w)) aid = get_attribution (db w) aid.
Proof.
  intros ([Hdb Hs] & Hd & Hk). cbn [react].
  destruct (run_task h now (db w) (scheduler w)) as [d s] eqn:Er. cbn [db].
  assert (d = (run_task h now (db w) (scheduler w)).1) as -> by by rewrite Er.
  destruct (loop_step_effect h now (db w) (scheduler w))
    as [[Hu _]|(t & Ht & Hl & a & a' & Ha & Hu & Hid & Hu' & Hattr & _)].
  - unfold get_attribution. by rewrite Hu.
  - transitivity (get_attribution (save_attribution a' (db w)) aid).
    { unfold get_attribution. by rewrite Hattr. }
    apply get_attribution_save_ne. intros Heq.
    assert ((aid, task_user t) ∈ keys (db w)) as Hk2.
    { apply list_elem_of_fmap. exists a. split; [|done]. f_equal; congruence. }
    assert (task_user t = uid) as Huid.
    { destruct Hdb as (Hnd & _). rewrite <- keys_ids in Hnd.
      apply (f_equal snd (NoDup_fmap_elem_inj fst (keys (db w)) _ _ Hnd Hk2 Hk eq_refl)). }
    by rewrite (Hd _ _ Ht Huid) in Hl.
Qed.

End Invariants.

(** ** The burst detector and the timers *)

Lemma cancel_flagged_disarms us target flagged s v :
  wf_sched us s → v ∈ flagged → v ≠ target →
  disarmed v (cancel_flagged target flagged s).
Proof.
  unfold cancel_flagged. revert s.
  induction flagged as [|x l IH]; intros s Hwf Hv Hne; [by apply elem_of_nil in Hv|].
  cbn [foldl]. apply elem_of_cons in Hv as [->|Hv].
  - rewrite decide_True by done.
    apply (disarmed_cancel_flagged x target l), (cancel_verification_disarms us), Hwf.
  - apply IH; [|done|done].
    destruct (decide (x ≠ target)); [by apply wf_sched_cancel|done].
Qed.

Section Burst.
Context `{PyLib}.

(** C2 (amended). The burst detector keeps, per subnet, the queue of the
    join times: on a join it drops the entries at the front that are
    older than [BURST_WINDOW] (five minutes), which on a time-ordered
    queue are all the entries older than the window, appends the join and
    reports a burst exactly when the queue is then longer than
    [BURST_THRESHOLD] (three), that is from the fourth join in the window
    on. When a burst is reported on a join that the guards of
    [_handle_join] let through, every attribution of that subnet joined
    within the window, the new one included, is reset to pending with the
    tag [ip_burst] in a note that is not empty, and its timer is
    disarmed: the user is removed from the registry of the timers and,
    in a world that keeps the invariant of the scheduler, as every world
    reached through the handlers does, no timer of the user can fire any
    more. *)
Theorem burst_detector_spec (subnet : list N) (now : Z)
    (ev : gmap (list N) (list Z)) update w link affiliate sn :
  let bucket := default [] (ev !! subnet) in
  let kept := popleft_old now bucket in
  let r := _record_subnet_event subnet now ev in
  BURST_WINDOW = seconds 300 ∧ BURST_THRESHOLD = 3%nat
  ∧ r.2 !! subnet = Some (kept ++ [now])
  ∧ (∀ other, other ≠ subnet → r.2 !! other = ev !! other)
  ∧ (r.1 = true ↔ (BURST_THRESHOLD < length (kept ++ [now]))%nat)
  ∧ (r.1 = true ↔ (3 ≤ length kept)%nat)
  ∧ (Sorted Z.le bucket → kept = filter (λ t, now - t ≤ BURST_WINDOW) bucket)
  ∧ (Sorted Z.le bucket → Forall (λ t, t ≤ now) bucket → Sorted Z.le (kept ++ [now]))
  ∧ (join_accepted update w link affiliate →
     join_subnet update = Some sn →
     burst_reported update w = true →
     let since := upd_now update - BURST_WINDOW in
     let new := new_attribution update w affiliate (join_reasons update w) in
     attributions (db (_handle_join update w))
     = (λ a, if in_burst sn since a then flag a else a) <$> (attributions (db w) ++ [new])
     ∧ ∀ a, a ∈ attributions (db w) ++ [new] →
            source_subnet a = Some sn → since ≤ joined_at a →
            flag a ∈ attributions (db (_handle_join update w))
            ∧ status (flag a) = PENDING
            ∧ verified_at (flag a) = None
            ∧ ip_burst ∈ note_reasons (note (flag a))
            ∧ truthy_opt (note (flag a)) = true
            ∧ _verification_tasks (scheduler (_handle_join update w))
                !! joined_user_id a = None
            ∧ (wf_world w →
               disarmed (joined_user_id a) (scheduler (_handle_join update w))
               ∧ wf_world (_handle_join update w)
               ∧ ∀ tc inputs,
                   disarmed (joined_user_id a)
                     (scheduler (run tc inputs (_handle_join update w))))).
Proof.
  cbv zeta. split; [done|]. split; [done|].
  split; [apply lookup_insert_eq|].
  split; [intros other Hne; by apply lookup_insert_ne|].
  split; [apply bool_decide_eq_true|].
  split; [apply record_subnet_event_burst|].
  split; [apply popleft_old_sorted|].
  split; [apply record_subnet_event_sorted|].
  intros Hacc Hsn Hb. split.
  - destruct (handle_join_accepted _ _ _ _ Hacc) as (Hattr & _).
    by rewrite Hb, Hsn in Hattr.
  - intros a Ha Hs Hj.
    destruct (join_reopens update w link affiliate sn a) as [H1 H2]; try done.
    split; [done|]. split; [done|]. split; [done|].
    split; [apply ip_burst_in_flag|].
    split; [cbn; apply merge_note_truthy; by vm_compute|].
    split; [done|]. intros [Hwdb Hws].
    assert (disarmed (joined_user_id a) (scheduler (_handle_join update w))) as Hdis.
    { destruct (handle_join_accepted _ _ _ _ Hacc) as (_ & Hsched & _).
      rewrite Hb, Hsn in Hsched. change (default [] (Some sn)) with sn in Hsched.
      rewrite Hsched. unfold join_reasons. rewrite Hb. cbn [app].
      assert (in_burst sn (upd_now update - BURST_WINDOW) a = true) as Hin
        by by apply in_burst_spec.
      destruct (decide (joined_user_id a = join_user update)) as [Heq|Hne].
      - rewrite Heq. apply disarmed_cancel_flagged.
        by eapply cancel_verification_disarms.
      - eapply cancel_flagged_disarms; [by apply wf_sched_cancel| |done].
        apply list_elem_of_fmap. exists a. split; [done|].
        apply list_elem_of_filter. split; [done|].
        unfold join_reasons in Ha. by rewrite Hb in Ha. }
    split; [exact Hdis|].
    assert (wf_world (_handle_join update w)) as Hwf'.
    { destruct (handle_join_effect update w)
        as [[Hu Hsame]|(flagged & s1 & Hk & Hseq & Hnew & Hsc & Hs1)].
      - split.
        + apply (wf_db_keys (db w)); [by apply untouched_keys|by destruct Hu|done].
        + rewrite <- keys_users, (untouched_keys _ _ Hu), keys_users, Hsame. done.
      - split; [by eapply wf_db_insert|].
        rewrite (attributed_users_keys _ _ _ Hk), Hsc. cbn [fmap list_fmap snd].
        apply wf_sched_cancel_flagged.
        destruct Hs1 as [-> | ->]; [by apply wf_sched_schedule|].
        eapply wf_sched_mono; [|by apply wf_sched_cancel]. set_solver. }
    split; [exact Hwf'|].
    intros tc inputs.
    assert (joined_user_id (flag a) ∈ attributed_users (db (_handle_join update w)))
      as Huser by (by apply list_elem_of_fmap_2).
    revert Hwf' Hdis Huser. generalize (_handle_join update w). clear.
    induction inputs as [|i inputs IH]; intros w0 Hwf Hdis Huser; [done|].
    cbn [run foldl]. destruct Hwf as [Hwdb Hws].
    destruct (react_step tc i w0 Hwdb) as (extra & Hk & Hdb' & Hs' & Hd').
    apply IH; [split; auto| |].
    + apply Hd'; [|done]. exact Huser.
    + rewrite (attributed_users_keys _ _ _ Hk). apply elem_of_app. by left.
Qed.

End Burst.

Lemma burst_detector_spec_witness :
  let a := mkAttribution 1 1 1 (seconds 0) (Some (seconds 25)) VERIFIED None
             (Some (py "10.0.0.5")) (Some (py "10.0.0.0/24")) in
  flag a ∈ attributions (db (_handle_join (H:=sample_lib) sample_fourth_join sample_world))
  ∧ disarmed 1 (scheduler (_handle_join (H:=sample_lib) sample_fourth_join sample_world)).
Proof.
  cbv zeta.
  assert (join_subnet (H:=sample_lib) sample_fourth_join = Some (py "10.0.0.0/24"))
    as Esn by (vm_compute; reflexivity).
  assert (burst_reported (H:=sample_lib) sample_fourth_join sample_world = true)
    as Eb by (vm_compute; reflexivity).
  assert (upd_now sample_fourth_join - BURST_WINDOW ≤ seconds 0)
    as Hle by (vm_compute; discriminate).
  pose proof (burst_detector_spec (H:=sample_lib) [] 0 ∅ sample_fourth_join sample_world
                (py "https://t.me/+abc")
                (mkAffiliate 1 100 (py "https://t.me/+abc") (py "+abc") true)
                (py "10.0.0.0/24")) as Hs.
  cbv zeta in Hs. destruct Hs as (_ & _ & _ & _ & _ & _ & _ & _ & Hs).
  destruct (Hs sample_fourth_join_accepted Esn Eb) as [_ Hall].
  assert (wf_world sample_world) as Hwf.
  { apply (@reachable_wf sample_lib (-100)). by exists sample_inputs. }
  destruct (Hall (mkAttribution 1 1 1 (seconds 0) (Some (seconds 25)) VERIFIED None
                    (Some (py "10.0.0.5")) (Some (py "10.0.0.0/24"))))
    as (Hflag & _ & _ & _ & _ & _ & Hdis); [|reflexivity|exact Hle|].
  { apply elem_of_app. left. rewrite sample_world_attributions. apply list_elem_of_here. }
  split; [exact Hflag|]. by destruct (Hdis Hwf) as [? _].
Defined.


(** ** Settled records stay settled *)

Lemma rows_untouched d d' : untouched d d' → rows_evolve d d'.
Proof. intros [Ha _] a' Hin. left. by rewrite <- Ha. Qed.

Lemma rows_saved uid d d' : saved uid d d' → rows_evolve d d'.
Proof.
  intros (a & a1 & _ & _ & _ & _ & Hattr & _ & Hst) a' Hin.
  rewrite Hattr in Hin. unfold save_attribution in Hin.
  cbn [attributions with_attributions] in Hin.
  apply list_elem_of_fmap in Hin as (r & -> & Hr).
  destruct (decide (attr_id r = attr_id a1)); [right; left; by left|by left].
Qed.

Lemma settled_flag a : settled (flag a).
Proof. right. simpl. apply merge_note_truthy. by vm_compute. Qed.

Lemma verify_pending_settled d uid now :
  user_settled uid d → verify_pending d uid now = d.
Proof.
  intros [_ Hs]. apply verify_pending_noop. intros a Ha.
  apply get_attribution_by_user_elem in Ha as [Hin Hu]. by apply Hs.
Qed.

Section Settled.
Context `{PyLib}.

Lemma rows_join update w : rows_evolve (db w) (db (_handle_join update w)).
Proof.
  destruct (upd_invite_link update) as [link|] eqn:El;
    [|unfold _handle_join; rewrite El; apply rows_untouched, untouched_refl].
  destruct (truthy link) eqn:Et;
    [|unfold _handle_join; rewrite El, Et; apply rows_untouched, untouched_refl].
  destruct (join_decide update w link) as [Hr|[aff Ha]]; [done| |].
  - rewrite (handle_join_rejected _ _ _ Hr). cbn [db].
    apply rows_untouched, untouched_upsert.
  - destruct (handle_join_accepted _ _ _ _ Ha) as (Hattr & _).
    destruct Ha as (_ & _ & _ & _ & Hnone).
    apply get_attribution_by_user_None in Hnone.
    intros a' Hin. rewrite Hattr in Hin.
    assert (∃ r, r ∈ attributions (db w)
                        ++ [new_attribution update w aff (join_reasons update w)]
                 ∧ (a' = r ∨ a' = flag r)) as (r & Hr & Ha').
    { destruct (burst_reported update w); [|eauto].
      apply list_elem_of_fmap in Hin as (r & -> & Hr). exists r.
      split; [done|]. destruct (in_burst _ _ _); auto. }
    apply elem_of_app in Hr as [Hr|Hr].
    + destruct Ha' as [-> | ->]; [by left|right; left; apply settled_flag].
    + apply list_elem_of_singleton in Hr as ->. right. right.
      by destruct Ha' as [-> | ->].
Qed.

Lemma rows_react tc i w : rows_evolve (db w) (db (react tc i w)).
Proof.
  destruct i as [update|callback|h now|us affs]; cbn [react].
  - unfold handle_chat_member.
    destruct (bool_decide _); [apply rows_untouched, untouched_refl|].
    destruct (_ && _); [apply rows_join|].
    destruct (_ && _); [|apply rows_untouched, untouched_refl].
    destruct (handle_leave_effect update w) as [[Hu _]|[Hs _]];
      [by apply rows_untouched|by eapply rows_saved].
  - unfold handle_review_callback.
    destruct (review_transaction_effect callback (db w)) as [[Hd _]|(u & Hsv & _)];
      destruct (review_transaction callback (db w)) as [[d answer] user];
      cbn [fst snd db] in *.
    + subst. apply rows_untouched, untouched_refl.
    + by eapply rows_saved.
  - destruct (run_task h now (db w) (scheduler w)) as [d s] eqn:Er. cbn [db].
    assert (d = (run_task h now (db w) (scheduler w)).1) as -> by by rewrite Er.
    destruct (loop_step_effect h now (db w) (scheduler w)) as [Hu|(t & _ & _ & Hsv)];
      [by apply rows_untouched|by eapply rows_saved].
  - cbn [db]. by intros a' Hin; left.
Qed.

Lemma react_record_settled tc i aid uid w :
  record_settled aid uid (db w) → record_settled aid uid (db (react tc i w)).
Proof.
  intros (Hdb & [Hu Hs] & Hk).
  destruct (react_step tc i w Hdb) as (extra & Hk' & Hdb' & _).
  split; [done|]. split; [split|].
  - rewrite (attributed_users_keys _ _ _ Hk'). apply elem_of_app. by left.
  - intros a' Hin Hu'. destruct (rows_react tc i w a' Hin) as [Hold|[Hset|Hnew]]; auto.
    by rewrite Hu' in Hnew.
  - rewrite Hk'. apply elem_of_app. by left.
Qed.

Lemma run_record_settled tc inputs aid uid w :
  record_settled aid uid (db w) → record_settled aid uid (db (run tc inputs w)).
Proof.
  revert w. induction inputs as [|i l IH]; intros w Hw; [done|].
  apply IH. by apply react_record_settled.
Qed.

(** No step of a verification task changes a settled record. *)
Lemma record_settled_loop_step tc aid uid h now w :
  record_settled aid uid (db w) →
  get_attribution (db (react tc (LoopStep h now) w)) aid = get_attribution (db w) aid.
Proof.
  intros (Hdb & Hset & Hk). cbn [react].
  destruct (run_task h now (db w) (scheduler w)) as [d s] eqn:Er. cbn [db].
  assert (d = (run_task h now (db w) (scheduler w)).1) as -> by by rewrite Er.
  destruct (run_task_cases h now (db w) (scheduler w))
    as [->|(t & st & c & reg & Ht & _ & _ & _ & Hd)]; [done|].
  destruct Hd as [->|[-> Hl]]; [done|].
  destruct (decide (task_user t = uid)) as [->|Hne];
    [by rewrite verify_pending_settled|].
  destruct (verify_pending_effect (db w) (task_user t) now)
    as [[Hu _]|(a & a' & Ha & Hu & Hid & Hu' & Hattr & _)].
  - unfold get_attribution. by rewrite Hu.
  - transitivity (get_attribution (save_attribution a' (db w)) aid).
    { unfold get_attribution. by rewrite Hattr. }
    apply get_attribution_save_ne. intros Heq.
    assert ((aid, task_user t) ∈ keys (db w)) as Hk2.
    { apply list_elem_of_fmap. exists a. split; [|done]. f_equal; congruence. }
    destruct Hdb as (Hnd & _). rewrite <- keys_ids in Hnd.
    apply Hne.
    apply (f_equal snd (NoDup_fmap_elem_inj fst (keys (db w)) _ _ Hnd Hk2 Hk eq_refl)).
Qed.

Lemma save_record_settled d a a' :
  wf_db d → a ∈ attributions d →
  attr_id a' = attr_id a → joined_user_id a' = joined_user_id a →
  status a' ≠ PENDING →
  record_settled (attr_id a) (joined_user_id a) (save_attribution a' d).
Proof.
  intros Hdb Hin Hid Hu Hst.
  assert (saved (joined_user_id a) d (save_attribution a' d)) as Hsv.
  { exists a, a'. repeat split; try done. }
  pose proof (saved_keys _ _ _ Hdb Hsv) as Hk.
  assert ((attr_id a, joined_user_id a) ∈ keys d) as Hka
    by (apply list_elem_of_fmap; by exists a).
  split; [by apply (wf_db_keys d)|]. split; [split|].
  - rewrite <- keys_users, Hk. by apply (list_elem_of_fmap_2 snd) in Hka.
  - intros r' Hr' Hu'. unfold save_attribution in Hr'.
    cbn [attributions with_attributions] in Hr'.
    apply list_elem_of_fmap in Hr' as (r & -> & Hr).
    destruct (decide (attr_id r = attr_id a')) as [E|E]; [by left|].
    exfalso. apply E. rewrite Hid. f_equal.
    destruct Hdb as (_ & Hnd & _).
    apply (NoDup_fmap_elem_inj joined_user_id (attributions d)); done.
  - by rewrite Hk.
Qed.

End Settled.

(** ** The review workflow and the timers *)

Section ReviewTimers.
Context `{PyLib}.

Lemma review_settles tc w callback admin data x action s aid a :
  wf_world w →
  cb_answered callback = true →
  cb_from_user callback = Some admin →
  cb_is_admin callback = true →
  cb_data callback = Some data →
  split colon data = [x; action; s] →
  action = py "verify" ∨ action = py "revoke" →
  py_int s = Some aid →
  get_attribution (db w) aid = Some a →
  let w' := react tc (ReviewCallback callback) w in
  review_settled aid (joined_user_id a) w'
  ∧ scheduler w' = cancel_verification (joined_user_id a) (scheduler w)
  ∧ ∃ a', attr_id a' = aid ∧ db w' = save_attribution a' (db w)
          ∧ (action = py "verify" →
             a' = set_note None
                    (set_verified_at (Some (cb_now callback)) (set_status VERIFIED a)))
          ∧ (action = py "revoke" →
             a' = set_note (Some (merge_note (note a) manual_revoke))
                    (set_status REVOKED a)).
Proof.
  intros Hwf Hans Hu Hadm Hd Hs Hact Hi Ha. cbv zeta.
  pose proof (react_wf tc (ReviewCallback callback) w Hwf) as Hwf'.
  pose proof (get_attribution_elem _ _ _ Ha) as [Hin Hid].
  cbn [react] in *. unfold handle_review_callback in *.
  assert (∃ a' answer,
            review_transaction callback (db w)
            = (save_attribution a' (db w), answer, Some (joined_user_id a))
            ∧ attr_id a' = aid ∧ joined_user_id a' = joined_user_id a
            ∧ (action = py "verify" →
               a' = set_note None
                      (set_verified_at (Some (cb_now callback)) (set_status VERIFIED a)))
            ∧ (action = py "revoke" →
               a' = set_note (Some (merge_note (note a) manual_revoke))
                      (set_status REVOKED a))) as (a' & answer & Er & Hid' & Hu' & Hv & Hr).
  { destruct Hact as [-> | ->].
    - eexists _, _. split; [by eapply review_verify|].
      split; [done|]. split; [done|]. split; [done|]. intros E. by vm_compute in E.
    - eexists _, _. split; [by eapply review_revoke|].
      split; [done|]. split; [done|]. split; [|done]. intros E. by vm_compute in E. }
  rewrite Er, Hans in *. cbn [fst db scheduler] in *.
  split; [|split; [done|]].
  - split; [done|]. cbn [scheduler db]. split.
    + destruct Hwf as [_ Hs0]. by eapply cancel_verification_disarms.
    + erewrite saved_keys; [| by destruct Hwf |].
      * apply list_elem_of_fmap. exists a. split; [by f_equal|done].
      * exists a, a'. split; [done|]. split; [done|]. split; [congruence|].
        split; [done|]. split; [done|]. split; [done|].
        destruct Hact as [E|E]; [rewrite (Hv E)|rewrite (Hr E)]; done.
  - exists a'. done.
Qed.

(** The review where the gateway delivers the acknowledgement. In a
    reachable world, once an administrator has verified or revoked an
    attribution through the review callback and [callback.answer] has
    returned, the record is verified with an empty note, or revoked with
    [manual_revoke] merged into its note; the timer of the user is
    removed from the registry and cancelled, so that no timer of the user
    is live, whether its delay has elapsed or not; and whatever happens
    next, no timer of the user is live again and no step of a
    verification task changes the record. The record is out of the reach
    of the timers from the commit of the transaction on, before
    [cancel_verification] has run and also when it never runs. *)
Theorem review_disarms_timer tc w callback admin data x action s aid a :
  reachable tc w →
  cb_answered callback = true →
  cb_from_user callback = Some admin →
  cb_is_admin callback = true →
  cb_data callback = Some data →
  split colon data = [x; action; s] →
  action = py "verify" ∨ action = py "revoke" →
  py_int s = Some aid →
  get_attribution (db w) aid = Some a →
  let uid := joined_user_id a in
  let w' := (handle_review_callback callback w).1 in
  _verification_tasks (scheduler w') !! uid = None
  ∧ disarmed uid (scheduler w')
  ∧ (action = py "verify" →
     get_attribution (db w') aid
     = Some (mkAttribution (attr_id a) (joined_user_id a) (affiliate_id a)
               (joined_at a) (Some (cb_now callback)) VERIFIED None
               (last_seen_ip a) (source_subnet a)))
  ∧ (action = py "revoke" →
     get_attribution (db w') aid
     = Some (mkAttribution (attr_id a) (joined_user_id a) (affiliate_id a)
               (joined_at a) (verified_at a) REVOKED
               (Some (merge_note (note a) manual_revoke))
               (last_seen_ip a) (source_subnet a)))
  ∧ (∀ inputs,
       let w1 := run tc inputs w' in
       disarmed uid (scheduler w1)
       ∧ ∀ h now,
           get_attribution (db (react tc (LoopStep h now) w1)) aid
           = get_attribution (db w1) aid)
  ∧ (∀ inputs h now,
       let w0 := mkWorld (review_transaction callback (db w)).1.1
                   (_subnet_events w) (scheduler w) in
       let w1 := run tc inputs w0 in
       get_attribution (db (react tc (LoopStep h now) w1)) aid
       = get_attribution (db w1) aid).
Proof.
  intros Hreach Hans Hu Hadm Hd Hs Hact Hi Ha. cbv zeta.
  pose proof (reachable_wf tc w Hreach) as Hwf.
  destruct (review_settles tc w callback admin data x action s aid a)
    as (Hset & Hsched & a' & Hid & Hdb & Hv & Hr); try done.
  change ((handle_review_callback callback w).1) with (react tc (ReviewCallback callback) w).
  set (w' := react tc (ReviewCallback callback) w) in *.
  split; [rewrite Hsched, cancel_verification_registry; apply lookup_delete_eq|].
  split; [by destruct Hset as (_ & ? & _)|].
  split; [|split; [|split]].
  - intros E. rewrite Hdb, (Hv E).
    apply get_attribution_save_at with a; [done|]. by apply get_attribution_id in Ha.
  - intros E. rewrite Hdb, (Hr E).
    apply get_attribution_save_at with a; [done|]. by apply get_attribution_id in Ha.
  - intros inputs. pose proof (run_settled tc inputs aid (joined_user_id a) w' Hset) as Hset1.
    split; [by destruct Hset1 as (_ & ? & _)|].
    intros h now. by eapply settled_loop_step.
  - intros inputs h now.
    assert ((review_transaction callback (db w)).1.1 = save_attribution a' (db w)) as ->.
    { rewrite <- Hdb. subst w'. cbn [react]. unfold handle_review_callback.
      by destruct (review_transaction callback (db w)) as [[??] [?|]]. }
    apply record_settled_loop_step with (joined_user_id a).
    apply run_record_settled. cbn [db].
    pose proof (get_attribution_elem _ _ _ Ha) as [Hin Haid]. rewrite <- Haid.
    destruct Hwf as [Hwdb _].
    apply save_record_settled; [done|done|congruence| |];
      destruct Hact as [E|E]; rewrite ?(Hv E), ?(Hr E); done.
Qed.

End ReviewTimers.

(** ** Witnesses on the sample world *)

Lemma review_disarms_timer_witness :
  _verification_tasks
    (scheduler (@handle_review_callback sample_lib sample_review
                  (@run sample_lib (-100) sample_joins initial_world)).1) !! 1
  = None.
Proof.
  refine (proj1 (@review_disarms_timer sample_lib (-100)
                   (@run sample_lib (-100) sample_joins initial_world)
                   sample_review 100 (py "review:verify:1") (py "review") (py "verify")
                   (py "1") 1
                   (mkAttribution 1 1 1 (seconds 0) None PENDING None
                      (Some (py "10.0.0.5")) (Some (py "10.0.0.0/24")))
                   _ eq_refl eq_refl eq_refl eq_refl _ (or_introl eq_refl) _ _)).
  - by exists sample_joins.
  - by vm_compute.
  - by vm_compute.
  - by vm_compute.
Defined.

(** C8, where the code fails it. An administrator revokes the pending
    attribution 2, whose timer is armed, and the gateway call
    [await callback.answer(message_text, show_alert=False)] raises: the
    transaction is committed, so the attribution is revoked with
    [manual_revoke] in its note, but [cancel_verification] is never
    reached, and the timer of the user is still in the registry and
    live. With the same callback and an answer that returns, the entry
    is removed and no timer of the user is live. *)
Theorem review_answer_error_keeps_timer :
  let w := @run sample_lib (-100) sample_joins initial_world in
  let failing :=
    mkCallback (Some 100) true (Some (py "review:revoke:2")) (seconds 25) false in
  let answered :=
    mkCallback (Some 100) true (Some (py "review:revoke:2")) (seconds 25) true in
  let w' := (@handle_review_callback sample_lib failing w).1 in
  let w'' := (@handle_review_callback sample_lib answered w).1 in
  get_attribution (db w) 2
  = Some (mkAttribution 2 2 1 (seconds 10) None PENDING None
            (Some (py "10.0.0.9")) (Some (py "10.0.0.0/24")))
  ∧ _verification_tasks (scheduler w) !! 2 = Some 1%nat
  ∧ get_attribution (db w') 2
    = Some (mkAttribution 2 2 1 (seconds 10) None REVOKED (Some manual_revoke)
              (Some (py "10.0.0.9")) (Some (py "10.0.0.0/24")))
  ∧ _verification_tasks (scheduler w') !! 2 = Some 1%nat
  ∧ tasks (scheduler w') !! 1%nat = Some (mkTask 2 Created false)
  ∧ live (mkTask 2 Created false) = true
  ∧ ¬ disarmed 2 (scheduler w')
  ∧ db w'' = db w'
  ∧ _verification_tasks (scheduler w'') !! 2 = None
  ∧ tasks (scheduler w'') !! 1%nat = Some (mkTask 2 Created true).
Proof.
  cbv zeta.
  assert (tasks (scheduler
                   (@handle_review_callback sample_lib
                      (mkCallback (Some 100) true (Some (py "review:revoke:2"))
                         (seconds 25) false)
                      (@run sample_lib (-100) sample_joins initial_world)).1) !! 1%nat
          = Some (mkTask 2 Created false)) as Ht by (vm_compute; reflexivity).
  split; [by vm_compute|]. split; [by vm_compute|]. split; [by vm_compute|].
  split; [by vm_compute|]. split; [exact Ht|]. split; [done|].
  split; [|split; [by vm_compute|split; by vm_compute]].
  intros Hd. by specialize (Hd 1%nat _ Ht eq_refl).
Qed.

Lemma verify_after_delay_spec_witness :
  let s := mkScheduler [mkTask 2 (Sleeping (seconds 610)) false] {[ 2 := 0%nat ]} in
  mkAttribution 2 2 1 (seconds 10) (Some (seconds 700)) VERIFIED None
    (Some (py "10.0.0.9")) (Some (py "10.0.0.0/24"))
  ∈ attributions (run_task 0 (seconds 700) (db sample_world) s).1
  ∧ _verification_tasks (run_task 0 (seconds 700) (db sample_world) s).2 !! 2 = None.
Proof.
  cbv zeta.
  assert (seconds 610 ≤ seconds 700) as Hle by (unfold seconds; lia).
  assert (NoDup (attr_id <$> attributions (db sample_world))) as Hids.
  { rewrite sample_world_attributions. apply (bool_decide_unpack _). by vm_compute. }
  assert (NoDup (attributed_users (db sample_world))) as Hus.
  { unfold attributed_users. rewrite sample_world_attributions.
    apply (bool_decide_unpack _). by vm_compute. }
  assert (mkAttribution 2 2 1 (seconds 10) None PENDING None
            (Some (py "10.0.0.9")) (Some (py "10.0.0.0/24"))
          ∈ attributions (db sample_world)) as Hin.
  { rewrite sample_world_attributions. apply elem_of_cons. right.
    apply elem_of_cons. by left. }
  pose proof (verify_after_delay_spec 0 (seconds 700) (db sample_world)
                (mkScheduler [mkTask 2 (Sleeping (seconds 610)) false] {[ 2 := 0%nat ]})
                (mkTask 2 (Sleeping (seconds 610)) false) eq_refl eq_refl) as Hs.
  cbv zeta in Hs. destruct Hs as (_ & _ & _ & Hs).
  destruct (Hs (seconds 610) eq_refl Hle) as (_ & _ & _ & Hreg & _ & _ & Hrow).
  destruct (Hrow Hids Hus _ Hin eq_refl) as (_ & Hfire & _).
  destruct (Hfire eq_refl eq_refl) as (Hnew & _).
  split; [exact Hnew|exact Hreg].
Defined.

Lemma top_affiliates_spec_witness :
  let lb := mkLeaderboard {[ py "all" := [(1, 5)] ]} ∅ in
  @top_affiliates sample_engine (db sample_world) lb 10 (py "all") true (seconds 30)
  = omap (λ id, aff ← get_affiliate (db sample_world) id;
                Some (aff, count_of [(1, 5)] id))
      (top_ids [(1, 5)] 10)
  ∧ ∃ ranking,
      @top_affiliates sample_engine (db sample_world) lb 10 (py "7d") false (seconds 30)
      = take 10 ranking
      ∧ (mkAffiliate 1 100 (py "https://t.me/+abc") (py "+abc") true, 1) ∈ ranking.
Proof.
  cbv zeta.
  assert (bool_decide (py "all" ∈ LEADERBOARD_WINDOWS.*1) = true) as Hb
    by (vm_compute; reflexivity).
  assert (bool_decide (py "7d" ∈ LEADERBOARD_WINDOWS.*1) = true) as Hb7
    by (vm_compute; reflexivity).
  split.
  - pose proof (@top_affiliates_spec sample_engine (db sample_world)
                  (mkLeaderboard {[ py "all" := [(1, 5)] ]} ∅) 10 (py "all") true
                  (seconds 30)) as Hs.
    cbv zeta in Hs. destruct Hs as (Hs & _). rewrite Hb in Hs.
    destruct (Hs [(1, 5)] eq_refl ltac:(apply lookup_singleton_eq)) as (Hres & _).
    exact Hres.
  - pose proof (@top_affiliates_spec sample_engine (db sample_world)
                  (mkLeaderboard {[ py "all" := [(1, 5)] ]} ∅) 10 (py "7d") false
                  (seconds 30)) as Hs.
    cbv zeta in Hs. destruct Hs as (_ & Hs & _). rewrite Hb7 in Hs.
    destruct (Hs (or_introl eq_refl)) as (ranking & Hres & _ & Hin & _).
    exists ranking. split; [exact Hres|]. apply Hin.
    assert (affiliates (db sample_world) = sample_affiliates) as -> by by vm_compute.
    rewrite sample_world_attributions.
    split; [apply list_elem_of_here|]. split; by vm_compute.
Defined.


(** ** The scheduler on its own *)

Example schedule_twice_in_a_row :
  let s := scheduler_calls [Schedule 7; Schedule 7; Step 0 (seconds 1); Step 1 (seconds 1)]
             empty_scheduler in
  _verification_tasks s !! 7 = Some 1%nat ∧ live_timers 7 s = [1%nat].
Proof. by vm_compute. Qed.

Lemma schedule_verification_registers uid s :
  let s' := schedule_verification true uid s in
  _verification_tasks s' !! uid = Some (length (tasks s))
  ∧ tasks s' !! length (tasks s) = Some (mkTask uid Created false)
  ∧ ∀ h, _verification_tasks s !! uid = Some h →
         task_cancel <$> tasks s !! h = tasks s' !! h ∨ tasks s !! h = None.
Proof.
  cbv zeta. unfold schedule_verification. cbn [tasks _verification_tasks].
  rewrite cancel_verification_length. split; [apply lookup_insert_eq|]. split.
  - rewrite lookup_app_r by (rewrite cancel_verification_length; lia).
    by rewrite cancel_verification_length, Nat.sub_diag.
  - intros h Hh. destruct (tasks s !! h) as [t|] eqn:Ht; [left|by right].
    rewrite lookup_app_l
      by (rewrite cancel_verification_length; by eapply lookup_lt_Some).
    rewrite cancel_verification_lookup, decide_True by done. by rewrite Ht.
Qed.

Lemma cancel_verification_absent uid s :
  _verification_tasks s !! uid = None → cancel_verification uid s = s.
Proof. unfold cancel_verification. by intros ->. Qed.

(** C6, on the code: the scheduler does not keep one outstanding timer
    per user. Two calls of [schedule_verification] in a row leave one
    live timer, registered. But when the first task has started to sleep
    before the second call, its cancellation runs its [finally] clause
    after the second call and pops the entry of the user, which is the
    entry of the new task: the new timer stays live without being
    registered, [cancel_verification] does not find it, and one more
    [schedule_verification] leaves two live timers for the user. *)
Theorem reschedule_loses_timer :
  let s2 := scheduler_calls [Schedule 7; Schedule 7] empty_scheduler in
  let s4 := scheduler_calls
              [Schedule 7; Step 0 (seconds 0); Schedule 7; Step 0 (seconds 1)]
              empty_scheduler in
  (_verification_tasks s2 !! 7 = Some 1%nat ∧ live_timers 7 s2 = [1%nat])
  ∧ (_verification_tasks s4 !! 7 = None ∧ live_timers 7 s4 = [1%nat])
  ∧ live_timers 7 (cancel_verification 7 s4) = [1%nat]
  ∧ live_timers 7 (schedule_verification true 7 s4) = [1%nat; 2%nat].
Proof. by vm_compute. Qed.

(* ===================================================================== *)
(** * Further properties of the services and the handlers *)
(* ===================================================================== *)

(** ** Strings *)

Section Segments.
Context (sep : N).

Lemma join_split s : join sep (split sep s) = s.
Proof.
  induction s as [|c s IH]; [done|]. simpl.
  destruct (N.eqb_spec c sep) as [->|Hne].
  - pose proof (split_not_nil sep s). destruct (split sep s) as [|w ws]; [done|].
    simpl in *. by rewrite IH.
  - pose proof (split_not_nil sep s). destruct (split sep s) as [|w ws]; [done|].
    destruct ws; simpl in *; by rewrite <- IH.
Qed.

Lemma join_last l :
  l ≠ [] →
  ∃ pre, join sep l = pre ++ List.last l []
         ∧ (pre = [] ∨ ∃ dir, pre = dir ++ [sep]).
Proof.
  induction l as [|w l IH]; [done|]. intros _.
  destruct l as [|w' l].
  - exists []. split; [done|by left].
  - destruct IH as (pre & E & Hpre); [done|].
    exists (w ++ sep :: pre). split.
    + change (join sep (w :: w' :: l)) with (w ++ sep :: join sep (w' :: l)).
      rewrite E. change (List.last (w :: w' :: l) []) with (List.last (w' :: l) []).
      by rewrite <- app_assoc.
    + right. destruct Hpre as [->|[dir ->]]; [by exists w|].
      exists (w ++ sep :: dir). by rewrite <- app_assoc.
Qed.

Lemma split_last s :
  ∃ pre, s = pre ++ List.last (split sep s) []
         ∧ (pre = [] ∨ ∃ dir, pre = dir ++ [sep]).
Proof.
  destruct (join_last (split sep s) (split_not_nil sep s)) as (pre & E & Hpre).
  rewrite join_split in E. eauto.
Qed.

Lemma last_split_sep_free s : sep ∉ List.last (split sep s) [].
Proof.
  pose proof (split_sep_free sep s) as Hf. pose proof (split_not_nil sep s) as Hn.
  induction (split sep s) as [|w l IH]; [done|].
  inversion Hf; subst. destruct l; [done|]. by apply IH.
Qed.

End Segments.

Lemma lstrip_chars_hd p s c r : lstrip_chars p s = c :: r → p c = false.
Proof.
  induction s as [|x s IH]; [done|]. simpl.
  destruct (p x) eqn:E; [done|]. by intros [= <- _].
Qed.

Lemma strip_chars_last p s dir c : strip_chars p s = dir ++ [c] → p c = false.
Proof.
  unfold strip_chars, rstrip_chars. intros E.
  apply (f_equal (@rev N)) in E. rewrite rev_involutive, rev_app_distr in E.
  by apply lstrip_chars_hd in E.
Qed.

(** ** [extract_link_code] *)

Section LinkCode.
Context `{PyLib}.

(** The code of an invite link is what follows the last slash of the path
    of the link, the slashes around the path stripped: it is not empty and
    holds no slash. A link whose path is empty or made of slashes is its
    own code. *)
Theorem extract_link_code_segment (link : list N) :
  let path := strip_chars (N.eqb slash) (urlparse_path link) in
  let code := extract_link_code link in
  match path with
  | [] => code = link
  | _ :: _ =>
      truthy code = true ∧ Forall (λ c, c ≠ slash) code
      ∧ (path = code ∨ ∃ dir, path = dir ++ slash :: code)
  end.
Proof.
  cbv zeta. unfold extract_link_code.
  destruct (strip_chars _ _) as [|x path] eqn:Ep; [done|]. cbn [truthy].
  destruct (split_last slash (x :: path)) as (pre & E & Hpre).
  pose proof (last_split_sep_free slash (x :: path)) as Hfree.
  set (code := List.last (split slash (x :: path)) []) in *.
  split; [|split].
  - destruct code as [|c code]; [|done]. rewrite app_nil_r in E. subst pre.
    destruct Hpre as [?|[dir Hd]]; [done|]. rewrite Hd in Ep.
    apply strip_chars_last in Ep. by rewrite N.eqb_refl in Ep.
  - apply Forall_forall. intros c Hc ->. done.
  - destruct Hpre as [->|[dir ->]]; [by left|]. right. exists dir.
    by rewrite E, <- app_assoc.
Qed.

End LinkCode.

(** ** Decimal numerals *)

Lemma digits_are_digits u : Forall is_digit (digits u).
Proof. induction u; constructor; (done || unfold is_digit; lia). Qed.

Lemma digits_inj u u' : digits u = digits u' → u = u'.
Proof.
  revert u'. induction u; intros []; simpl; try done; intros [= E]; f_equal; auto.
Qed.

Lemma str_of_N_inj n n' : str_of_N n = str_of_N n' → n = n'.
Proof. intros E. by apply DecimalN.Unsigned.to_uint_inj, digits_inj. Qed.

Lemma str_of_N_digits n : Forall is_digit (str_of_N n).
Proof. apply digits_are_digits. Qed.

Lemma str_of_N_truthy n : truthy (str_of_N n) = true.
Proof.
  unfold str_of_N. destruct n as [|p]; [done|]. simpl.
  pose proof (DecimalPos.Unsigned.to_uint_nonnil p).
  by destruct (Pos.to_uint p).
Qed.

Lemma str_of_Z_truthy z : truthy (str_of_Z z) = true.
Proof. unfold str_of_Z. destruct (z <? 0); [done|apply str_of_N_truthy]. Qed.

Lemma str_of_Z_inj z z' : str_of_Z z = str_of_Z z' → z = z'.
Proof.
  unfold str_of_Z. destruct (Z.ltb_spec z 0), (Z.ltb_spec z' 0).
  - intros [= E]. apply str_of_N_inj in E. lia.
  - intros E. pose proof (str_of_N_digits (Z.to_N z')) as Hd. rewrite <- E in Hd.
    inversion Hd as [|?? Hx]; subst. unfold is_digit in Hx. lia.
  - intros E. pose proof (str_of_N_digits (Z.to_N z)) as Hd. rewrite E in Hd.
    inversion Hd as [|?? Hx]; subst. unfold is_digit in Hx. lia.
  - intros E. apply str_of_N_inj in E. lia.
Qed.

(** Two texts that agree up to their first separator agree before it. *)
Lemma app_sep_inj (sep : N) (u u' r r' : list N) :
  sep ∉ u → sep ∉ u' → u ++ sep :: r = u' ++ sep :: r' → u = u' ∧ r = r'.
Proof.
  revert u'. induction u as [|x u IH]; intros [|x' u'] Hu Hu'; simpl.
  - by intros [= ->].
  - intros [= <- _]. set_solver.
  - intros [= -> _]. set_solver.
  - intros [= -> E]. destruct (IH u') as [-> ->]; [set_solver|set_solver|done|done].
Qed.

Lemma digits_sep_free (sep : N) (s : list N) :
  ¬ is_digit sep → Forall is_digit s → sep ∉ s.
Proof. intros Hs Hf Hin. rewrite Forall_forall in Hf. by apply Hs, Hf. Qed.

(** ** [_ip_subnet] *)

Section Subnet.
Context `{PyLib}.

Lemma ip_subnet_ipv4 s a b c d :
  truthy s = true → ip_address s = Some (IPv4Address a b c d) →
  _ip_subnet (Some s)
  = Some (str_of_N a ++ dot :: str_of_N b ++ dot :: str_of_N c ++ dot :: py "0/24").
Proof. intros Hs Hip. unfold _ip_subnet. by rewrite Hs, Hip. Qed.

(** Two IPv4 addresses fall into the same bucket of the burst detector
    exactly when they agree on their first three octets; the subnet of an
    IPv4 address is never the empty string. *)
Theorem ip_subnet_same_network s s' a b c d a' b' c' d' :
  truthy s = true → truthy s' = true →
  ip_address s = Some (IPv4Address a b c d) →
  ip_address s' = Some (IPv4Address a' b' c' d') →
  (_ip_subnet (Some s) = _ip_subnet (Some s') ↔ a = a' ∧ b = b' ∧ c = c')
  ∧ ∃ subnet, _ip_subnet (Some s) = Some subnet ∧ truthy subnet = true.
Proof.
  intros Hs Hs' Hip Hip'.
  rewrite (ip_subnet_ipv4 _ _ _ _ _ Hs Hip), (ip_subnet_ipv4 _ _ _ _ _ Hs' Hip').
  assert (∀ n, dot ∉ str_of_N n) as Hdot.
  { intros n. apply digits_sep_free; [|apply str_of_N_digits].
    unfold is_digit, dot. lia. }
  split.
  - split.
    + intros [= E].
      apply app_sep_inj in E as [Ea E]; [|done|done].
      apply app_sep_inj in E as [Eb E]; [|done|done].
      apply app_sep_inj in E as [Ec _]; [|done|done].
      by apply str_of_N_inj in Ea, Eb, Ec.
    + by intros (-> & -> & ->).
  - eexists. split; [done|]. pose proof (str_of_N_truthy a).
    by destruct (str_of_N a).
Qed.

End Subnet.

Example ip_subnet_same_network_witness :
  (@_ip_subnet sample_lib (Some (py "10.0.0.5"))
   = @_ip_subnet sample_lib (Some (py "10.0.0.9")) ↔ 10%N = 10%N ∧ 0%N = 0%N ∧ 0%N = 0%N)
  ∧ ∃ subnet, @_ip_subnet sample_lib (Some (py "10.0.0.5")) = Some subnet
              ∧ truthy subnet = true.
Proof.
  apply (@ip_subnet_same_network sample_lib (py "10.0.0.5") (py "10.0.0.9")
           10 0 0 5 10 0 0 9); reflexivity.
Defined.

(** ** The [users] table *)

Lemma find_replace_ne {A} (P Q : A → Prop) `{!∀ x, Decision (P x)}
    `{!∀ x, Decision (Q x)} (l : list A) (a' : A) :
  Forall (λ x, Q x → ¬ P x) l → ¬ P a' →
  snd <$> list_find P ((λ r, if decide (Q r) then a' else r) <$> l)
  = snd <$> list_find P l.
Proof.
  intros Hq Hp. induction Hq as [|x l Hx _ IH]; [done|].
  rewrite fmap_cons. simpl.
  destruct (decide (Q x)) as [Hqx|Hqx].
  - rewrite decide_False by done. rewrite (decide_False (P:=P x)) by auto.
    destruct (list_find P l) as [[??]|], (list_find P (_ <$> l)) as [[??]|];
      simpl in *; congruence.
  - destruct (decide (P x)); [done|].
    destruct (list_find P l) as [[??]|], (list_find P (_ <$> l)) as [[??]|];
      simpl in *; congruence.
Qed.

Lemma find_app_ne {A} (P : A → Prop) `{!∀ x, Decision (P x)} (l : list A) (a' : A) :
  ¬ P a' → snd <$> list_find P (l ++ [a']) = snd <$> list_find P l.
Proof.
  intros Hp. induction l as [|x l IH]; simpl.
  - by rewrite decide_False.
  - destruct (decide (P x)); [done|].
    destruct (list_find P l) as [[??]|], (list_find P (l ++ [a'])) as [[??]|];
      simpl in *; congruence.
Qed.

Lemma upsert_user_ids d uid un fn ln :
  user_id <$> users (fst (upsert_user d uid un fn ln))
  = if decide (uid ∈ user_id <$> users d) then user_id <$> users d
    else (user_id <$> users d) ++ [uid].
Proof.
  unfold upsert_user. destruct (get_user d uid) as [u|] eqn:E; unfold get_user in E.
  - apply find_Some_elem in E as [Hin Hid].
    rewrite decide_True by (apply list_elem_of_fmap; eauto). simpl.
    rewrite <- list_fmap_compose. apply list_fmap_ext. intros i x _. simpl.
    by destruct (decide (user_id x = uid)).
  - apply find_None_elem in E. rewrite Forall_forall in E.
    rewrite decide_False.
    + simpl. by rewrite fmap_app.
    + intros Hin. apply list_elem_of_fmap in Hin as (x & -> & Hx). by eapply E.
Qed.

(** After [upsert_user] the row of the user holds the values given, the
    rows of the other users are as before, and the table has one more row
    exactly when the user was new: keys that were distinct stay distinct. *)
Theorem upsert_user_round_trip d uid un fn ln :
  let r := upsert_user d uid un fn ln in
  snd r = mkUser uid un fn ln
  ∧ get_user (fst r) uid = Some (mkUser uid un fn ln)
  ∧ (∀ other, other ≠ uid → get_user (fst r) other = get_user d other)
  ∧ length (users (fst r))
    = match get_user d uid with
      | Some _ => length (users d)
      | None => S (length (users d))
      end
  ∧ (NoDup (user_id <$> users d) → NoDup (user_id <$> users (fst r))).
Proof.
  cbv zeta. split; [|split; [|split; [|split]]].
  - unfold upsert_user. by destruct (get_user d uid).
  - apply get_user_upsert.
  - intros other Hne. unfold upsert_user, get_user.
    destruct (snd <$> list_find _ (users d)) eqn:E; simpl.
    + apply (find_replace_ne (λ u, user_id u = other) (λ u, user_id u = uid));
        [apply Forall_forall; congruence|simpl; congruence].
    + apply (find_app_ne (λ u, user_id u = other)). simpl. congruence.
  - unfold upsert_user. destruct (get_user d uid); simpl.
    + by rewrite length_fmap.
    + rewrite length_app. simpl. lia.
  - intros Hnd. rewrite upsert_user_ids. destruct (decide _) as [|Hn]; [done|].
    apply NoDup_app. split; [done|]. split; [|apply NoDup_singleton].
    intros x Hx Hx'. apply list_elem_of_singleton in Hx'. by subst.
Qed.

Section Usernames.
Context `{PyText}.

(** [get_user_by_username] ignores the at-signs in front of the name and
    finds nobody under a name made of at-signs only. It returns a user
    only when that user is the one row whose user name equals the name up
    to case, and raises exactly when several rows do. *)
Theorem get_user_by_username_spec d name :
  let normalized := lstrip_chars (N.eqb at_sign) name in
  let hits_ := filter (λ u, username_matches normalized u = true) (users d) in
  get_user_by_username d (at_sign :: name) = get_user_by_username d name
  ∧ (Forall (λ c, c = at_sign) name → get_user_by_username d name = inr None)
  ∧ (∀ u, get_user_by_username d name = inr (Some u) →
          hits_ = [u] ∧ u ∈ users d
          ∧ ∃ n, username u = Some n ∧ sql_lower n = str_lower normalized)
  ∧ (get_user_by_username d name = inl MultipleResultsFound
     ↔ normalized ≠ [] ∧ (2 ≤ length hits_)%nat).
Proof.
  cbv zeta. split; [|split; [|split]].
  - done.
  - intros Hall. unfold get_user_by_username.
    assert (lstrip_chars (N.eqb at_sign) name = []) as ->; [|done].
    induction Hall as [|c l -> _ IH]; done.
  - intros u. unfold get_user_by_username.
    destruct (truthy _); [|done]. cbn [negb].
    destruct (filter _ _) as [|v [|??]] eqn:E; try done. intros [= ->].
    assert (u ∈ filter (λ u, username_matches (lstrip_chars (N.eqb at_sign) name) u = true)
                  (users d)) as Hin by (rewrite E; apply list_elem_of_here).
    apply list_elem_of_filter in Hin as [Hm Hin].
    split; [done|]. split; [done|]. unfold username_matches in Hm.
    destruct (username u) as [n|]; [|done]. exists n. split; [done|].
    by apply bool_decide_eq_true in Hm.
  - unfold get_user_by_username.
    destruct (lstrip_chars _ _) as [|c r] eqn:En; simpl.
    + split; [done|]. by intros [? _].
    + destruct (filter _ _) as [|v [|??]]; simpl; split; try done;
        try (intros [_ ?]; lia). intros _. split; [done|lia].
Qed.

End Usernames.

(** ** Dictionaries in insertion order *)

Section Dict.
Context {K V : Type} `{EqDecision K}.
Implicit Types d : list (K * V).

Lemma dict_get_cons k dflt k' v d :
  dict_get k dflt ((k', v) :: d) = if decide (k' = k) then v else dict_get k dflt d.
Proof.
  unfold dict_get. simpl. destruct (decide (k' = k)); [done|].
  by destruct (list_find _ d) as [[??]|].
Qed.

Lemma dict_get_notin k dflt d : k ∉ d.*1 → dict_get k dflt d = dflt.
Proof.
  induction d as [|[k' v] d IH]; [done|]. intros Hn. rewrite dict_get_cons.
  rewrite decide_False by set_solver. apply IH. set_solver.
Qed.

Lemma dict_get_elem k v dflt d : NoDup d.*1 → (k, v) ∈ d → dict_get k dflt d = v.
Proof.
  induction d as [|[k' v'] d IH]; [set_solver|]. intros Hnd Hin.
  rewrite dict_get_cons. apply NoDup_cons in Hnd as [Hk Hnd].
  apply elem_of_cons in Hin as [[= <- <-]|Hin]; [by rewrite decide_True|].
  rewrite decide_False; [by apply IH|]. intros ->. apply Hk.
  by apply (list_elem_of_fmap_2 fst) in Hin.
Qed.

Lemma dict_set_keys k v d : k ∈ d.*1 → (dict_set k v d).*1 = d.*1.
Proof.
  intros Hk. unfold dict_set. rewrite bool_decide_eq_true_2 by done.
  rewrite <- list_fmap_compose. apply list_fmap_ext. intros i [k' v'] _. simpl.
  by destruct (decide (k' = k)).
Qed.

Lemma dict_get_replace k k' v dflt d :
  dict_get k dflt ((λ p, if decide (p.1 = k') then (k', v) else p) <$> d)
  = if decide (k' = k)
    then (if decide (k' ∈ d.*1) then v else dflt)
    else dict_get k dflt d.
Proof.
  induction d as [|[k0 v0] d IH].
  - by destruct (decide (k' = k)).
  - rewrite fmap_cons. simpl fst. destruct (decide (k0 = k')) as [->|Hne].
    + rewrite !dict_get_cons. destruct (decide (k' = k)) as [->|Hne'].
      * rewrite decide_True by set_solver. done.
      * apply IH.
    + rewrite !dict_get_cons. destruct (decide (k' = k)) as [->|Hne'].
      * rewrite decide_False by done. rewrite IH.
        destruct (decide (k ∈ d.*1)), (decide (k ∈ ((k0, v0) :: d).*1));
          set_solver.
      * by rewrite IH.
Qed.

(** Reading a key after an assignment. *)
Lemma dict_get_set k k' v dflt d :
  dict_get k dflt (dict_set k' v d)
  = if decide (k' = k) then v else dict_get k dflt d.
Proof.
  unfold dict_set. case_bool_decide as Hk.
  - rewrite dict_get_replace. destruct (decide (k' = k)); [|done].
    by rewrite decide_True.
  - induction d as [|[k0 v0] d IH]; simpl.
    + by rewrite dict_get_cons.
    + rewrite !dict_get_cons.
      destruct (decide (k0 = k)) as [->|Hne]; [|apply IH; set_solver].
      rewrite decide_False; [done|]. intros ->. set_solver.
Qed.

End Dict.

(** ** The counts by status *)

Lemma status_counts_snoc rows row :
  status_counts (rows ++ [row]) = dict_set row.1 row.2 (status_counts rows).
Proof. unfold status_counts. by rewrite foldl_app. Qed.

Lemma status_counts_keys rows :
  (status_counts rows).*1 = [PENDING; VERIFIED; REVOKED].
Proof.
  induction rows as [|row rows IH] using rev_ind; [done|].
  rewrite status_counts_snoc, dict_set_keys; [done|].
  rewrite IH. destruct (row.1); set_solver.
Qed.

Lemma status_counts_get rows st :
  NoDup rows.*1 → dict_get st 0 (status_counts rows) = dict_get st 0 rows.
Proof.
  induction rows as [|[k v] rows IH] using rev_ind; intros Hnd.
  - by destruct st.
  - rewrite status_counts_snoc, dict_get_set. simpl.
    rewrite fmap_app in Hnd. apply NoDup_app in Hnd as (Hnd & Hk & _).
    destruct (decide (k = st)) as [->|Hne].
    + symmetry. apply dict_get_elem; [|set_solver].
      rewrite fmap_app. apply NoDup_app. split; [done|]. split; [done|].
      apply NoDup_singleton.
    + rewrite IH by done. clear IH Hnd Hk.
      induction rows as [|[k' v'] rows IH]; simpl.
      * by rewrite dict_get_cons, decide_False.
      * rewrite !dict_get_cons. by destruct (decide (k' = st)).
Qed.

Lemma filter_none {A} (P : A → Prop) `{!∀ x, Decision (P x)} (l : list A) :
  Forall (λ x, ¬ P x) l → filter P l = [].
Proof.
  induction 1 as [|x l Hx _ IH]; [done|]. by rewrite filter_cons_False.
Qed.

Lemma filter_length_mono {A} (P Q : A → Prop) `{!∀ x, Decision (P x)}
    `{!∀ x, Decision (Q x)} (l : list A) :
  (∀ x, P x → Q x) → (length (filter P l) ≤ length (filter Q l))%nat.
Proof.
  intros Hpq. induction l as [|x l IH]; [done|]. rewrite !filter_cons.
  destruct (decide (P x)), (decide (Q x)); simpl; try lia. naive_solver.
Qed.

Lemma status_groups_get selected groups st :
  groups ≡ₚ status_groups selected →
  dict_get st 0 (status_counts groups)
  = Z.of_nat (length (filter (λ a, status a = st) selected)).
Proof.
  intros Hp.
  assert (NoDup groups.*1) as Hnd.
  { rewrite Hp. unfold status_groups. rewrite <- list_fmap_compose.
    erewrite list_fmap_ext; [|intros i x _; reflexivity].
    simpl. rewrite list_fmap_id. apply NoDup_remove_dups. }
  rewrite status_counts_get by done.
  destruct (decide (st ∈ status <$> selected)) as [Hin|Hin].
  - apply dict_get_elem; [done|]. rewrite Hp. unfold status_groups.
    apply list_elem_of_fmap. exists st. split; [done|]. by apply elem_of_remove_dups.
  - rewrite dict_get_notin.
    + assert (filter (λ a, status a = st) selected = []) as ->; [|done].
      apply filter_none. rewrite Forall_forall. intros a Ha Hs.
      apply Hin. apply list_elem_of_fmap. eauto.
    + rewrite Hp. unfold status_groups. rewrite <- list_fmap_compose.
      intros Hk. apply list_elem_of_fmap in Hk as (st' & -> & Hk).
      apply Hin. rewrite elem_of_remove_dups in Hk. exact Hk.
Qed.

Lemma status_partition (l : list Attribution) :
  (length (filter (λ a, status a = PENDING) l)
   + length (filter (λ a, status a = VERIFIED) l)
   + length (filter (λ a, status a = REVOKED) l) = length l)%nat.
Proof.
  induction l as [|a l IH]; [done|]. rewrite !filter_cons.
  destruct (status a); repeat case_decide; try done; simpl; lia.
Qed.

(** The statistics of an affiliate hold a count for each of the three
    statuses, in this order, the count of a status that does not occur
    being zero; each is the number of the attributions of the affiliate in
    that status, so they add up to the number of its attributions, which
    is the number of rows [list_attributions_by_affiliate] returns and
    these rows are the latest first. The order in which the database
    returns the groups does not matter. *)
Theorem get_affiliate_stats_histogram d id :
  let stats := get_affiliate_stats d id in
  let rows := filter (λ a, affiliate_id a = id) (attributions d) in
  stats.*1 = [PENDING; VERIFIED; REVOKED]
  ∧ (∀ st, dict_get st 0 stats
           = Z.of_nat (length (filter (λ a, status a = st) rows)))
  ∧ dict_get PENDING 0 stats + dict_get VERIFIED 0 stats + dict_get REVOKED 0 stats
    = Z.of_nat (length (list_attributions_by_affiliate d id))
  ∧ list_attributions_by_affiliate d id ≡ₚ rows
  ∧ StronglySorted (λ a b, joined_at b ≤ joined_at a)
      (list_attributions_by_affiliate d id)
  ∧ (∀ groups st, groups ≡ₚ status_groups rows →
       (status_counts groups).*1 = stats.*1
       ∧ dict_get st 0 (status_counts groups) = dict_get st 0 stats).
Proof.
  cbv zeta. unfold get_affiliate_stats.
  set (rows := filter (λ a, affiliate_id a = id) (attributions d)).
  assert (∀ st, dict_get st 0 (status_counts (status_groups rows))
                = Z.of_nat (length (filter (λ a, status a = st) rows))) as Hget
    by (intros st; by apply status_groups_get).
  split; [apply status_counts_keys|]. split; [done|]. split; [|split; [|split]].
  - rewrite !Hget. unfold list_attributions_by_affiliate. fold rows.
    rewrite (sorted_perm _ rows). pose proof (status_partition rows). lia.
  - apply sorted_perm.
  - apply (sorted_desc_StronglySorted joined_at).
  - intros groups st Hp. rewrite !status_counts_keys. split; [done|].
    rewrite Hget. by apply status_groups_get.
Qed.

(** [count_by_status_since] holds a count for each of the three statuses:
    the number of the attributions in that status that joined at [since]
    or later. The counts add up to the number of these attributions, and
    a later [since] gives no larger count. *)
Theorem count_by_status_since_histogram d since :
  let counts := count_by_status_since d since in
  let rows := filter (λ a, since ≤ joined_at a) (attributions d) in
  counts.*1 = [PENDING; VERIFIED; REVOKED]
  ∧ (∀ st, dict_get st 0 counts
           = Z.of_nat (length (filter (λ a, status a = st ∧ since ≤ joined_at a)
                                 (attributions d))))
  ∧ dict_get PENDING 0 counts + dict_get VERIFIED 0 counts + dict_get REVOKED 0 counts
    = Z.of_nat (length rows)
  ∧ (∀ later st, since ≤ later →
       dict_get st 0 (count_by_status_since d later) ≤ dict_get st 0 counts).
Proof.
  cbv zeta. unfold count_by_status_since.
  assert (∀ since st,
            dict_get st 0 (status_counts (status_groups
              (filter (λ a, since ≤ joined_at a) (attributions d))))
            = Z.of_nat (length (filter (λ a, status a = st ∧ since ≤ joined_at a)
                                  (attributions d)))) as Hget.
  { intros s st. rewrite (status_groups_get _ _ st) by done.
    by rewrite list_filter_filter. }
  split; [apply status_counts_keys|]. split; [apply Hget|]. split.
  - rewrite !(status_groups_get _ _ _ (reflexivity _)).
    pose proof (status_partition (filter (λ a, since ≤ joined_at a) (attributions d))).
    lia.
  - intros later st Hle. rewrite !Hget. apply inj_le.
    apply filter_length_mono. intros a [? ?]. split; [done|lia].
Qed.

(** ** Pausing and resuming all links *)

Lemma find_fmap_same {A} (P : A → Prop) `{!∀ x, Decision (P x)} (f : A → A)
    (l : list A) :
  (∀ x, P (f x) ↔ P x) →
  snd <$> list_find P (f <$> l) = f <$> (snd <$> list_find P l).
Proof.
  intros Hf. induction l as [|x l IH]; [done|]. rewrite fmap_cons. simpl.
  destruct (decide (P x)) as [Hx|Hx].
  - by rewrite decide_True by by apply Hf.
  - rewrite decide_False by by rewrite Hf.
    destruct (list_find P l) as [[??]|], (list_find P (f <$> l)) as [[??]|];
      simpl in *; congruence.
Qed.

Lemma get_affiliate_bulk d b id :
  get_affiliate (fst (bulk_set_active d b)) id
  = set_is_active b <$> get_affiliate d id.
Proof. unfold get_affiliate. simpl. by apply (find_fmap_same (λ a, aff_id a = id)). Qed.

Lemma get_affiliate_by_code_bulk d b code :
  get_affiliate_by_code (fst (bulk_set_active d b)) code
  = set_is_active b <$> get_affiliate_by_code d code.
Proof.
  unfold get_affiliate_by_code. simpl.
  by apply (find_fmap_same (λ a, link_code a = code)).
Qed.

(** The three numbers of [count_affiliates] are consistent: the active
    and the inactive links add up to the total, and the inactive ones are
    the rows that are not active. [bulk_set_active] reports the total as
    the number of rows it updated, and after it all links count as active,
    or all as inactive. *)
Theorem count_affiliates_partition d b :
  let c := count_affiliates d in
  let r := bulk_set_active d b in
  count_active c + count_inactive c = count_total c
  ∧ 0 ≤ count_active c
  ∧ count_inactive c
    = Z.of_nat (length (filter (λ a, is_active a = false) (affiliates d)))
  ∧ count_total c = Z.of_nat (length (affiliates d))
  ∧ snd r = count_total c
  ∧ count_affiliates (fst r)
    = (if b then mkAffiliateCounts (count_total c) 0 (count_total c)
       else mkAffiliateCounts 0 (count_total c) (count_total c)).
Proof.
  cbv zeta. unfold count_affiliates. cbn [count_active count_inactive count_total].
  assert (length (filter (λ a, is_active a = true) (affiliates d))
          + length (filter (λ a, is_active a = false) (affiliates d))
          = length (affiliates d))%nat as Hlen.
  { induction (affiliates d) as [|a l IH]; [done|]. rewrite !filter_cons.
    destruct (is_active a); repeat case_decide; try done; simpl; lia. }
  split; [lia|]. split; [lia|]. split; [lia|]. split; [done|]. split; [done|].
  simpl. rewrite length_fmap.
  assert (filter (λ a, is_active a = true) (set_is_active b <$> affiliates d)
          = if b then set_is_active b <$> affiliates d else []) as ->.
  { destruct b.
    - apply filter_all. apply Forall_forall. intros a Ha.
      by apply list_elem_of_fmap in Ha as (? & -> & _).
    - apply filter_none. apply Forall_forall. intros a Ha.
      by apply list_elem_of_fmap in Ha as (? & -> & _). }
  destruct b; simpl; rewrite ?length_fmap; f_equal; lia.
Qed.

Lemma filter_disjoint_length {A} (P Q : A → Prop) `{!∀ x, Decision (P x)}
    `{!∀ x, Decision (Q x)} (l : list A) :
  (∀ x, P x → Q x → False) →
  (length (filter P l) + length (filter Q l) ≤ length l)%nat.
Proof.
  intros Hpq. induction l as [|x l IH]; [done|]. rewrite !filter_cons.
  destruct (decide (P x)), (decide (Q x)); simpl; try lia. naive_solver.
Qed.

Lemma run_integrity_checks_counts (aff_of : Z → option Affiliate) l i j :
  foldl (λ issues attribution,
           match aff_of (affiliate_id attribution) with
           | None =>
               mkIssues (inactive_affiliates_with_verified issues)
                 (dangling_attributions issues + 1)
           | Some affiliate =>
               if negb (is_active affiliate)
                  && bool_decide (status attribution = VERIFIED)
               then mkIssues (inactive_affiliates_with_verified issues + 1)
                      (dangling_attributions issues)
               else issues
           end) (mkIssues i j) l
  = mkIssues
      (i + Z.of_nat (length (filter
             (λ a, match aff_of (affiliate_id a) with
                   | Some aff => negb (is_active aff) && bool_decide (status a = VERIFIED)
                   | None => false
                   end = true) l)))
      (j + Z.of_nat (length (filter (λ a, aff_of (affiliate_id a) = None) l))).
Proof.
  revert i j. induction l as [|a l IH]; intros i j; simpl.
  - f_equal; lia.
  - rewrite !filter_cons. destruct (aff_of (affiliate_id a)) as [aff|] eqn:E.
    + rewrite (decide_False (P := Some aff = None)) by done.
      destruct (negb (is_active aff) && bool_decide (status a = VERIFIED)) eqn:Eb.
      * rewrite decide_True by done. rewrite IH. simpl. f_equal; lia.
      * rewrite decide_False by done. by rewrite IH.
    + rewrite decide_False by done. rewrite decide_True by done.
      rewrite IH. simpl. f_equal; lia.
Qed.

(** The health check counts as dangling the attributions whose affiliate
    is missing, whatever the links' state, and never more issues than
    there are attributions. With every link active it reports no verified
    attribution; after all links are paused it reports every verified
    attribution whose affiliate exists, and after they are resumed none. *)
Theorem run_integrity_checks_spec d :
  let issues := run_integrity_checks d in
  let paused := run_integrity_checks (fst (bulk_set_active d false)) in
  let resumed := run_integrity_checks (fst (bulk_set_active d true)) in
  dangling_attributions issues
  = Z.of_nat (length (filter (λ a, get_affiliate d (affiliate_id a) = None)
                        (attributions d)))
  ∧ 0 ≤ inactive_affiliates_with_verified issues
  ∧ inactive_affiliates_with_verified issues + dangling_attributions issues
    ≤ Z.of_nat (length (attributions d))
  ∧ (Forall (λ aff, is_active aff = true) (affiliates d) →
     inactive_affiliates_with_verified issues = 0)
  ∧ dangling_attributions paused = dangling_attributions issues
  ∧ dangling_attributions resumed = dangling_attributions issues
  ∧ inactive_affiliates_with_verified resumed = 0
  ∧ inactive_affiliates_with_verified paused
    = Z.of_nat (length (filter
        (λ a, status a = VERIFIED ∧ is_Some (get_affiliate d (affiliate_id a)))
        (attributions d))).
Proof.
  cbv zeta. unfold run_integrity_checks.
  rewrite (run_integrity_checks_counts (get_affiliate d)).
  rewrite (run_integrity_checks_counts (get_affiliate (fst (bulk_set_active d false)))).
  rewrite (run_integrity_checks_counts (get_affiliate (fst (bulk_set_active d true)))).
  cbn [inactive_affiliates_with_verified dangling_attributions].
  change (attributions (fst (bulk_set_active d false))) with (attributions d).
  change (attributions (fst (bulk_set_active d true))) with (attributions d).
  assert (∀ b, filter (λ a, get_affiliate (fst (bulk_set_active d b)) (affiliate_id a) = None)
                 (attributions d)
               = filter (λ a, get_affiliate d (affiliate_id a) = None) (attributions d))
    as Hd.
  { intros b. apply list_filter_iff. intros a. rewrite get_affiliate_bulk.
    by destruct (get_affiliate d (affiliate_id a)). }
  split; [lia|]. split; [lia|]. split; [|split; [|split; [|split; [|split]]]].
  - rewrite !Z.add_0_l, <- Nat2Z.inj_add. apply inj_le, filter_disjoint_length.
    intros a Hb Hn. by rewrite Hn in Hb.
  - intros Hall. rewrite filter_none; [done|]. apply Forall_forall.
    intros a _. destruct (get_affiliate d (affiliate_id a)) as [aff|] eqn:E; [|done].
    apply find_Some_elem in E as [Hin _]. rewrite Forall_forall in Hall.
    by rewrite (Hall _ Hin).
  - by rewrite (Hd false).
  - by rewrite (Hd true).
  - rewrite filter_none; [done|]. apply Forall_forall. intros a _.
    rewrite get_affiliate_bulk. by destruct (get_affiliate d (affiliate_id a)).
  - rewrite Z.add_0_l. do 2 f_equal. apply list_filter_iff. intros a.
    rewrite get_affiliate_bulk. destruct (get_affiliate d (affiliate_id a)); simpl.
    + rewrite bool_decide_eq_true. split; [by eauto|by intros [? _]].
    + split; [done|]. by intros [_ [? ?]].
Qed.

Section Pause.
Context `{PyLib}.

(** Pausing all links keeps the attributions as they are, and while the
    links are paused no join creates an attribution, logs an event or
    touches a timer, whatever its link. Resuming makes every link
    active again under its code. *)
Theorem paused_links_reject_joins update w :
  let paused :=
    mkWorld (fst (bulk_set_active (db w) false)) (_subnet_events w) (scheduler w) in
  let w' := _handle_join update paused in
  attributions (db paused) = attributions (db w)
  ∧ attributions (db w') = attributions (db w)
  ∧ events (db w') = events (db w)
  ∧ scheduler w' = scheduler w
  ∧ (∀ code aff,
       get_affiliate_by_code (db w) code = Some aff →
       get_affiliate_by_code (fst (bulk_set_active (db w) true)) code
       = Some (set_is_active true aff)).
Proof.
  cbv zeta. split; [done|].
  set (paused := mkWorld _ _ _).
  assert (attributions (db (_handle_join update paused)) = attributions (db w)
          ∧ events (db (_handle_join update paused)) = events (db w)
          ∧ scheduler (_handle_join update paused) = scheduler w) as (? & ? & ?);
    [|split; [done|]; split; [done|]; split; [done|]].
  { destruct (upd_invite_link update) as [link|] eqn:El;
      [|by unfold _handle_join; rewrite El].
    destruct (truthy link) eqn:Et; [|by unfold _handle_join; rewrite El, Et].
    destruct (join_decide update paused link) as [Hr|[aff Ha]]; [done| |].
    - rewrite (handle_join_rejected _ _ _ Hr). cbn [db scheduler].
      destruct (upsert_user_frame (db paused) (join_user update)
                  (tg_username (upd_new_user update))
                  (tg_first_name (upd_new_user update))
                  (tg_last_name (upd_new_user update))) as (_ & -> & -> & _).
      done.
    - destruct Ha as (_ & Ha & _ & Hact & _). exfalso.
      unfold paused in Ha. cbn [db] in Ha. rewrite get_affiliate_by_code_bulk in Ha.
      destruct (get_affiliate_by_code (db w) _); [|done].
      injection Ha as <-. done. }
  intros code aff Ha. by rewrite get_affiliate_by_code_bulk, Ha.
Qed.

End Pause.

(** ** The commands on links *)

Lemma same_ledger_refl d : same_ledger d d.
Proof. done. Qed.

Lemma same_ledger_trans d1 d2 d3 :
  same_ledger d1 d2 → same_ledger d2 d3 → same_ledger d1 d3.
Proof. intros (?&?&?&?) (?&?&?&?). repeat split; congruence. Qed.

Lemma same_ledger_upsert d uid un fn ln :
  same_ledger d (fst (upsert_user d uid un fn ln)).
Proof. unfold upsert_user. by destruct (get_user d uid). Qed.

Lemma same_ledger_set_active d aff b :
  same_ledger d (fst (set_affiliate_active d aff b)).
Proof. done. Qed.

Lemma same_ledger_create d owner link code b id d' aff :
  create_affiliate d owner link code b id = inr (d', aff) → same_ledger d d'.
Proof. unfold create_affiliate. case_bool_decide; [done|]. by intros [= <- _]. Qed.

Lemma affiliates_upsert d uid un fn ln :
  affiliates (fst (upsert_user d uid un fn ln)) = affiliates d.
Proof. unfold upsert_user. by destruct (get_user d uid). Qed.

Lemma unique_links_ext d d' :
  aff_id <$> affiliates d' = aff_id <$> affiliates d →
  owner_user_id <$> affiliates d' = owner_user_id <$> affiliates d →
  invite_link <$> affiliates d' = invite_link <$> affiliates d →
  link_code <$> affiliates d' = link_code <$> affiliates d →
  unique_links d → unique_links d'.
Proof. unfold unique_links. by intros -> -> -> ->. Qed.

Lemma unique_links_upsert d uid un fn ln :
  unique_links d → unique_links (fst (upsert_user d uid un fn ln)).
Proof. unfold unique_links. by rewrite affiliates_upsert. Qed.

Lemma unique_links_set_active d aff b :
  aff ∈ affiliates d →
  unique_links d → unique_links (fst (set_affiliate_active d aff b)).
Proof.
  intros Hin (Hid & Hrest). simpl.
  assert (∀ r, r ∈ affiliates d → aff_id r = aff_id aff → r = aff) as Hsame.
  { intros r Hr E. by apply (NoDup_fmap_elem_inj aff_id (affiliates d)). }
  apply (unique_links_ext d); [..|done]; simpl; rewrite <- list_fmap_compose;
    apply list_fmap_ext; intros i r Hr; simpl;
    (destruct (decide (aff_id r = aff_id aff)) as [E|]; [|done]);
    apply list_elem_of_lookup_2 in Hr; by rewrite (Hsame r Hr E).
Qed.

Lemma unique_links_bulk d b : unique_links d → unique_links (fst (bulk_set_active d b)).
Proof.
  apply (unique_links_ext d); simpl; rewrite <- list_fmap_compose;
    by apply list_fmap_ext.
Qed.

Lemma NoDup_snoc_fmap {A B} (f : A → B) (l : list A) (x : A) :
  NoDup (f <$> l) → Forall (λ y, f y ≠ f x) l → NoDup (f <$> (l ++ [x])).
Proof.
  intros Hnd Hf. rewrite fmap_app. apply NoDup_app. split; [done|]. split.
  - intros y Hy Hx. apply list_elem_of_singleton in Hx. subst.
    apply list_elem_of_fmap in Hy as (z & E & Hz). rewrite Forall_forall in Hf.
    by apply (Hf z).
  - apply NoDup_singleton.
Qed.

Lemma unique_links_create d owner link code b id d' aff :
  id ∉ aff_id <$> affiliates d →
  create_affiliate d owner link code b id = inr (d', aff) →
  unique_links d →
  unique_links d'
  ∧ affiliates d' = affiliates d ++ [mkAffiliate id (user_id owner) link code b]
  ∧ aff = mkAffiliate id (user_id owner) link code b.
Proof.
  intros Hid. unfold create_affiliate. case_bool_decide as Hex; [done|].
  intros [= <- <-] (H1 & H2 & H3 & H4). split; [|done].
  rewrite Exists_exists in Hex.
  split; [|split; [|split]]; simpl; apply NoDup_snoc_fmap; try done;
    apply Forall_forall; intros y Hy E; simpl in E.
  - apply Hid. apply list_elem_of_fmap. eauto.
  - apply Hex. exists y. auto.
  - apply Hex. exists y. auto.
  - apply Hex. exists y. auto.
Qed.

Lemma get_user_id d uid u : get_user d uid = Some u → user_id u = uid.
Proof. intros Hg. by apply find_Some_elem in Hg as [_ ?]. Qed.

Lemma get_affiliate_by_owner_elem d uid aff :
  get_affiliate_by_owner d uid = Some aff →
  aff ∈ affiliates d ∧ owner_user_id aff = uid.
Proof. intros Hg. by apply find_Some_elem in Hg. Qed.

Section Links.
Context `{PyLib} `{PyText} `{PyFloat}.

(** What a command on links does to the database: the ledger is left as
    it is and the constraints of the [affiliates] table are kept. *)
Lemma my_link_effect message chat_invite new_id bot :
  let d' := bot_db (fst (handle_my_link message chat_invite new_id bot)) in
  same_ledger (bot_db bot) d'
  ∧ (new_id ∉ aff_id <$> affiliates (bot_db bot) →
     unique_links (bot_db bot) → unique_links d').
Proof.
  cbv zeta. unfold handle_my_link.
  destruct (_rate_limit _ _ _ _) as [[] limiter]; cbn [negb]; [|done].
  destruct (msg_from_user message) as [u|]; [|done].
  destruct (upsert_user (bot_db bot) _ _ _ _) as [db1 user] eqn:E1.
  assert (db1 = fst (upsert_user (bot_db bot) (tg_id u) (tg_username u)
                       (tg_first_name u) (tg_last_name u))) as Hdb1 by by rewrite E1.
  assert (same_ledger (bot_db bot) db1) as Hl1
    by (rewrite Hdb1; apply same_ledger_upsert).
  assert (unique_links (bot_db bot) → unique_links db1) as Hu1
    by (rewrite Hdb1; apply unique_links_upsert).
  assert (affiliates db1 = affiliates (bot_db bot)) as Ha1
    by (rewrite Hdb1; apply affiliates_upsert).
  destruct (get_affiliate_by_owner db1 (user_id user)) as [aff|] eqn:Eo.
  - apply get_affiliate_by_owner_elem in Eo as [Hin _].
    destruct (is_active aff); cbn [negb].
    + destruct (truthy (invite_link aff)); cbn [negb fst bot_db]; auto.
    + destruct (truthy (invite_link aff)); cbn [negb fst bot_db];
        (split; [done|]); intros _ Hu; apply unique_links_set_active; auto.
  - destruct chat_invite as [link|]; [|cbn [fst bot_db]; auto].
    destruct (upsert_user db1 _ _ _ _) as [db2 user2] eqn:E2.
    assert (db2 = fst (upsert_user db1 (tg_id u) (tg_username u)
                         (tg_first_name u) (tg_last_name u))) as Hdb2 by by rewrite E2.
    destruct (create_affiliate db2 user2 link _ true new_id) as [e|[db3 aff]] eqn:Ec;
      [cbn [fst bot_db]; auto|].
    assert (same_ledger (bot_db bot) db3 ∧
            (new_id ∉ aff_id <$> affiliates (bot_db bot) →
             unique_links (bot_db bot) → unique_links db3)) as Hres.
    { split.
      - eapply same_ledger_trans; [exact Hl1|].
        eapply same_ledger_trans; [|by eapply same_ledger_create].
        rewrite Hdb2. apply same_ledger_upsert.
      - intros Hid Hu. eapply unique_links_create; [|exact Ec|].
        + by rewrite Hdb2, affiliates_upsert, Ha1.
        + rewrite Hdb2. by apply unique_links_upsert, Hu1. }
    by destruct (truthy link).
Qed.

Lemma activation_effect message bot :
  let d1 := bot_db (fst (handle_deactivate message bot)) in
  let d2 := bot_db (fst (handle_reactivate message bot)) in
  same_ledger (bot_db bot) d1 ∧ same_ledger (bot_db bot) d2
  ∧ (unique_links (bot_db bot) → unique_links d1 ∧ unique_links d2).
Proof.
  cbv zeta. unfold handle_deactivate, handle_reactivate.
  destruct (_rate_limit _ (py "deactivate") _ _) as [[] l1],
           (_rate_limit _ (py "reactivate") _ _) as [[] l2]; cbn [negb];
    destruct (msg_from_user message) as [u|]; try done;
    destruct (get_user (bot_db bot) (tg_id u)) as [user|]; try done;
    destruct (get_affiliate_by_owner (bot_db bot) (user_id user)) as [aff|] eqn:Eo;
    try done;
    apply get_affiliate_by_owner_elem in Eo as [Hin _];
    destruct (is_active aff); cbn [negb fst bot_db];
    (split; [done|]); (split; [done|]); intros Hu;
    (split; [try done|try done]); by apply unique_links_set_active.
Qed.

Lemma admin_links_effect message bot :
  let d1 := bot_db (fst (handle_pause_links message bot)) in
  let d2 := bot_db (fst (handle_resume_links message bot)) in
  same_ledger (bot_db bot) d1 ∧ same_ledger (bot_db bot) d2
  ∧ (unique_links (bot_db bot) → unique_links d1 ∧ unique_links d2).
Proof.
  cbv zeta. unfold handle_pause_links, handle_resume_links.
  destruct (_ensure_admin message); cbn [fst bot_db]; [done|].
  split; [done|]. split; [done|]. intros Hu. split; by apply unique_links_bulk.
Qed.

Lemma same_ledger_other_command tc d d' ev s :
  same_ledger d d' →
  mkWorld d' ev s
  = react tc (OtherCommand (users d') (affiliates d')) (mkWorld d ev s).
Proof.
  intros (Ha & He & Hs & Hs'). cbn. f_equal. destruct d'. simpl in *. by subst.
Qed.

(** The commands [/mylink], [/deactivate], [/reactivate], [/pause_links]
    and [/resume_links] write the [users] and [affiliates] tables only:
    the attributions, the events and their sequences are left as they
    are, so each of them acts on the world as an [OtherCommand]. They
    keep the keys, owners, invite links and link codes of the affiliates
    distinct, [/mylink] provided the key of a new row is not in use. *)
Theorem link_commands_frame tc message chat_invite new_id bot ev s :
  let d := bot_db bot in
  let results :=
    [ bot_db (fst (handle_my_link message chat_invite new_id bot));
      bot_db (fst (handle_deactivate message bot));
      bot_db (fst (handle_reactivate message bot));
      bot_db (fst (handle_pause_links message bot));
      bot_db (fst (handle_resume_links message bot)) ] in
  Forall (λ d',
            same_ledger d d'
            ∧ mkWorld d' ev s
              = react tc (OtherCommand (users d') (affiliates d')) (mkWorld d ev s)
            ∧ (new_id ∉ aff_id <$> affiliates d → unique_links d → unique_links d'))
    results.
Proof.
  cbv zeta.
  destruct (my_link_effect message chat_invite new_id bot) as [Hm Hmu].
  destruct (activation_effect message bot) as (Hd & Hr & Hau).
  destruct (admin_links_effect message bot) as (Hp & Hs & Hbu).
  repeat (apply Forall_cons; split;
          [split; [done|split; [by apply same_ledger_other_command|]]|]);
    [done|intros _ Hu; by apply Hau|intros _ Hu; by apply Hau
    |intros _ Hu; by apply Hbu|intros _ Hu; by apply Hbu|constructor].
Qed.

End Links.

Lemma find_unique {A B} `{EqDecision B} (f : A → B) (l : list A) (a : A) :
  NoDup (f <$> l) → a ∈ l → snd <$> list_find (λ x, f x = f a) l = Some a.
Proof.
  intros Hnd Hin.
  destruct (find_is_Some (λ x, f x = f a) l a Hin eq_refl) as [x Hx].
  rewrite Hx. f_equal. apply find_Some_elem in Hx as [Hxin Hfx].
  by apply (NoDup_fmap_elem_inj f l).
Qed.

Lemma set_is_active_same aff : set_is_active (is_active aff) aff = aff.
Proof. by destruct aff. Qed.

Lemma set_affiliate_active_undo d aff b :
  NoDup (aff_id <$> affiliates d) → aff ∈ affiliates d →
  fst (set_affiliate_active (fst (set_affiliate_active d aff b))
         (set_is_active b aff) (is_active aff)) = d.
Proof.
  intros Hnd Hin. unfold set_affiliate_active at 1. cbn [fst].
  unfold with_affiliates. cbn [users attributions events attribution_seq event_seq].
  change (affiliates (set_affiliate_active d aff b).1)
    with ((λ r, if decide (aff_id r = aff_id aff) then set_is_active b aff else r)
            <$> affiliates d).
  rewrite <- list_fmap_compose.
  rewrite (list_fmap_ext _ id (affiliates d)); [rewrite list_fmap_id; by destruct d|].
  intros i r Hr. apply list_elem_of_lookup_2 in Hr. simpl.
  destruct (decide (aff_id r = aff_id aff)) as [E|E].
  - rewrite decide_True by done.
    assert (r = aff) as -> by by apply (NoDup_fmap_elem_inj aff_id (affiliates d)).
    by destruct aff.
  - by rewrite decide_False.
Qed.

Section Deactivation.
Context `{PyLib} `{PyText} `{PyFloat}.

(** An owner who deactivates an active link, within the quota of the rate
    limiter: the link is found inactive under its key and under its code,
    the other links are as before, and a join through an invite link with
    this code creates no attribution. When the owner then reactivates
    the link, the database is as it was before the two commands. *)
Theorem deactivate_stops_attribution message bot tg_user aff :
  unique_links (bot_db bot) →
  msg_from_user message = Some tg_user →
  fst (_rate_limit (Some tg_user) (py "deactivate") (msg_time message)
         (rate_limiter bot)) = true →
  is_Some (get_user (bot_db bot) (tg_id tg_user)) →
  get_affiliate_by_owner (bot_db bot) (tg_id tg_user) = Some aff →
  is_active aff = true →
  let bot' := fst (handle_deactivate message bot) in
  get_affiliate (bot_db bot') (aff_id aff) = Some (set_is_active false aff)
  ∧ get_affiliate_by_code (bot_db bot') (link_code aff) = Some (set_is_active false aff)
  ∧ (∀ other,
       other ∈ affiliates (bot_db bot) → other ≠ aff →
       other ∈ affiliates (bot_db bot')
       ∧ get_affiliate_by_code (bot_db bot') (link_code other) = Some other)
  ∧ (∀ update ev s link,
       join_link update link → extract_link_code link = link_code aff →
       attributions (db (_handle_join update (mkWorld (bot_db bot') ev s)))
       = attributions (bot_db bot))
  ∧ (∀ message',
       msg_from_user message' = Some tg_user →
       fst (_rate_limit (Some tg_user) (py "reactivate") (msg_time message')
              (rate_limiter bot')) = true →
       bot_db (fst (handle_reactivate message' bot')) = bot_db bot).
Proof.
  intros (Hid & Hown & Hlink & Hcode) Hm Hrate [user Hu] Ha Hact. cbv zeta.
  pose proof (get_user_id _ _ _ Hu) as Huid.
  pose proof (get_affiliate_by_owner_elem _ _ _ Ha) as [Hin Howner].
  assert (handle_deactivate message bot
          = (mkBot (fst (set_affiliate_active (bot_db bot) aff false))
               (snd (_rate_limit (Some tg_user) (py "deactivate") (msg_time message)
                       (rate_limiter bot))),
             py "Your affiliate link has been deactivated. Use /reactivate when you are ready to share it again."))
    as ->.
  { unfold handle_deactivate. rewrite Hm.
    destruct (_rate_limit _ _ _ _) as [allowed limiter]. simpl in Hrate. subst allowed.
    cbn [negb snd]. rewrite Hu, Huid, Ha, Hact. done. }
  cbn [fst bot_db rate_limiter].
  set (d' := fst (set_affiliate_active (bot_db bot) aff false)).
  assert (get_affiliate d' (aff_id aff) = Some (set_is_active false aff)) as Hg1.
  { unfold get_affiliate, d'. simpl.
    apply (find_replace _ (λ r, aff_id r = aff_id aff)) with aff; try done.
    by apply (find_unique aff_id). }
  assert (get_affiliate_by_code d' (link_code aff) = Some (set_is_active false aff))
    as Hg2.
  { unfold get_affiliate_by_code, d'. simpl.
    apply (find_replace _ (λ r, aff_id r = aff_id aff)) with aff; try done.
    by apply (find_unique link_code). }
  assert (get_affiliate_by_owner d' (tg_id tg_user) = Some (set_is_active false aff))
    as Hg3.
  { unfold get_affiliate_by_owner, d'. simpl.
    apply (find_replace _ (λ r, aff_id r = aff_id aff)) with aff; done. }
  split; [done|]. split; [done|]. split; [|split].
  - intros other Ho Hne.
    assert (aff_id other ≠ aff_id aff) as Hne'.
    { intros E. by apply Hne, (NoDup_fmap_elem_inj aff_id (affiliates (bot_db bot))). }
    split.
    + unfold d'. simpl. apply list_elem_of_fmap. exists other.
      by rewrite decide_False.
    + unfold get_affiliate_by_code, d'. simpl.
      rewrite (find_replace_ne (λ r, link_code r = link_code other)
                 (λ r, aff_id r = aff_id aff)).
      * by apply (find_unique link_code).
      * apply Forall_forall. intros x Hx E E'. apply Hne'. rewrite <- E. f_equal.
        symmetry. by apply (NoDup_fmap_elem_inj link_code (affiliates (bot_db bot))).
      * simpl. intros E. apply Hne.
        by apply (NoDup_fmap_elem_inj link_code (affiliates (bot_db bot))).
  - intros update ev s link Hl Hc.
    rewrite (rejected_join_attributions update (mkWorld d' ev s) link); [done|].
    split; [done|]. right. left. exists (set_is_active false aff).
    cbn [db]. rewrite Hc. split; [done|by left].
  - intros message' Hm' Hrate'. unfold handle_reactivate. rewrite Hm'.
    cbn [rate_limiter bot_db] in *.
    destruct (_rate_limit (Some tg_user) (py "reactivate") _ _) as [allowed limiter].
    simpl in Hrate'. subst allowed. cbn [negb bot_db].
    assert (get_user d' (tg_id tg_user) = Some user) as -> by done.
    rewrite Huid, Hg3. cbn [is_active set_is_active fst bot_db].
    pose proof (set_affiliate_active_undo (bot_db bot) aff false Hid Hin) as E.
    by rewrite Hact in E.
Qed.

End Deactivation.

Lemma sample_bot_unique_links : unique_links (bot_db sample_bot).
Proof. repeat split; apply NoDup_singleton. Qed.

Lemma deactivate_stops_attribution_witness :
  get_affiliate_by_code
    (bot_db (fst (@handle_deactivate sample_float (sample_message 100 1000) sample_bot)))
    (py "+abc")
  = Some (mkAffiliate 1 100 (py "https://t.me/+abc") (py "+abc") false).
Proof.
  pose proof (@deactivate_stops_attribution sample_lib sample_float
                (sample_message 100 1000) sample_bot (sample_tg 100)
                (mkAffiliate 1 100 (py "https://t.me/+abc") (py "+abc") true)
                sample_bot_unique_links eq_refl eq_refl
                (mk_is_Some _ _ eq_refl) eq_refl eq_refl) as Hs.
  cbv zeta in Hs. destruct Hs as (_ & Hs & _). exact Hs.
Defined.

Lemma upsert_user_twice d uid un fn ln :
  fst (upsert_user (fst (upsert_user d uid un fn ln)) uid un fn ln)
  = fst (upsert_user d uid un fn ln).
Proof.
  unfold upsert_user at 1. rewrite get_user_upsert. cbn [fst].
  unfold with_users. destruct (upsert_user d uid un fn ln) as [d' u] eqn:E.
  cbn [fst]. assert (d' = fst (upsert_user d uid un fn ln)) as Hd by by rewrite E.
  assert ((λ r, if decide (user_id r = uid) then mkUser uid un fn ln else r) <$> users d'
          = users d') as ->; [|by destruct d'].
  rewrite <- (list_fmap_id (users d')) at 2. apply list_fmap_ext. intros i r Hr. simpl.
  destruct (decide (user_id r = uid)) as [Hid|]; [|done].
  apply list_elem_of_lookup_2 in Hr. rewrite Hd in Hr. unfold upsert_user in Hr.
  destruct (get_user d uid) eqn:Eg; simpl in Hr.
  - apply list_elem_of_fmap in Hr as (x & -> & _).
    by destruct (decide (user_id x = uid)).
  - apply elem_of_app in Hr as [Hr|Hr]; [|by apply list_elem_of_singleton in Hr].
    apply find_None_elem in Eg. rewrite Forall_forall in Eg. by destruct (Eg r).
Qed.

Section MyLink.
Context `{PyLib} `{PyText} `{PyFloat}.

(** A user without a link asks for one, within the quota of the rate
    limiter, and the gateway creates an invite link that is new to the
    table: the link is stored as an active affiliate of the user under
    its code, the constraints of the table are kept, and a join through
    this invite link by another user who has no attribution yet is
    attributed to the new affiliate. Asking again returns the same link
    and changes nothing. *)
Theorem my_link_creates_usable_link message new_id bot tg_user link :
  unique_links (bot_db bot) →
  msg_from_user message = Some tg_user →
  fst (_rate_limit (Some tg_user) (py "mylink") (msg_time message)
         (rate_limiter bot)) = true →
  get_affiliate_by_owner (bot_db bot) (tg_id tg_user) = None →
  truthy link = true →
  new_id ∉ aff_id <$> affiliates (bot_db bot) →
  Forall (λ a, invite_link a ≠ link ∧ link_code a ≠ extract_link_code link)
    (affiliates (bot_db bot)) →
  let r := handle_my_link message (Some link) new_id bot in
  let aff := mkAffiliate new_id (tg_id tg_user) link (extract_link_code link) true in
  snd r = inr (my_link_text (py "Your affiliate link is ready!") link
                 (extract_link_code link))
  ∧ affiliates (bot_db (fst r)) = affiliates (bot_db bot) ++ [aff]
  ∧ unique_links (bot_db (fst r))
  ∧ get_affiliate_by_owner (bot_db (fst r)) (tg_id tg_user) = Some aff
  ∧ get_affiliate_by_code (bot_db (fst r)) (extract_link_code link) = Some aff
  ∧ (∀ update ev s,
       upd_invite_link update = Some link →
       join_user update ≠ tg_id tg_user →
       get_attribution_by_user (bot_db bot) (join_user update) = None →
       ∃ a, get_attribution_by_user
              (db (_handle_join update (mkWorld (bot_db (fst r)) ev s)))
              (join_user update) = Some a
            ∧ affiliate_id a = new_id ∧ status a = PENDING)
  ∧ (∀ message' chat_invite' new_id',
       msg_from_user message' = Some tg_user →
       fst (_rate_limit (Some tg_user) (py "mylink") (msg_time message')
              (rate_limiter (fst r))) = true →
       let r' := handle_my_link message' chat_invite' new_id' (fst r) in
       bot_db (fst r') = bot_db (fst r)
       ∧ snd r' = inr (my_link_text (py "Your affiliate link is active.") link
                         (extract_link_code link))).
Proof.
  intros Hu Hm Hrate Hnone Hlink Hid Hnew. cbv zeta.
  set (d1 := fst (upsert_user (bot_db bot) (tg_id tg_user) (tg_username tg_user)
                    (tg_first_name tg_user) (tg_last_name tg_user))).
  set (aff := mkAffiliate new_id (tg_id tg_user) link (extract_link_code link) true).
  set (limiter := snd (_rate_limit (Some tg_user) (py "mylink") (msg_time message)
                         (rate_limiter bot))).
  assert (affiliates d1 = affiliates (bot_db bot)) as Ha1 by apply affiliates_upsert.
  assert (handle_my_link message (Some link) new_id bot
          = (mkBot (with_affiliates (affiliates d1 ++ [aff]) d1) limiter,
             inr (my_link_text (py "Your affiliate link is ready!") link
                    (extract_link_code link)))) as Er.
  { unfold handle_my_link. rewrite Hm. fold limiter.
    destruct (_rate_limit _ _ _ _) as [allowed l0]. simpl in Hrate. subst allowed.
    cbn [negb snd] in *. subst limiter.
    pose proof (upsert_user_id (bot_db bot) (tg_id tg_user) (tg_username tg_user)
                  (tg_first_name tg_user) (tg_last_name tg_user)) as Hid1.
    fold d1. destruct (upsert_user (bot_db bot) _ _ _ _) as [db1 user] eqn:E1.
    cbn [snd fst] in *. subst d1. cbn [fst] in *. rewrite Hid1.
    assert (get_affiliate_by_owner db1 (tg_id tg_user) = None) as ->.
    { unfold get_affiliate_by_owner. by rewrite Ha1. }
    pose proof (upsert_user_id db1 (tg_id tg_user) (tg_username tg_user)
                  (tg_first_name tg_user) (tg_last_name tg_user)) as Hid2.
    pose proof (upsert_user_twice (bot_db bot) (tg_id tg_user) (tg_username tg_user)
                  (tg_first_name tg_user) (tg_last_name tg_user)) as Htw.
    rewrite E1 in Htw. cbn [fst] in Htw.
    destruct (upsert_user db1 _ _ _ _) as [db2 user2] eqn:E2. cbn [fst snd] in *.
    subst db2. unfold create_affiliate. rewrite Hid2.
    rewrite bool_decide_eq_false_2.
    - by rewrite Hlink.
    - rewrite Ha1. rewrite Exists_exists. intros (a & Hin & Hc).
      rewrite Forall_forall in Hnew. destruct (Hnew a Hin) as [? ?].
      destruct Hc as [?|[?|Ho]]; [done|done|].
      apply find_None_elem in Hnone. rewrite Forall_forall in Hnone.
      by apply (Hnone a). }
  rewrite Er. cbn [fst snd bot_db rate_limiter].
  set (d' := with_affiliates (affiliates d1 ++ [aff]) d1).
  assert (unique_links d') as Hu'.
  { destruct (unique_links_create d1 (mkUser (tg_id tg_user) None None None) link
                (extract_link_code link) true new_id d' aff) as [Hres _]; try done.
    - by rewrite Ha1.
    - unfold create_affiliate. rewrite bool_decide_eq_false_2; [done|].
      rewrite Ha1. rewrite Exists_exists. intros (a & Hin & Hc).
      rewrite Forall_forall in Hnew. destruct (Hnew a Hin) as [? ?].
      destruct Hc as [?|[?|Ho]]; [done|done|].
      apply find_None_elem in Hnone. rewrite Forall_forall in Hnone.
      by apply (Hnone a).
    - by apply unique_links_upsert. }
  destruct Hu' as (Hid' & Hown' & Hlink' & Hcode').
  assert (aff ∈ affiliates d') as Hin' by (simpl; set_solver).
  assert (get_affiliate_by_owner d' (tg_id tg_user) = Some aff) as Hgo
    by by apply (find_unique owner_user_id (affiliates d') aff).
  assert (get_affiliate_by_code d' (extract_link_code link) = Some aff) as Hgc
    by by apply (find_unique link_code (affiliates d') aff).
  split; [done|]. split; [by rewrite <- Ha1|]. split; [done|]. split; [done|].
  split; [done|]. split.
  - intros update ev s Hl Hne Hnoattr.
    assert (join_accepted update (mkWorld d' ev s) link aff) as Hacc.
    { split; [done|]. split; [done|]. split; [simpl; congruence|]. split; [done|].
      cbn [db]. unfold get_attribution_by_user, d', d1. simpl.
      rewrite attributions_upsert_user. exact Hnoattr. }
    destruct (handle_join_accepted _ _ _ _ Hacc) as (Hattr & _). cbv zeta in Hattr.
    cbn [db] in Hattr. unfold get_attribution_by_user. rewrite Hattr.
    set (new := new_attribution update (mkWorld d' ev s) aff
                  (join_reasons update (mkWorld d' ev s))).
    assert (snd <$> list_find (λ a, joined_user_id a = join_user update)
                      (attributions d' ++ [new]) = Some new) as Hf.
    { destruct (find_is_Some (λ a, joined_user_id a = join_user update)
                  (attributions d' ++ [new]) new) as [x Hx]; [set_solver|done|].
      rewrite Hx. f_equal. apply find_Some_elem in Hx as [Hxin Hxu].
      apply elem_of_app in Hxin as [Hxin|Hxin];
        [|by apply list_elem_of_singleton in Hxin].
      exfalso. destruct Hacc as (_ & _ & _ & _ & Hn). cbn [db] in Hn.
      apply find_None_elem in Hn. rewrite Forall_forall in Hn. by apply (Hn x). }
    destruct (burst_reported update (mkWorld d' ev s)).
    + rewrite (find_fmap_same (λ a, joined_user_id a = join_user update)).
      * rewrite Hf. simpl. eexists. split; [done|].
        by destruct (in_burst _ _ new).
      * intros x. by destruct (in_burst _ _ x).
    + rewrite Hf. by exists new.
  - intros message' chat_invite' new_id' Hm' Hrate'. cbv zeta.
    unfold handle_my_link. rewrite Hm'. cbn [rate_limiter bot_db].
    destruct (_rate_limit (Some tg_user) (py "mylink") (msg_time message') limiter)
      as [allowed l0]. simpl in Hrate'. subst allowed. cbn [negb].
    pose proof (upsert_user_id d' (tg_id tg_user) (tg_username tg_user)
                  (tg_first_name tg_user) (tg_last_name tg_user)) as Hid1.
    assert (fst (upsert_user d' (tg_id tg_user) (tg_username tg_user)
                   (tg_first_name tg_user) (tg_last_name tg_user)) = d') as Hsame.
    { unfold d'. unfold upsert_user, get_user. cbn [users with_affiliates].
      fold (get_user d1 (tg_id tg_user)). unfold d1 at 1. rewrite get_user_upsert.
      cbn [fst]. unfold with_users, with_affiliates. simpl. f_equal.
      pose proof (upsert_user_twice (bot_db bot) (tg_id tg_user) (tg_username tg_user)
                    (tg_first_name tg_user) (tg_last_name tg_user)) as Htw.
      fold d1 in Htw. unfold upsert_user at 1 in Htw.
      unfold d1 at 1 in Htw. rewrite get_user_upsert in Htw. cbn [fst] in Htw.
      by apply (f_equal users) in Htw. }
    destruct (upsert_user d' _ _ _ _) as [db1 user] eqn:E1. cbn [fst snd] in *.
    subst db1. rewrite Hid1, Hgo. cbn [is_active aff negb invite_link link_code].
    rewrite Hlink. done.
Qed.

End MyLink.

Lemma my_link_creates_usable_link_witness :
  get_affiliate_by_code
    (bot_db (fst (@handle_my_link sample_lib sample_float (sample_message 200 1000)
                    (Some (py "https://t.me/+zzz")) 2 sample_bot)))
    (py "+zzz")
  = Some (mkAffiliate 2 200 (py "https://t.me/+zzz") (py "+zzz") true).
Proof.
  assert (Forall (λ a, invite_link a ≠ py "https://t.me/+zzz"
                       ∧ link_code a ≠ @extract_link_code sample_lib
                                          (py "https://t.me/+zzz"))
            (affiliates (bot_db sample_bot))) as Hnew.
  { repeat constructor; by vm_compute. }
  assert (2 ∉ aff_id <$> affiliates (bot_db sample_bot)) as Hid.
  { intros Hin. apply list_elem_of_singleton in Hin. discriminate Hin. }
  pose proof (@my_link_creates_usable_link sample_lib sample_float
                (sample_message 200 1000) 2 sample_bot (sample_tg 200)
                (py "https://t.me/+zzz")
                sample_bot_unique_links eq_refl eq_refl eq_refl eq_refl Hid Hnew) as Hs.
  cbv zeta in Hs. destruct Hs as (_ & _ & _ & _ & Hs & _). exact Hs.
Defined.

(** ** The rate limiter *)

Section RateLimiterFacts.
Context `{PyFloat}.

Lemma hit_fields limiter uid now t :
  let r := hit limiter uid now t in
  per_seconds (snd r) = per_seconds limiter
  ∧ max_calls (snd r) = max_calls limiter
  ∧ ∀ v, v ≠ uid → _bucket (snd r) !! v = _bucket limiter !! v.
Proof.
  cbv zeta. unfold hit. cbn. split; [done|]. split; [done|].
  intros v Hv. by rewrite lookup_insert_ne.
Qed.

Lemma hit_bucket limiter uid now t :
  let r := hit limiter uid now t in
  let recent :=
    filter (λ ts, float_gt ts (float_sub (call_current (mkCall uid now t))
                                 (per_seconds limiter)) = true)
      (default [] (_bucket limiter !! uid)) in
  fst r = bool_decide (Z.of_nat (length recent) < max_calls limiter)
  ∧ _bucket (snd r) !! uid
    = Some (if fst r then recent ++ [call_current (mkCall uid now t)] else recent).
Proof. cbv zeta. unfold hit. cbn. split; [done|]. by rewrite lookup_insert_eq. Qed.

Lemma hits_cons c calls limiter :
  hits (c :: calls) limiter
  = (fst (hit limiter (call_user c) (call_now c) (call_time c))
     :: fst (hits calls (snd (hit limiter (call_user c) (call_now c) (call_time c)))),
     snd (hits calls (snd (hit limiter (call_user c) (call_now c) (call_time c))))).
Proof.
  cbn [hits]. destruct (hit limiter (call_user c) (call_now c) (call_time c)) as [a l'].
  cbn [fst snd]. by destruct (hits calls l').
Qed.

Lemma hits_length calls limiter : length (fst (hits calls limiter)) = length calls.
Proof.
  revert limiter. induction calls as [|c calls IH]; intros limiter; [done|].
  rewrite hits_cons. simpl. by rewrite IH.
Qed.

Lemma hits_invariant calls limiter :
  0 ≤ max_calls limiter →
  (∀ uid bucket, _bucket limiter !! uid = Some bucket →
                 Z.of_nat (length bucket) ≤ max_calls limiter) →
  let r := hits calls limiter in
  per_seconds (snd r) = per_seconds limiter
  ∧ max_calls (snd r) = max_calls limiter
  ∧ ∀ uid bucket, _bucket (snd r) !! uid = Some bucket →
      Z.of_nat (length bucket) ≤ max_calls limiter
      ∧ Forall (λ ts,
                  ts ∈ default [] (_bucket limiter !! uid)
                  ∨ ∃ c, (c, true) ∈ zip calls (fst r)
                         ∧ call_user c = uid ∧ call_current c = ts) bucket.
Proof.
  revert limiter. induction calls as [|c calls IH]; intros limiter Hmax Hb; cbv zeta.
  - simpl. split; [done|]. split; [done|]. intros uid bucket Hl.
    split; [by eapply Hb|]. rewrite Hl. simpl. apply Forall_forall. auto.
  - rewrite hits_cons. cbn [fst snd].
    destruct (hit_fields limiter (call_user c) (call_now c) (call_time c))
      as (Hp & Hm & Hother).
    destruct (hit_bucket limiter (call_user c) (call_now c) (call_time c))
      as (Hv & Hu). cbv zeta in Hv, Hu.
    set (l' := snd (hit limiter (call_user c) (call_now c) (call_time c))) in *.
    set (a := fst (hit limiter (call_user c) (call_now c) (call_time c))) in *.
    set (recent := filter _ (default [] (_bucket limiter !! call_user c))) in *.
    assert (Z.of_nat (length recent) ≤ max_calls limiter) as Hrecent.
    { destruct (_bucket limiter !! call_user c) as [b|] eqn:E; simpl in *.
      - pose proof (Hb _ _ E). pose proof (length_filter
          (λ ts, float_gt ts (float_sub (call_current (mkCall (call_user c)
             (call_now c) (call_time c))) (per_seconds limiter)) = true) b).
        subst recent. lia.
      - subst recent. simpl. lia. }
    destruct (IH l') as (Hp' & Hm' & Hb').
    { by rewrite Hm. }
    { intros uid bucket Hl. rewrite Hm.
      destruct (decide (uid = call_user c)) as [->|Hne].
      - rewrite Hu in Hl. injection Hl as <-. destruct a eqn:Ea; [|done].
        rewrite length_app. simpl. symmetry in Hv. apply bool_decide_eq_true in Hv. lia.
      - rewrite Hother in Hl by done. by eapply Hb. }
    split; [congruence|]. split; [congruence|].
    intros uid bucket Hl. destruct (Hb' uid bucket Hl) as [Hlen Hall].
    split; [by rewrite <- Hm|].
    eapply Forall_impl; [exact Hall|]. intros ts [Hin|(c' & Hc' & Hcu & Hct)].
    + destruct (decide (uid = call_user c)) as [->|Hne].
      * rewrite Hu in Hin. simpl in Hin.
        assert (ts ∈ recent ∨ (a = true ∧ ts = call_current c)) as [Hr|[Ha ->]].
        { destruct a; [|by left]. apply elem_of_app in Hin as [?|Hin]; [by left|].
          apply list_elem_of_singleton in Hin. right. split; [done|].
          subst ts. by destruct c. }
        -- left. by apply list_elem_of_filter in Hr as [_ ?].
        -- right. exists c. rewrite Ha. split; [apply list_elem_of_here|done].
      * left. by rewrite Hother in Hin.
    + right. exists c'. split; [by apply list_elem_of_further|done].
Qed.

(** A limiter that starts empty never keeps more than [max_calls] time
    stamps for a user, as long as [max_calls] is not negative, and every
    time stamp it keeps for a user is the time of a call of this user
    that it allowed: a call it refused leaves no trace. *)
Theorem hits_bucket_bound per_minutes max calls :
  0 ≤ max →
  let r := hits calls (RateLimiter_init per_minutes max) in
  per_seconds (snd r) = per_minutes * 60
  ∧ max_calls (snd r) = max
  ∧ length (fst r) = length calls
  ∧ ∀ uid bucket, _bucket (snd r) !! uid = Some bucket →
      Z.of_nat (length bucket) ≤ max
      ∧ Forall (λ ts, ∃ c, (c, true) ∈ zip calls (fst r)
                           ∧ call_user c = uid ∧ call_current c = ts) bucket.
Proof.
  intros Hmax. cbv zeta.
  destruct (hits_invariant calls (RateLimiter_init per_minutes max)) as (Hp & Hm & Hb);
    [done|done|].
  split; [done|]. split; [done|]. split; [apply hits_length|].
  intros uid bucket Hl. destruct (Hb uid bucket Hl) as [Hlen Hall].
  split; [done|]. eapply Forall_impl; [exact Hall|].
  intros ts [Hin|?]; [|done]. simpl in Hin. rewrite lookup_empty in Hin.
  by apply elem_of_nil in Hin.
Qed.

(** The calls of other users do not change the verdict on a call of a
    user, nor the time stamps kept for this user. *)
Theorem hit_other_users calls limiter uid now t :
  Forall (λ c, call_user c ≠ uid) calls →
  let limiter' := snd (hits calls limiter) in
  fst (hit limiter' uid now t) = fst (hit limiter uid now t)
  ∧ _bucket (snd (hit limiter' uid now t)) !! uid
    = _bucket (snd (hit limiter uid now t)) !! uid.
Proof.
  intros Hall. cbv zeta.
  assert (per_seconds (snd (hits calls limiter)) = per_seconds limiter
          ∧ max_calls (snd (hits calls limiter)) = max_calls limiter
          ∧ _bucket (snd (hits calls limiter)) !! uid = _bucket limiter !! uid)
    as (Hp & Hm & Hb).
  { revert limiter. induction Hall as [|c calls Hc _ IH]; intros limiter; [done|].
    rewrite hits_cons. cbn [snd].
    destruct (hit_fields limiter (call_user c) (call_now c) (call_time c))
      as (Hp & Hm & Hother).
    destruct (IH (snd (hit limiter (call_user c) (call_now c) (call_time c))))
      as (-> & -> & ->).
    split; [done|]. split; [done|]. by apply Hother. }
  destruct (hit_bucket (snd (hits calls limiter)) uid now t) as [-> ->].
  destruct (hit_bucket limiter uid now t) as [-> ->].
  by rewrite Hp, Hm, Hb.
Qed.

End RateLimiterFacts.

Lemma hits_bucket_bound_witness :
  let calls := [@mkCall sample_float 7 None 10; @mkCall sample_float 7 None 11;
                @mkCall sample_float 7 None 12] in
  fst (@hits sample_float calls (@RateLimiter_init sample_float 1 2))
  = [true; true; false]
  ∧ ∀ bucket,
      _bucket (snd (@hits sample_float calls (@RateLimiter_init sample_float 1 2))) !! 7
      = Some bucket →
      Z.of_nat (length bucket) ≤ 2.
Proof.
  cbv zeta. split; [by vm_compute|].
  pose proof (@hits_bucket_bound sample_float 1 2
                [@mkCall sample_float 7 None 10; @mkCall sample_float 7 None 11;
                 @mkCall sample_float 7 None 12] ltac:(lia)) as Hs.
  cbv zeta in Hs. destruct Hs as (_ & _ & _ & Hs).
  intros bucket Hb. by destruct (Hs 7 bucket Hb).
Defined.

Lemma hit_other_users_witness :
  fst (@hit sample_float
         (snd (@hits sample_float [@mkCall sample_float 8 None 10]
                 (@RateLimiter_init sample_float 1 1))) 7 None 11)
  = fst (@hit sample_float (@RateLimiter_init sample_float 1 1) 7 None 11).
Proof.
  assert (Forall (λ c, @call_user sample_float c ≠ 7) [@mkCall sample_float 8 None 10])
    as Hall by (repeat constructor; discriminate).
  apply (@hit_other_users sample_float [@mkCall sample_float 8 None 10]
           (@RateLimiter_init sample_float 1 1) 7 None 11 Hall).
Defined.

Section Anonymous.
Context `{PyLib} `{PyText} `{PyFloat}.

Lemma rate_limit_anonymous command t limiter :
  command ∈ RATE_LIMITED_COMMANDS → _rate_limit None command t limiter = (false, limiter).
Proof.
  intros Hc. unfold _rate_limit. by rewrite bool_decide_eq_false_2 by auto.
Qed.

Lemma head_differs (a b : list N) : head a ≠ head b → a ≠ b.
Proof. congruence. Qed.

(** A message without sender to one of the rate-limited commands on
    links is refused by the rate limiter, which leaves the bot as it is;
    so none of these commands ever answers that it cannot resolve the
    identity of the sender. *)
Theorem cannot_resolve_unreachable message chat_invite new_id bot :
  (msg_from_user message = None →
   handle_my_link message chat_invite new_id bot = (bot, inr too_many_requests)
   ∧ handle_deactivate message bot = (bot, too_many_requests)
   ∧ handle_reactivate message bot = (bot, too_many_requests))
  ∧ snd (handle_my_link message chat_invite new_id bot) ≠ inr cannot_resolve
  ∧ snd (handle_deactivate message bot) ≠ cannot_resolve
  ∧ snd (handle_reactivate message bot) ≠ cannot_resolve.
Proof.
  assert (py "mylink" ∈ RATE_LIMITED_COMMANDS) as Hc1 by (vm_compute; set_solver).
  assert (py "deactivate" ∈ RATE_LIMITED_COMMANDS) as Hc2 by (vm_compute; set_solver).
  assert (py "reactivate" ∈ RATE_LIMITED_COMMANDS) as Hc3 by (vm_compute; set_solver).
  split; [|split; [|split]].
  - intros Hm. unfold handle_my_link, handle_deactivate, handle_reactivate.
    rewrite Hm, !rate_limit_anonymous by done. cbn [negb]. by destruct bot.
  - unfold handle_my_link. destruct (msg_from_user message) as [u|].
    + destruct (_rate_limit _ _ _ _) as [[] limiter]; cbn [negb];
        [|intros E; by vm_compute in E].
      destruct (upsert_user _ _ _ _ _) as [db1 user].
      destruct (get_affiliate_by_owner db1 (user_id user)) as [aff|].
      * destruct (is_active aff); cbn [negb]; destruct (truthy (invite_link aff));
          cbn [negb snd]; intros [= E]; apply (f_equal head) in E; by vm_compute in E.
      * destruct chat_invite as [link|];
          [|cbn [snd]; intros E; by vm_compute in E].
        destruct (upsert_user db1 _ _ _ _) as [db2 user2].
        destruct (create_affiliate _ _ _ _ _ _) as [e|[db3 aff]]; [done|].
        destruct (truthy link); cbn [negb snd]; intros [= E];
          apply (f_equal head) in E; by vm_compute in E.
    + rewrite rate_limit_anonymous by done. cbn [negb snd].
      intros E. by vm_compute in E.
  - unfold handle_deactivate. destruct (msg_from_user message) as [u|].
    + destruct (_rate_limit _ _ _ _) as [[] limiter]; cbn [negb];
        [|apply head_differs; by vm_compute].
      destruct (get_user _ _) as [user|]; [|apply head_differs; by vm_compute].
      destruct (get_affiliate_by_owner _ _) as [aff|];
        [|apply head_differs; by vm_compute].
      destruct (is_active aff); cbn [negb snd]; apply head_differs; by vm_compute.
    + rewrite rate_limit_anonymous by done. cbn [negb snd].
      apply head_differs. by vm_compute.
  - unfold handle_reactivate. destruct (msg_from_user message) as [u|].
    + destruct (_rate_limit _ _ _ _) as [[] limiter]; cbn [negb];
        [|apply head_differs; by vm_compute].
      destruct (get_user _ _) as [user|]; [|apply head_differs; by vm_compute].
      destruct (get_affiliate_by_owner _ _) as [aff|];
        [|apply head_differs; by vm_compute].
      destruct (is_active aff); cbn [negb snd]; apply head_differs; by vm_compute.
    + rewrite rate_limit_anonymous by done. cbn [negb snd].
      apply head_differs. by vm_compute.
Qed.

End Anonymous.

(** ** The leaderboard cache after a rebuild *)

Lemma recompute_cache_unfold d now lb :
  recompute_cache d now lb
  = recompute_window d (py "30d") now
      (recompute_window d (py "7d") now (recompute_window d (py "all") now lb)).
Proof. done. Qed.

Lemma window_names_distinct :
  py "all" ≠ py "7d" ∧ py "all" ≠ py "30d" ∧ py "7d" ≠ py "30d".
Proof. repeat split; intros E; by vm_compute in E. Qed.

Lemma recompute_cache_lookup d now lb window :
  let lb' := recompute_cache d now lb in
  if bool_decide (window ∈ fst <$> LEADERBOARD_WINDOWS)
  then _cache lb' !! window = Some (window_counts d window now)
       ∧ _cache_generated_at lb' !! window = Some now
  else _cache lb' !! window = _cache lb !! window
       ∧ _cache_generated_at lb' !! window = _cache_generated_at lb !! window.
Proof.
  cbv zeta. rewrite recompute_cache_unfold.
  destruct window_names_distinct as (H1 & H2 & H3).
  unfold recompute_window. cbn [_cache _cache_generated_at].
  case_bool_decide as Hw.
  - change (fst <$> LEADERBOARD_WINDOWS) with [py "all"; py "7d"; py "30d"] in Hw.
    apply elem_of_cons in Hw as [->|Hw]; [|apply elem_of_cons in Hw as [->|Hw]];
      [| |apply list_elem_of_singleton in Hw as ->].
    + by rewrite !(lookup_insert_ne _ (py "30d")), !(lookup_insert_ne _ (py "7d")),
        !lookup_insert_eq by done.
    + by rewrite !(lookup_insert_ne _ (py "30d")), !lookup_insert_eq by done.
    + by rewrite !lookup_insert_eq.
  - change (fst <$> LEADERBOARD_WINDOWS) with [py "all"; py "7d"; py "30d"] in Hw.
    rewrite !lookup_insert_ne; [done|set_solver..].
Qed.

Lemma served_window_known window :
  served_window window ∈ fst <$> LEADERBOARD_WINDOWS.
Proof.
  unfold served_window. case_bool_decide; [done|].
  change (fst <$> LEADERBOARD_WINDOWS) with [py "all"; py "7d"; py "30d"]. set_solver.
Qed.

Section CacheFacts.
Context `{SqlEngine}.

Lemma recompute_cache_served d now lb window d' limit now' :
  _cache (recompute_cache d now lb) !! served_window window
  = Some (window_counts d (served_window window) now)
  ∧ top_affiliates d' (recompute_cache d now lb) limit window true now'
    = _sorted_affiliates_from_counts d'
        (window_counts d (served_window window) now) limit.
Proof.
  pose proof (recompute_cache_lookup d now lb (served_window window)) as Hs.
  cbv zeta in Hs.
  rewrite (bool_decide_eq_true_2 _ (served_window_known window)) in Hs.
  destruct Hs as [Hs _]. split; [done|].
  unfold top_affiliates. fold (served_window window). by rewrite Hs.
Qed.

(** After [recompute_cache] the cache holds, for each of the three
    windows, the counts of that moment, and [cache_generated_at] gives
    that moment for these windows and what it gave before for any other
    name. From then on [top_affiliates] with the cache in use answers
    from these counts, whatever the window asked for, the database of the
    moment of the call and the time: a name that is not a window is
    served the counts of ["all"]. *)
Theorem recompute_cache_primes d now lb window d' limit now' :
  let lb' := recompute_cache d now lb in
  cache_generated_at lb' window
  = (if bool_decide (window ∈ fst <$> LEADERBOARD_WINDOWS) then Some now
     else cache_generated_at lb window)
  ∧ _cache lb' !! served_window window
    = Some (window_counts d (served_window window) now)
  ∧ top_affiliates d' lb' limit window true now'
    = _sorted_affiliates_from_counts d'
        (window_counts d (served_window window) now) limit.
Proof.
  cbv zeta. pose proof (recompute_cache_lookup d now lb window) as Hw.
  cbv zeta in Hw. split; [|apply recompute_cache_served].
  unfold cache_generated_at. by destruct (bool_decide _); destruct Hw.
Qed.

Lemma insert_sorted_ext {A} (leb leb' : A → A → bool) x (l : list A) :
  (∀ x y, leb x y = leb' x y) → insert_sorted leb x l = insert_sorted leb' x l.
Proof. intros E. induction l as [|y l IH]; simpl; [done|]. by rewrite E, IH. Qed.

Lemma sorted_ext {A} (leb leb' : A → A → bool) (l : list A) :
  (∀ x y, leb x y = leb' x y) → sorted leb l = sorted leb' l.
Proof.
  intros E. induction l as [|x l IH]; [done|]. unfold sorted in *. simpl.
  rewrite IH. by apply insert_sorted_ext.
Qed.

Lemma desc_sorted_unique (l1 l2 : list Z) :
  StronglySorted (λ x y, y ≤ x) l1 → StronglySorted (λ x y, y ≤ x) l2 →
  l1 ≡ₚ l2 → l1 = l2.
Proof.
  apply (@StronglySorted_unique _ (λ x y : Z, y ≤ x)). intros x y ??. lia.
Qed.

Lemma verified_total_pos d cutoff id :
  0 < verified_total d cutoff id
  ↔ id ∈ affiliate_id <$> filter (λ a, verified_since cutoff a = true) (attributions d).
Proof.
  unfold verified_total. rewrite list_elem_of_fmap. split.
  - intros Hpos.
    destruct (filter (λ a, affiliate_id a = id ∧ verified_since cutoff a = true)
                (attributions d)) as [|a l] eqn:E; [simpl in Hpos; lia|].
    assert (a ∈ filter (λ a, affiliate_id a = id ∧ verified_since cutoff a = true)
                  (attributions d)) as Hin by (rewrite E; apply list_elem_of_here).
    apply list_elem_of_filter in Hin as [[Ha Hv] Hin].
    exists a. split; [done|]. by apply list_elem_of_filter.
  - intros (a & -> & Hin). apply list_elem_of_filter in Hin as [Hv Hin].
    assert (a ∈ filter (λ b, affiliate_id b = affiliate_id a
                             ∧ verified_since cutoff b = true) (attributions d)) as Hin'
      by by apply list_elem_of_filter.
    destruct (filter _ (attributions d)); [by apply elem_of_nil in Hin'|simpl; lia].
Qed.

Lemma filter_fmap_comm {A B} (f : A → B) (P : B → Prop) `{!∀ x, Decision (P x)}
    (l : list A) :
  filter P (f <$> l) = f <$> filter (λ x, P (f x)) l.
Proof.
  induction l as [|x l IH]; [done|]. rewrite fmap_cons, !filter_cons.
  destruct (decide (P (f x))); by rewrite IH.
Qed.

Lemma verified_total_nonneg d cutoff id : 0 ≤ verified_total d cutoff id.
Proof. unfold verified_total. lia. Qed.

Lemma count_of_window d window_key now id :
  count_of (window_counts d window_key now) id
  = verified_total d (_window_cutoff window_key now) id.
Proof.
  unfold count_of, window_counts. set (cutoff := _window_cutoff window_key now).
  set (ids := remove_dups _).
  destruct (list_find _ _) as [[i p]|] eqn:E; simpl.
  - apply list_find_Some in E as (Hl & Hp & _).
    apply list_elem_of_lookup_2, list_elem_of_fmap in Hl as (x & -> & _).
    simpl in *. by subst.
  - pose proof (verified_total_nonneg d cutoff id).
    destruct (decide (0 < verified_total d cutoff id)) as [Hpos|]; [|lia].
    apply verified_total_pos in Hpos.
    assert (id ∈ ids) as Hin by by apply elem_of_remove_dups.
    exfalso. eapply (list_find_None (λ p : Z * Z, p.1 = id)) in E.
    rewrite Forall_forall in E.
    apply (E (id, verified_total d cutoff id)); [|done].
    apply list_elem_of_fmap. by exists id.
Qed.

(** Right after a rebuild the cached leaderboard and the live one show
    the same counts, rank by rank, for every window and every limit that
    is not negative, provided every attribution belongs to an affiliate of
    the table; affiliates with equal counts may come in a different
    order. When the limit does not cut the list, the two hold the same
    rows. *)
Theorem cached_leaderboard_agrees d now lb window limit :
  NoDup (aff_id <$> affiliates d) →
  Forall (λ a, is_Some (get_affiliate d (affiliate_id a))) (attributions d) →
  0 ≤ limit →
  let lb' := recompute_cache d now lb in
  let cached := top_affiliates d lb' limit window true now in
  let live := top_affiliates d lb' limit window false now in
  snd <$> cached = snd <$> live
  ∧ length cached = length live
  ∧ ((length (affiliates d) ≤ Z.to_nat limit)%nat → cached ≡ₚ live).
Proof.
  intros Hnd Hdang Hlimit. cbv zeta.
  destruct (recompute_cache_served d now lb window d limit now) as (_ & ->).
  assert (top_affiliates d (recompute_cache d now lb) limit window false now
          = _live_query_top_affiliates d (served_window window) limit now) as -> by done.
  set (wk := served_window window). set (cutoff := _window_cutoff wk now).
  set (vt := verified_total d cutoff).
  set (ids := remove_dups (affiliate_id
                 <$> filter (λ a, verified_since cutoff a = true) (attributions d))).
  (* the cached side *)
  assert (fst <$> window_counts d wk now = ids) as Hkeys.
  { unfold window_counts. fold cutoff. fold ids. rewrite <- list_fmap_compose.
    rewrite <- (list_fmap_id ids) at 2. by apply list_fmap_ext. }
  assert (top_ids (window_counts d wk now) limit
          = take (Z.to_nat limit) (sorted (λ x y, vt y <=? vt x) ids)) as Htop.
  { unfold top_ids, slice_to. destruct (Z.leb_spec 0 limit); [|lia].
    rewrite Hkeys. f_equal. apply sorted_ext. intros x y.
    by rewrite !count_of_window. }
  assert (∀ id, id ∈ ids → ∃ aff, get_affiliate d id = Some aff ∧ aff ∈ affiliates d
                                  ∧ aff_id aff = id) as Hres.
  { intros id Hid. unfold ids in Hid. rewrite elem_of_remove_dups in Hid.
    apply list_elem_of_fmap in Hid as (a & -> & Ha).
    apply list_elem_of_filter in Ha as [_ Ha]. rewrite Forall_forall in Hdang.
    destruct (Hdang a Ha) as [aff Haff]. exists aff. split; [done|].
    by apply find_Some_elem in Haff. }
  assert (∀ l, l ⊆ ids →
            omap (λ id, aff ← get_affiliate d id;
                        Some (aff, count_of (window_counts d wk now) id)) l
            = (λ id, (default (mkAffiliate 0 0 [] [] false) (get_affiliate d id), vt id))
                <$> l) as Homap.
  { induction l as [|id l IH]; intros Hsub; [done|]. simpl.
    destruct (Hres id) as (aff & -> & _); [set_solver|]. simpl.
    rewrite count_of_window. f_equal. apply IH. set_solver. }
  rewrite sorted_affiliates_from_counts_eq, Htop.
  set (sids := sorted (λ x y, vt y <=? vt x) ids).
  assert (sids ≡ₚ ids) as Hperm by apply sorted_perm.
  rewrite Homap by (intros x Hx; apply subseteq_take in Hx; by rewrite Hperm in Hx).
  (* the live side *)
  unfold _live_query_top_affiliates. fold wk. fold cutoff. fold vt.
  rewrite sql_limit_nonneg by done.
  set (groups := filter (λ p : Affiliate * Z, 0 < p.2)
                   ((λ aff, (aff, vt (aff_id aff))) <$> affiliates d)).
  set (sgroups := sorted (λ p q : Affiliate * Z, q.2 <=? p.2)
                    (sorted (λ p q : Affiliate * Z, group_rank p.1 <=? group_rank q.1)
                       groups)).
  assert (sgroups ≡ₚ groups) as Hpermg by (unfold sgroups; by rewrite !sorted_perm).
  assert (groups = (λ aff, (aff, vt (aff_id aff)))
                     <$> filter (λ aff, 0 < vt (aff_id aff)) (affiliates d)) as Hgroups.
  { unfold groups.
    by rewrite (filter_fmap_comm (λ aff, (aff, vt (aff_id aff)))
                  (λ p : Affiliate * Z, 0 < p.2)). }
  assert (ids ≡ₚ aff_id <$> filter (λ aff, 0 < vt (aff_id aff)) (affiliates d)) as Hids.
  { apply NoDup_Permutation.
    - apply NoDup_remove_dups.
    - apply NoDup_fmap_2_strong; [|by eapply NoDup_filter, NoDup_fmap_1].
      intros x y Hx Hy E. apply list_elem_of_filter in Hx as [_ Hx], Hy as [_ Hy].
      by apply (NoDup_fmap_elem_inj aff_id (affiliates d)).
    - intros id. split.
      + intros Hid. destruct (Hres id Hid) as (aff & _ & Hin & <-).
        apply list_elem_of_fmap. exists aff. split; [done|].
        apply list_elem_of_filter. split; [|done].
        apply verified_total_pos. unfold ids in Hid.
        by rewrite elem_of_remove_dups in Hid.
      + intros Hid. apply list_elem_of_fmap in Hid as (aff & -> & Hin).
        apply list_elem_of_filter in Hin as [Hpos _].
        unfold ids. rewrite elem_of_remove_dups. by apply verified_total_pos. }
  assert (vt <$> sids = snd <$> sgroups) as Hcounts.
  { apply desc_sorted_unique.
    - eapply StronglySorted_fmap; [|apply (sorted_desc_StronglySorted vt)]. done.
    - eapply StronglySorted_fmap; [|apply (sorted_desc_StronglySorted snd)]. done.
    - rewrite Hperm, Hpermg, Hgroups, Hids. rewrite <- !list_fmap_compose. done. }
  assert (snd <$> ((λ id, (default (mkAffiliate 0 0 [] [] false) (get_affiliate d id),
                            vt id)) <$> take (Z.to_nat limit) sids)
          = snd <$> take (Z.to_nat limit) sgroups) as Hsnd.
  { rewrite <- list_fmap_compose, !fmap_take, <- Hcounts. done. }
  split; [done|]. split.
  - apply (f_equal length) in Hsnd. rewrite !length_fmap in Hsnd.
    by rewrite length_fmap.
  - intros Hlen.
    assert (length ids ≤ length (affiliates d))%nat as Hl1.
    { rewrite Hids, length_fmap. apply length_filter. }
    assert (length groups ≤ length (affiliates d))%nat as Hl2.
    { rewrite Hgroups, length_fmap. apply length_filter. }
    rewrite !take_ge by (rewrite ?Hperm, ?Hpermg; lia).
    rewrite Hperm, Hpermg, Hgroups, Hids, <- list_fmap_compose.
    match goal with |- ?a ≡ₚ ?b => assert (a = b) as ->; [|done] end.
    apply list_fmap_ext. intros i aff Hin. simpl. f_equal.
    apply list_elem_of_lookup_2, list_elem_of_filter in Hin as [_ Hin].
    unfold get_affiliate. by rewrite (find_unique aff_id (affiliates d) aff).
Qed.

End CacheFacts.

Lemma sample_world_affiliates : affiliates (db sample_world) = sample_affiliates.
Proof. by vm_compute. Qed.

Lemma cached_leaderboard_agrees_witness :
  let lb := recompute_cache (db sample_world) (seconds 30) (mkLeaderboard ∅ ∅) in
  snd <$> @top_affiliates sample_engine (db sample_world) lb 10 (py "all") true
            (seconds 30)
  = snd <$> @top_affiliates sample_engine (db sample_world) lb 10 (py "all") false
              (seconds 30).
Proof.
  cbv zeta.
  assert (NoDup (aff_id <$> affiliates (db sample_world))) as Hnd.
  { rewrite sample_world_affiliates. apply NoDup_singleton. }
  assert (Forall (λ a, is_Some (get_affiliate (db sample_world) (affiliate_id a)))
            (attributions (db sample_world))) as Hdang.
  { rewrite sample_world_attributions. unfold get_affiliate.
    rewrite sample_world_affiliates. repeat constructor; by eexists. }
  pose proof (@cached_leaderboard_agrees sample_engine (db sample_world) (seconds 30)
                (mkLeaderboard ∅ ∅) (py "all") 10 Hnd Hdang ltac:(lia)) as Hs.
  cbv zeta in Hs. destruct Hs as [Hs _]. exact Hs.
Defined.

(** ** [/top] *)

Lemma length_omap_le {A B} (f : A → option B) (l : list A) :
  (length (omap f l) ≤ length l)%nat.
Proof. induction l as [|x l IH]; csimpl; [done|]. destruct (f x); csimpl; lia. Qed.

Lemma top_affiliates_length `{SqlEngine} d lb limit window use_cache now :
  0 ≤ limit →
  (length (top_affiliates d lb limit window use_cache now) ≤ Z.to_nat limit)%nat.
Proof.
  intros Hl. unfold top_affiliates. destruct (if use_cache then _ else None).
  - rewrite sorted_affiliates_from_counts_eq.
    etrans; [apply length_omap_le|]. unfold top_ids, slice_to.
    destruct (Z.leb_spec 0 limit); [|lia]. rewrite length_take. lia.
  - unfold _live_query_top_affiliates. rewrite sql_limit_nonneg by done.
    rewrite length_take. lia.
Qed.

Section Top.
Context `{PyLib} `{PyText} `{SqlEngine}.

(** Whatever the arguments of [/top], the leaderboard is asked for one of
    the three windows and for at least 1 and at most 50 rows, so at most
    50 rows are shown; without arguments it is asked for 10 rows of the
    window ["all"]. *)
Theorem handle_top_bounds command_args d lb now :
  let window := fst (top_arguments command_args) in
  let limit := snd (top_arguments command_args) in
  window ∈ fst <$> LEADERBOARD_WINDOWS
  ∧ 1 ≤ limit ≤ 50
  ∧ handle_top_rows command_args d lb now = top_affiliates d lb limit window true now
  ∧ (length (handle_top_rows command_args d lb now) ≤ 50)%nat
  ∧ (truthy_opt command_args = false → window = py "all" ∧ limit = 10).
Proof.
  cbv zeta.
  assert (∀ args : list (list N),
            1 ≤ match args with
                | arg :: _ => match py_int arg with
                              | Some n => Z.max 1 (Z.min 50 n)
                              | None => 10
                              end
                | [] => 10
                end ≤ 50) as Hlim.
  { intros [|arg ?]; [lia|]. destruct (py_int arg); lia. }
  assert (fst (top_arguments command_args) ∈ fst <$> LEADERBOARD_WINDOWS
          ∧ 1 ≤ snd (top_arguments command_args) ≤ 50) as [Hw Hl].
  { unfold top_arguments.
    change (fst <$> LEADERBOARD_WINDOWS) with [py "all"; py "7d"; py "30d"].
    destruct (split_whitespace _) as [|arg rest]; cbn [fst snd].
    - split; [set_solver|lia].
    - case_bool_decide as Ht; cbn [fst snd]; (split; [set_solver|]);
        [apply (Hlim rest)|apply (Hlim (arg :: rest))]. }
  assert (handle_top_rows command_args d lb now
          = top_affiliates d lb (snd (top_arguments command_args))
              (fst (top_arguments command_args)) true now) as Hrows.
  { unfold handle_top_rows. by destruct (top_arguments command_args). }
  split; [done|]. split; [done|]. split; [done|]. split.
  - rewrite Hrows. etrans; [apply top_affiliates_length; lia|]. lia.
  - destruct command_args as [[|??]|]; try done; intros _; by vm_compute.
Qed.

End Top.

(** ** The review queue and the data of the callbacks *)

Lemma sorted_asc_StronglySorted {A} (key : A → Z) (l : list A) :
  StronglySorted (λ x y, key x ≤ key y) (sorted (λ x y, key x <=? key y) l).
Proof.
  apply Sorted_StronglySorted; [intros x y z ??; lia|].
  eapply Sorted_mono; [|apply (sorted_Sorted (λ x y, key x <=? key y))].
  - intros x y. apply Z.leb_le.
  - intros x y. rewrite !Z.leb_le. lia.
Qed.

(** The review queue holds at most [limit] attributions, each pending
    with a note, the one that joined first in front. An attribution that
    is pending with a note and is left out joined no earlier than those
    in the queue; when the limit does not cut the queue, it holds all of
    them. *)
Theorem list_pending_reviews_spec d limit :
  let queue := list_pending_reviews d limit in
  let waiting := filter (λ a, status a = PENDING ∧ note a ≠ None) (attributions d) in
  (length queue ≤ limit)%nat
  ∧ Forall (λ a, a ∈ attributions d ∧ status a = PENDING ∧ note a ≠ None) queue
  ∧ StronglySorted (λ a b, joined_at a ≤ joined_at b) queue
  ∧ (∀ a b, a ∈ queue → b ∈ waiting → b ∉ queue → joined_at a ≤ joined_at b)
  ∧ ((length waiting ≤ limit)%nat → queue ≡ₚ waiting).
Proof.
  cbv zeta. unfold list_pending_reviews.
  set (waiting := filter _ (attributions d)).
  set (ordered := sorted (λ a b, joined_at a <=? joined_at b) waiting).
  assert (ordered ≡ₚ waiting) as Hperm by apply sorted_perm.
  assert (StronglySorted (λ a b, joined_at a ≤ joined_at b) ordered) as Hsorted
    by apply (sorted_asc_StronglySorted joined_at).
  split; [rewrite length_take; lia|]. split; [|split; [|split]].
  - apply Forall_forall. intros a Ha. apply subseteq_take in Ha.
    rewrite Hperm in Ha. apply list_elem_of_filter in Ha as [[? ?] ?]. done.
  - by apply StronglySorted_take.
  - intros a b Ha Hb Hnb. rewrite <- (take_drop limit ordered) in Hsorted.
    eapply (StronglySorted_app_1_elem_of _ _ _ _ _ Hsorted); [done|].
    rewrite <- Hperm, <- (take_drop limit ordered) in Hb.
    apply elem_of_app in Hb as [?|?]; done.
  - intros Hlen. rewrite take_ge; [done|]. by rewrite Hperm.
Qed.

Lemma str_of_Z_colon_free z : colon ∉ str_of_Z z.
Proof.
  unfold str_of_Z. destruct (z <? 0).
  - intros Hin. apply elem_of_cons in Hin as [Hin|Hin]; [done|].
    revert Hin. apply digits_sep_free; [|apply str_of_N_digits].
    unfold is_digit, colon. lia.
  - apply digits_sep_free; [|apply str_of_N_digits]. unfold is_digit, colon. lia.
Qed.

Lemma split_callback_data action z :
  colon ∉ action →
  split colon (py "review" ++ colon :: action ++ colon :: str_of_Z z)
  = [py "review"; action; str_of_Z z].
Proof.
  intros Ha. rewrite split_app by (by vm_compute; set_solver).
  rewrite split_app by done. rewrite split_sep_free_id; [done|].
  apply str_of_Z_colon_free.
Qed.

Section CallbackData.
Context `{PyLib}.

(** The data of a review callback names its attribution by the decimal
    form of the key. Sent by an administrator, the data
    [review:verify:<key>] makes the transaction of
    [handle_review_callback] verify the attribution with this key, at
    the time of the callback and with its note cleared, and
    [review:revoke:<key>] makes it revoke it, with [manual_revoke]
    merged into the note, provided [int] reads the key back from its
    decimal form; the attributions with other keys are found as they
    were. Data written from different keys differ, so no data acts on
    two attributions. *)
Theorem review_callback_data_round_trip d item admin now answered :
  NoDup (attr_id <$> attributions d) →
  item ∈ attributions d →
  py_int (str_of_Z (attr_id item)) = Some (attr_id item) →
  let id := attr_id item in
  let verify :=
    mkCallback (Some admin) true (Some (py "review:verify:" ++ str_of_Z id)) now
      answered in
  let revoke :=
    mkCallback (Some admin) true (Some (py "review:revoke:" ++ str_of_Z id)) now
      answered in
  review_transaction verify d
  = (save_attribution
       (set_note None (set_verified_at (Some now) (set_status VERIFIED item))) d,
     mkAnswer (Some (py "Attribution #" ++ str_of_Z id ++ py " verified.")) false,
     Some (joined_user_id item))
  ∧ review_transaction revoke d
    = (save_attribution
         (set_note (Some (merge_note (note item) manual_revoke))
            (set_status REVOKED item)) d,
       mkAnswer (Some (py "Attribution #" ++ str_of_Z id ++ py " revoked.")) false,
       Some (joined_user_id item))
  ∧ (∀ other, other ≠ id →
       get_attribution (review_transaction verify d).1.1 other = get_attribution d other
       ∧ get_attribution (review_transaction revoke d).1.1 other
         = get_attribution d other)
  ∧ (∀ other action,
       py "review:" ++ action ++ colon :: str_of_Z other
       = py "review:" ++ action ++ colon :: str_of_Z id →
       other = id).
Proof.
  intros Hnd Hitem Hint. cbv zeta.
  assert (get_attribution d (attr_id item) = Some item) as Hget
    by by apply (find_unique attr_id).
  assert (review_transaction
            (mkCallback (Some admin) true
               (Some (py "review:verify:" ++ str_of_Z (attr_id item))) now answered) d
          = (save_attribution
               (set_note None (set_verified_at (Some now) (set_status VERIFIED item))) d,
             mkAnswer (Some (py "Attribution #" ++ str_of_Z (attr_id item)
                             ++ py " verified.")) false,
             Some (joined_user_id item))) as Ev.
  { apply (review_verify
             (mkCallback (Some admin) true
                (Some (py "review:verify:" ++ str_of_Z (attr_id item))) now answered)
             d admin (py "review:verify:" ++ str_of_Z (attr_id item))
             (py "review") (str_of_Z (attr_id item)) (attr_id item) item);
      try done.
    apply (split_callback_data (py "verify")). by vm_compute; set_solver. }
  assert (review_transaction
            (mkCallback (Some admin) true
               (Some (py "review:revoke:" ++ str_of_Z (attr_id item))) now answered) d
          = (save_attribution
               (set_note (Some (merge_note (note item) manual_revoke))
                  (set_status REVOKED item)) d,
             mkAnswer (Some (py "Attribution #" ++ str_of_Z (attr_id item)
                             ++ py " revoked.")) false,
             Some (joined_user_id item))) as Er.
  { apply (review_revoke
             (mkCallback (Some admin) true
                (Some (py "review:revoke:" ++ str_of_Z (attr_id item))) now answered)
             d admin (py "review:revoke:" ++ str_of_Z (attr_id item))
             (py "review") (str_of_Z (attr_id item)) (attr_id item) item);
      try done.
    apply (split_callback_data (py "revoke")). by vm_compute; set_solver. }
  split; [exact Ev|]. split; [exact Er|]. split.
  - intros other Hne. rewrite Ev, Er. cbn [fst].
    split; apply get_attribution_save_ne; cbn; congruence.
  - intros other action E. apply app_inv_head in E. apply app_inv_head in E.
    injection E as E. by apply str_of_Z_inj.
Qed.

End CallbackData.

Lemma sample_flagged_ids : attr_id <$> attributions sample_flagged_db = [1; 2; 3; 4].
Proof. by vm_compute. Qed.

Lemma sample_flagged_item_row : sample_flagged_item ∈ attributions sample_flagged_db.
Proof.
  assert (head (attributions sample_flagged_db) = Some sample_flagged_item) as Hh
    by by vm_compute.
  destruct (attributions sample_flagged_db) as [|x l]; [done|].
  injection Hh as ->. apply list_elem_of_here.
Qed.

Lemma review_callback_data_round_trip_witness :
  (@review_transaction sample_lib
     (mkCallback (Some 100) true (Some (py "review:verify:1")) (seconds 50) true)
     sample_flagged_db).2
  = Some 1.
Proof.
  assert (NoDup (attr_id <$> attributions sample_flagged_db)) as Hnd.
  { rewrite sample_flagged_ids. apply (bool_decide_unpack _). by vm_compute. }
  pose proof (@review_callback_data_round_trip sample_lib sample_flagged_db
                sample_flagged_item 100 (seconds 50) true Hnd
                sample_flagged_item_row eq_refl) as Hs.
  cbv zeta in Hs. destruct Hs as (Hs & _).
  exact (f_equal snd Hs).
Defined.

(** ** The width of decimal numerals *)

Lemma digits_length u :
  N.of_nat (length (digits u)) = DecimalPos.Unsigned.usize u.
Proof.
  induction u; simpl length; simpl DecimalPos.Unsigned.usize;
    rewrite ?Nat2N.inj_succ, ?IHu; done.
Qed.

Lemma of_uint_leading u :
  match u with
  | Decimal.Nil | Decimal.D0 _ => True
  | _ =>
      (10 ^ DecimalPos.Unsigned.usize (DecimalPos.Unsigned.tl u) ≤ Pos.of_uint u)%N
  end.
Proof.
  destruct u; try done; rewrite DecimalPos.Unsigned.of_uint_alt;
    unfold Decimal.rev; simpl Decimal.revapp;
    rewrite DecimalPos.Unsigned.of_lu_revapp; simpl DecimalPos.Unsigned.of_lu;
    simpl DecimalPos.Unsigned.tl; nia.
Qed.

Lemma to_uint_normal n d : N.to_uint n = Decimal.D0 d → d = Decimal.Nil.
Proof.
  intros E. pose proof (DecimalN.Unsigned.to_of (N.to_uint n)) as Hn.
  rewrite DecimalN.Unsigned.of_to in Hn. rewrite E in Hn at 1. rewrite E in Hn.
  rewrite DecimalFacts.unorm_D0 in Hn. unfold Decimal.unorm in Hn.
  destruct (Decimal.nzhead d) eqn:Ez; try (by injection Hn as ->);
    exfalso; by eapply DecimalFacts.nzhead_nonzero; rewrite Ez, <- Hn.
Qed.

Lemma str_of_N_length n k :
  (n < 10 ^ k)%N → (1 ≤ k)%N → (N.of_nat (length (str_of_N n)) ≤ k)%N.
Proof.
  intros Hn Hk. unfold str_of_N. rewrite digits_length.
  pose proof (DecimalN.Unsigned.of_to n) as Hof. unfold N.of_uint in Hof.
  pose proof (of_uint_leading (N.to_uint n)) as Hlead.
  pose proof (to_uint_normal n) as Hnorm.
  assert (∀ m : N, (10 ^ m ≤ n)%N → (m < k)%N) as Hpow.
  { intros m Hm. apply (N.pow_lt_mono_r_iff 10); lia. }
  destruct (N.to_uint n) as [|d|d|d|d|d|d|d|d|d|d];
    simpl DecimalPos.Unsigned.usize; simpl DecimalPos.Unsigned.tl in Hlead;
    try lia; try (rewrite Hof in Hlead; specialize (Hpow _ Hlead); lia).
  rewrite (Hnorm d eq_refl). simpl. lia.
Qed.

Lemma str_of_Z_length z k :
  0 ≤ z < 10 ^ Z.of_nat k → (1 ≤ k)%nat → (length (str_of_Z z) ≤ k)%nat.
Proof.
  intros Hz Hk. unfold str_of_Z. destruct (Z.ltb_spec z 0); [lia|].
  pose proof (str_of_N_length (Z.to_N z) (N.of_nat k)) as Hl.
  assert (Z.to_N z < 10 ^ N.of_nat k)%N.
  { apply N2Z.inj_lt. rewrite N2Z.inj_pow, Z2N.id, nat_N_Z by lia. simpl. lia. }
  lia.
Qed.

(** ** Labels and the table of [/top] *)

(** The label of a user is never empty: the user name behind an at-sign,
    or else the first and last name joined and stripped, or else, when
    both are missing or blank, the key of the user in decimal. A label
    made of the names has no white space around it. An affiliate with an
    owner is shown under the label of the owner, an affiliate without one
    under its key. *)
Theorem display_names_spec user owner affiliate :
  truthy (_friendly_user_label user) = true
  ∧ truthy (_affiliate_display_name owner affiliate) = true
  ∧ _affiliate_display_name (Some user) affiliate = _friendly_user_label user
  ∧ _affiliate_display_name None affiliate
    = py "Affiliate #" ++ str_of_Z (aff_id affiliate)
  ∧ (∀ name, username user = Some name → truthy name = true →
       _friendly_user_label user = at_sign :: name)
  ∧ (truthy_opt (username user) = false →
       _friendly_user_label user
       = (if truthy (full_name user) then full_name user
          else str_of_Z (user_id user))
       ∧ strip (full_name user) = full_name user).
Proof.
  assert (∀ u, truthy (_friendly_user_label u) = true) as Hlabel.
  { intros u. unfold _friendly_user_label. destruct (truthy_opt (username u)); [done|].
    destruct (truthy (full_name u)) eqn:E; [done|apply str_of_Z_truthy]. }
  split; [apply Hlabel|]. split; [|split; [done|split; [done|split]]].
  - destruct owner as [u|]; [apply (Hlabel u)|done].
  - intros name Hn Ht. unfold _friendly_user_label. rewrite Hn. simpl. by rewrite Ht.
  - intros Hn. unfold _friendly_user_label. rewrite Hn. split; [done|].
    apply strip_chars_idem.
Qed.

Lemma length_rjust w s : length (rjust w s) = (w `max` length s)%nat.
Proof. unfold rjust. rewrite length_app, length_replicate. lia. Qed.

Lemma length_ljust w s : length (ljust w s) = (w `max` length s)%nat.
Proof. unfold ljust. rewrite length_app, length_replicate. lia. Qed.

Lemma length_format_row index label total :
  length (format_row index label total)
  = (4 `max` length (str_of_Z index) + 22 + 9 `max` length (str_of_Z total))%nat.
Proof.
  unfold format_row. rewrite length_app, length_cons, length_app, length_cons.
  rewrite !length_rjust, length_ljust, length_take. lia.
Qed.

Lemma length_join_rows (width : nat) (lines : list (list N)) :
  Forall (λ line, length line = width) lines → lines ≠ [] →
  S (length (join newline lines)) = (length lines * S width)%nat.
Proof.
  induction 1 as [|line lines Hl _ IH]; [done|]. intros _.
  destruct lines as [|line' lines].
  - simpl. lia.
  - change (join newline (line :: line' :: lines))
      with (line ++ newline :: join newline (line' :: lines)).
    rewrite length_app, length_cons. specialize (IH ltac:(done)).
    rewrite (length_cons line). lia.
Qed.

(** A row of the table is at least 35 characters wide, and exactly 35
    when its rank is below 10000 and its count below 1000000000: the rank
    takes 4 columns, the label, cut or padded, the 20 columns from the
    sixth on, and the count the last 9. The header is 34 characters wide,
    so the counts end one column to the right of their heading. A table
    of rows of that kind, as [/top] shows them, has 34 characters for the
    header and 36 more for each row. *)
Theorem format_table_columns d index label total rows :
  (35 ≤ length (format_row index label total))%nat
  ∧ length table_header = 34%nat
  ∧ (0 ≤ index < 10000 →
     take 20 (drop 5 (format_row index label total))
     = take 20 label ++ replicate (20 - length label) space
     ∧ (0 ≤ total < 1000000000 → length (format_row index label total) = 35%nat))
  ∧ (Z.of_nat (length rows) < 10000 →
     Forall (λ row : Affiliate * Z, 0 ≤ row.2 < 1000000000) rows →
     length (_format_table d rows) = (34 + 36 * length rows)%nat).
Proof.
  assert (∀ i l t, 0 ≤ i < 10000 → 0 ≤ t < 1000000000 →
                   length (format_row i l t) = 35%nat) as Hwidth.
  { intros i l t Hi Ht. rewrite length_format_row.
    pose proof (str_of_Z_length i 4 ltac:(simpl; lia) ltac:(lia)).
    pose proof (str_of_Z_length t 9 ltac:(simpl; lia) ltac:(lia)). lia. }
  split; [rewrite length_format_row; lia|]. split; [done|]. split.
  - intros Hi. split; [|by apply Hwidth].
    pose proof (str_of_Z_length index 4 ltac:(simpl; lia) ltac:(lia)) as Hl.
    unfold format_row.
    assert (length (rjust 4 (str_of_Z index)) = 4%nat) as Hr
      by (rewrite length_rjust; lia).
    rewrite drop_app_ge by lia. rewrite Hr.
    change (5 - 4)%nat with 1%nat. cbn [drop]. rewrite ?drop_0.
    assert (length (ljust 20 (take 20 label)) = 20%nat) as Hj
      by (rewrite length_ljust, length_take; lia).
    rewrite take_app_le by lia. rewrite take_ge by lia.
    unfold ljust. f_equal. rewrite length_take. f_equal. lia.
  - intros Hlen Hrows. unfold _format_table.
    set (lines := imap _ rows).
    assert (Forall (λ line, length line = 35%nat) lines) as Hlines.
    { apply Forall_forall. intros line Hline. unfold lines in Hline.
      apply list_elem_of_lookup in Hline as [i Hi].
      rewrite list_lookup_imap in Hi.
      destruct (rows !! i) as [row|] eqn:Er; [|done]. simpl in Hi.
      injection Hi as <-. apply Hwidth.
      - apply lookup_lt_Some in Er. lia.
      - rewrite Forall_forall in Hrows. apply Hrows. by eapply list_elem_of_lookup_2. }
    assert (length lines = length rows) as Hll by apply length_imap.
    destruct lines as [|line lines'] eqn:El.
    + simpl in Hll. rewrite <- Hll. done.
    + change (join newline (table_header :: line :: lines'))
        with (table_header ++ newline :: join newline (line :: lines')).
      rewrite length_app, length_cons.
      pose proof (length_join_rows 35 (line :: lines') Hlines ltac:(done)) as Hj.
      change (length table_header) with 34%nat. lia.
Qed.

(** ** Deleting an attribution, and the note of an attribution *)

Lemma find_filter_implied {A} (P Q : A → Prop) `{!∀ x, Decision (P x)}
    `{!∀ x, Decision (Q x)} (l : list A) :
  (∀ x, P x → Q x) →
  snd <$> list_find P (filter Q l) = snd <$> list_find P l.
Proof.
  intros Hpq. induction l as [|x l IH]; [done|].
  rewrite filter_cons. destruct (decide (Q x)) as [Hq|Hq].
  - cbn [list_find]. destruct (decide (P x)); [done|].
    rewrite <- !option_fmap_compose. 
    destruct (list_find P (filter Q l)) as [[i y]|], (list_find P l) as [[j z]|];
      simpl in *; congruence.
  - cbn [list_find]. rewrite decide_False by (intros Hp; by apply Hq, Hpq).
    rewrite IH. rewrite <- option_fmap_compose. by destruct (list_find P l) as [[j z]|].
Qed.

Lemma NoDup_fmap_filter_sub {A B} (f : A → B) (P : A → Prop)
    `{!∀ x, Decision (P x)} (l : list A) :
  NoDup (f <$> l) → NoDup (f <$> filter P l).
Proof.
  intros Hnd. eapply sublist_NoDup; [exact Hnd|].
  apply fmap_sublist, sublist_filter.
Qed.

Lemma next_rowid_bound ids : Forall (λ id, id < next_rowid ids) ids.
Proof.
  destruct ids as [|id ids]; [constructor|]. cbn [next_rowid].
  assert (id ≤ foldr Z.max id ids ∧ Forall (λ x, x ≤ foldr Z.max id ids) ids) as [H1 H2].
  { induction ids as [|x ids [IH1 IH2]]; [cbn; split; [lia|constructor]|].
    cbn [foldr]. split; [lia|]. constructor; [lia|].
    eapply Forall_impl; [exact IH2|]. intros y Hy. cbn beta in Hy. lia. }
  constructor; [lia|]. eapply Forall_impl; [exact H2|]. intros y Hy. cbn beta in Hy. lia.
Qed.

(** Deleting an attribution removes the row with its key and no other:
    the other rows are found under their keys as before and the events
    that mention the attribution stay in the log. In a table that
    satisfies its constraints the user of the deleted row has no
    attribution any more, so a later join of this user can be attributed
    again. The next key is one more than the largest key that is left:
    deleting the attribution that [create_attribution] has just created
    gives the database back, and the next attribution gets the key of
    the deleted one again. *)
Theorem delete_attribution_spec d a :
  let d' := delete_attribution d a in
  get_attribution d' (attr_id a) = None
  ∧ (∀ b, b ∈ attributions d' ↔ b ∈ attributions d ∧ attr_id b ≠ attr_id a)
  ∧ (∀ id, id ≠ attr_id a → get_attribution d' id = get_attribution d id)
  ∧ events d' = events d
  ∧ attribution_seq d' = next_rowid (attr_id <$> attributions d')
  ∧ (wf_db d → a ∈ attributions d →
     wf_db d'
     ∧ get_attribution_by_user d' (joined_user_id a) = None
     ∧ S (length (attributions d')) = length (attributions d))
  ∧ (∀ aff uid joined ip sn nt,
       attribution_seq d = next_rowid (attr_id <$> attributions d) →
       let r := create_attribution d aff uid joined ip sn nt in
       let d'' := delete_attribution (fst r) (snd r) in
       d'' = d
       ∧ attr_id (snd (create_attribution d'' aff uid joined ip sn nt))
         = attr_id (snd r)).
Proof.
  cbv zeta. split; [|split; [|split; [|split; [done|split; [done|split]]]]].
  - unfold get_attribution, delete_attribution. cbn [attributions].
    apply find_None_elem, Forall_forall. intros b Hb.
    by apply list_elem_of_filter in Hb as [Hb _].
  - intros b. unfold delete_attribution. cbn [attributions].
    rewrite list_elem_of_filter. tauto.
  - intros id Hid. unfold get_attribution, delete_attribution.
    cbn [attributions].
    apply (find_filter_implied (λ r, attr_id r = id) (λ r, attr_id r ≠ attr_id a)).
    intros x ->. done.
  - intros (Hids & Hus & Hseq) Ha.
    unfold delete_attribution, wf_db, attributed_users, get_attribution_by_user.
    cbn [attributions attribution_seq].
    split; [split; [|split]|split].
    + apply NoDup_fmap_filter_sub; done.
    + apply NoDup_fmap_filter_sub; done.
    + pose proof (next_rowid_bound
                    (attr_id <$> filter (λ r, attr_id r ≠ attr_id a) (attributions d)))
        as Hb.
      by rewrite Forall_fmap in Hb.
    + apply find_None_elem, Forall_forall. intros b Hb Hu.
      apply list_elem_of_filter in Hb as [Hne Hb]. apply Hne. f_equal.
      by apply (NoDup_fmap_elem_inj joined_user_id (attributions d)).
    + clear Hus Hseq. induction (attributions d) as [|r l IH]; [by apply elem_of_nil in Ha|].
      rewrite fmap_cons, NoDup_cons in Hids. destruct Hids as [Hr Hnd].
      rewrite filter_cons. destruct (decide (attr_id r ≠ attr_id a)) as [Hne|He].
      * apply elem_of_cons in Ha as [->|Ha]; [done|].
        rewrite !length_cons. f_equal. by apply IH.
      * apply dec_stable in He. rewrite length_cons. f_equal.
        rewrite filter_all; [done|]. apply Forall_forall. intros b Hb Hid.
        apply Hr. rewrite He, <- Hid. by apply list_elem_of_fmap_2.
  - intros aff uid joined ip sn nt Hseq.
    assert (delete_attribution
              (create_attribution d aff uid joined ip sn nt).1
              (create_attribution d aff uid joined ip sn nt).2 = d) as Hback.
    { unfold delete_attribution, create_attribution.
      cbn [fst snd attributions attr_id users affiliates events event_seq].
      rewrite filter_app, filter_cons, decide_False by (intros Hc; by apply Hc).
      rewrite filter_nil, app_nil_r.
      rewrite filter_all.
      - rewrite <- Hseq. by destruct d.
      - pose proof (next_rowid_bound (attr_id <$> attributions d)) as Hb.
        rewrite <- Hseq, Forall_fmap in Hb.
        eapply Forall_impl; [exact Hb|]. intros r Hr. cbn in Hr |- *. lia. }
    split; [exact Hback|]. by rewrite Hback.
Qed.

(** [set_attribution_note] writes the note of the attribution and leaves
    its other columns and the other rows as they are. With [append] the
    reason is merged into the note, and setting the same reason again
    changes nothing; without it the reason replaces the note. A note
    that is not empty keeps the timer of the user from verifying the
    attribution, and puts a pending attribution among those that wait
    for a review. *)
Theorem set_attribution_note_spec d a reason append now :
  let r := set_attribution_note d a reason append in
  note (snd r) = Some (if append then merge_note (note a) reason else reason)
  ∧ origin (snd r) = origin a
  ∧ status (snd r) = status a
  ∧ verified_at (snd r) = verified_at a
  ∧ (∀ id, id ≠ attr_id a → get_attribution (fst r) id = get_attribution d id)
  ∧ (truthy reason = true → truthy_opt (note (snd r)) = true)
  ∧ (tag reason → append = true →
     set_attribution_note (fst r) (snd r) reason true = r)
  ∧ (a ∈ attributions d →
     get_attribution (fst r) (attr_id a) = Some (snd r)
     ∧ (status a = PENDING →
        snd r ∈ filter (λ x, status x = PENDING ∧ note x ≠ None)
                  (attributions (fst r)))
     ∧ (wf_db d → truthy reason = true →
        verify_pending (fst r) (joined_user_id a) now = fst r)).
Proof.
  cbv zeta. unfold set_attribution_note. cbn [fst snd].
  set (n := if append then merge_note (note a) reason else reason).
  assert (truthy reason = true → truthy n = true) as Hn.
  { intros Hr. unfold n. destruct append; [by apply merge_note_truthy|done]. }
  split; [done|]. split; [done|]. split; [done|]. split; [done|].
  split; [|split; [|split]].
  - intros id Hid. apply get_attribution_save_ne. cbn. congruence.
  - intros Hr. cbn. by apply Hn.
  - intros Ht ->. unfold n. cbn [note set_note].
    rewrite merge_note_twice by done.
    rewrite save_attribution_twice by done. done.
  - intros Ha.
    assert (get_attribution (save_attribution (set_note (Some n) a) d) (attr_id a)
            = Some (set_note (Some n) a)) as Hg.
    { destruct (find_is_Some (λ r, attr_id r = attr_id a) (attributions d) a Ha eq_refl)
        as [b Hb].
      by apply get_attribution_save_at with b. }
    split; [done|]. split.
    + intros Hs. apply list_elem_of_filter. split; [done|].
      by apply get_attribution_elem in Hg as [? _].
    + intros (Hids & Hus & _) Hr. apply verify_pending_noop. intros x Hx. right.
      rewrite (get_attribution_by_user_save_at d (joined_user_id a) a (set_note (Some n) a))
        in Hx; [| by apply get_attribution_by_user_row | done | done].
      injection Hx as <-. cbn. by apply Hn.
Qed.

(** ** The ledger along a run *)

Lemma origin_attr_id a a' : origin a' = origin a → attr_id a' = attr_id a.
Proof. by intros [= ? _]. Qed.

Lemma join_event_of_origin e a a' :
  origin a' = origin a → join_event_of e a → join_event_of e a'.
Proof.
  intros [= E1 E2 E3 E4 E5 E6] (H1 & H2 & H3 & link & code & flags & H4).
  unfold join_event_of. rewrite E1, E2, E3, E5, E6. eauto 10.
Qed.

Lemma origins_save d a a' :
  NoDup (attr_id <$> attributions d) → a ∈ attributions d → origin a' = origin a →
  origins (save_attribution a' d) = origins d.
Proof.
  intros Hnd Ha Ho. unfold origins, save_attribution. cbn [attributions with_attributions].
  rewrite <- list_fmap_compose. apply list_fmap_ext. intros i x Hx. cbn.
  destruct (decide (attr_id x = attr_id a')) as [E|E]; [|done].
  rewrite Ho. f_equal. symmetry.
  apply (NoDup_fmap_elem_inj attr_id (attributions d)); [done| |done|].
  - by eapply list_elem_of_lookup_2.
  - rewrite E. by apply origin_attr_id.
Qed.

Lemma origins_upsert d uid un fn ln :
  origins (fst (upsert_user d uid un fn ln)) = origins d
  ∧ events (fst (upsert_user d uid un fn ln)) = events d.
Proof. unfold origins, upsert_user. by destruct (get_user d uid). Qed.

Lemma update_attribution_status_ledger d a st v now :
  NoDup (attr_id <$> attributions d) → a ∈ attributions d →
  let r := update_attribution_status d a st v now in
  origins (fst r) = origins d ∧ events (fst r) = events d ∧ origin (snd r) = origin a.
Proof.
  intros Hnd Ha. cbv zeta. unfold update_attribution_status. cbn [fst snd].
  split; [|split].
  - apply origins_save with a; [done|done|]. by destruct (decide (st = VERIFIED)).
  - done.
  - by destruct (decide (st = VERIFIED)).
Qed.

Lemma verify_pending_ledger d uid now :
  NoDup (attr_id <$> attributions d) →
  origins (verify_pending d uid now) = origins d
  ∧ events (verify_pending d uid now) = events d.
Proof.
  intros Hnd. unfold verify_pending.
  destruct (get_attribution_by_user d uid) as [a|] eqn:Ha; [|done].
  destruct (_ && _); [|done].
  apply get_attribution_by_user_elem in Ha as [Hin _].
  destruct (update_attribution_status_ledger d a VERIFIED (Some now) now Hnd Hin)
    as (H1 & H2 & _). done.
Qed.

Lemma run_task_ledger h now d s :
  NoDup (attr_id <$> attributions d) →
  origins (run_task h now d s).1 = origins d
  ∧ events (run_task h now d s).1 = events d.
Proof.
  intros Hnd.
  destruct (run_task_cases h now d s) as [->|(t & st & c & reg & _ & _ & _ & _ & Hd)];
    [done|].
  destruct Hd as [->|[-> _]]; [done|]. by apply verify_pending_ledger.
Qed.

Section Ledger.
Context `{PyLib}.

Lemma review_transaction_ledger callback d :
  NoDup (attr_id <$> attributions d) →
  origins (review_transaction callback d).1.1 = origins d
  ∧ events (review_transaction callback d).1.1 = events d.
Proof.
  intros Hnd. unfold review_transaction.
  destruct (cb_from_user callback); [|done].
  destruct (cb_is_admin callback); [|done]. cbn [negb].
  destruct (truthy_opt (cb_data callback)); [|done]. cbn [negb].
  destruct (split colon _) as [|x [|action [|s [|??]]]]; try done.
  destruct (py_int s) as [aid|]; [|done].
  destruct (get_attribution d aid) as [a|] eqn:Ha; [|done].
  apply get_attribution_elem in Ha as [Hin Hid].
  case_bool_decide; [|case_bool_decide; [|done]].
  - unfold update_attribution_status. rewrite decide_True by done. cbn [fst snd].
    rewrite save_attribution_twice by done. split; [|done].
    by apply origins_save with a.
  - rewrite update_status_revoked. cbn [fst snd].
    rewrite save_attribution_twice by done. split; [|done].
    by apply origins_save with a.
Qed.

Lemma handle_leave_ledger update w :
  NoDup (attr_id <$> attributions (db w)) →
  origins (db (_handle_leave update w)) = origins (db w)
  ∧ events (db w) `prefix_of` events (db (_handle_leave update w)).
Proof.
  intros Hnd.
  destruct (origins_upsert (db w) (tg_id (upd_old_user update))
              (tg_username (upd_old_user update))
              (tg_first_name (upd_old_user update))
              (tg_last_name (upd_old_user update))) as [Ho He].
  assert ((∀ a, get_attribution_by_user (db w) (tg_id (upd_old_user update)) = Some a →
                status a = REVOKED) →
            _handle_leave update w
            = mkWorld (fst (upsert_user (db w) (tg_id (upd_old_user update))
                              (tg_username (upd_old_user update))
                              (tg_first_name (upd_old_user update))
                              (tg_last_name (upd_old_user update))))
                (_subnet_events w) (scheduler w)) as Hsame.
  { intros Hc. unfold _handle_leave.
    destruct (upsert_user _ _ _ _ _) as [db1 ju] eqn:EU.
    assert (db1 = fst (upsert_user (db w) (tg_id (upd_old_user update))
                         (tg_username (upd_old_user update))
                         (tg_first_name (upd_old_user update))
                         (tg_last_name (upd_old_user update)))) as Hdb1 by by rewrite EU.
    assert (get_attribution_by_user db1 (tg_id (upd_old_user update))
            = get_attribution_by_user (db w) (tg_id (upd_old_user update))) as ->
      by by rewrite Hdb1, get_attribution_by_user_upsert.
    destruct (get_attribution_by_user (db w) (tg_id (upd_old_user update))) as [b|] eqn:Hb;
      [|by rewrite Hdb1].
    rewrite (Hc b eq_refl). cbn. by rewrite Hdb1. }
  destruct (get_attribution_by_user (db w) (tg_id (upd_old_user update))) as [a|] eqn:Ha.
  - destruct (decide (status a = REVOKED)) as [Hs|Hs].
    + rewrite Hsame by (by intros ? [= <-]). cbn [db]. rewrite Ho, He. done.
    + rewrite (handle_leave_revokes _ _ _ Ha Hs). cbn [db].
      apply get_attribution_by_user_elem in Ha as [Hin Hu].
      unfold log_event. cbn [attributions events origins].
      split.
      * change (origins (save_attribution (set_status REVOKED a)
                           (fst (upsert_user (db w) (tg_id (upd_old_user update))
                                   (tg_username (upd_old_user update))
                                   (tg_first_name (upd_old_user update))
                                   (tg_last_name (upd_old_user update)))))
                = origins (db w)).
        rewrite <- Ho. apply origins_save with a; [| |done].
        -- by rewrite attributions_upsert_user.
        -- by rewrite attributions_upsert_user.
      * cbn [save_attribution with_attributions events]. rewrite He. by apply prefix_app_r.
  - rewrite Hsame by done.
    cbn [db]. rewrite Ho, He. done.
Qed.

End Ledger.

Section LedgerRun.
Context `{PyLib}.

Lemma handle_join_ledger update w :
  let d := db w in
  let d' := db (_handle_join update w) in
  events d `prefix_of` events d'
  ∧ (origins d' = origins d
     ∨ ∃ a e, origins d' = origins d ++ [origin a]
              ∧ e ∈ events d' ∧ join_event_of e a).
Proof.
  cbv zeta.
  destruct (upd_invite_link update) as [link|] eqn:El;
    [|unfold _handle_join; rewrite El; auto].
  destruct (truthy link) eqn:Et; [|unfold _handle_join; rewrite El, Et; auto].
  destruct (join_decide update w link) as [Hr|[aff Ha]]; [done| |].
  - rewrite (handle_join_rejected _ _ _ Hr). cbn [db].
    destruct (origins_upsert (db w) (join_user update)
                (tg_username (upd_new_user update))
                (tg_first_name (upd_new_user update))
                (tg_last_name (upd_new_user update))) as [-> ->]. auto.
  - destruct (handle_join_accepted _ _ _ _ Ha) as (Hattr & _ & Hev & _ & _).
    rewrite Hev. split; [by apply prefix_app_r|]. right.
    eexists (new_attribution update w aff (join_reasons update w)), _.
    split; [|split].
    + unfold origins. rewrite Hattr. destruct (burst_reported update w).
      * rewrite <- list_fmap_compose, fmap_app. f_equal.
        -- apply list_fmap_ext. intros i a _. cbn. by destruct (in_burst _ _ _).
        -- cbn. by destruct (in_burst _ _ _).
      * by rewrite fmap_app.
    + apply elem_of_app. right. apply list_elem_of_singleton. reflexivity.
    + unfold join_event_of. cbn. eauto 10.
Qed.

Lemma react_ledger tc i w :
  NoDup (attr_id <$> attributions (db w)) →
  let d := db w in
  let d' := db (react tc i w) in
  events d `prefix_of` events d'
  ∧ (origins d' = origins d
     ∨ ∃ a e, origins d' = origins d ++ [origin a]
              ∧ e ∈ events d' ∧ join_event_of e a).
Proof.
  intros Hnd. cbv zeta. destruct i as [update|callback|h now|us affs]; cbn [react].
  - unfold handle_chat_member.
    destruct (bool_decide _); [auto|].
    destruct (_ && _); [apply handle_join_ledger|].
    destruct (_ && _); [|auto].
    destruct (handle_leave_ledger update w Hnd) as [-> Hp]. auto.
  - unfold handle_review_callback.
    destruct (review_transaction_ledger callback (db w) Hnd) as [Ho He].
    destruct (review_transaction callback (db w)) as [[d answer] user].
    cbn [fst snd db] in *. rewrite Ho, He. auto.
  - destruct (run_task_ledger h now (db w) (scheduler w) Hnd) as [Ho He].
    destruct (run_task h now (db w) (scheduler w)) as [d s].
    cbn [fst snd db] in *. rewrite Ho, He. auto.
  - cbn [db events]. auto.
Qed.

Lemma run_snoc tc inputs i w :
  run tc (inputs ++ [i]) w = react tc i (run tc inputs w).
Proof. unfold run. by rewrite foldl_app. Qed.

Lemma run_wf_db tc inputs w : wf_db (db w) → wf_db (db (run tc inputs w)).
Proof.
  revert w. induction inputs as [|i inputs IH]; intros w Hw; [done|].
  cbn [run foldl]. apply IH.
  by destruct (react_step tc i w Hw) as (extra & _ & Hdb' & _).
Qed.

Lemma run_ledger tc inputs w :
  wf_db (db w) →
  origins (db w) `prefix_of` origins (db (run tc inputs w))
  ∧ events (db w) `prefix_of` events (db (run tc inputs w)).
Proof.
  revert w. induction inputs as [|i inputs IH]; intros w Hw; [done|].
  change (run tc (i :: inputs) w) with (run tc inputs (react tc i w)).
  destruct (react_step tc i w Hw) as (extra & _ & Hdb' & _).
  destruct (IH _ Hdb') as [Ho He].
  destruct (react_ledger tc i w) as [He1 Ho1]; [by destruct Hw|].
  split; [|by etrans].
  etrans; [|exact Ho]. destruct Ho1 as [->|(a & e & -> & _)]; [done|].
  by apply prefix_app_r.
Qed.

(** No handler deletes an attribution, moves it or assigns its key, its
    user, its affiliate, its time of joining or its address: along a run
    the table of the attributions only grows at its end in these columns,
    and the log of the events only grows at its end. So an attribution
    of the start is found under its key at the end, with these columns
    as they were. *)
Theorem ledger_append_only tc inputs w :
  wf_db (db w) →
  let w' := run tc inputs w in
  origins (db w) `prefix_of` origins (db w')
  ∧ events (db w) `prefix_of` events (db w')
  ∧ (length (attributions (db w)) ≤ length (attributions (db w')))%nat
  ∧ ∀ a, a ∈ attributions (db w) →
      ∃ a', get_attribution (db w') (attr_id a) = Some a' ∧ origin a' = origin a.
Proof.
  intros Hw. cbv zeta. destruct (run_ledger tc inputs w Hw) as [Ho He].
  split; [done|]. split; [done|]. split.
  - apply prefix_length in Ho. unfold origins in Ho. by rewrite !length_fmap in Ho.
  - intros a Ha.
    assert (origin a ∈ origins (db (run tc inputs w))) as Hin.
    { destruct Ho as [k ->]. apply elem_of_app. left. by apply list_elem_of_fmap_2. }
    apply list_elem_of_fmap in Hin as (a' & Heq & Ha').
    exists a'. split; [|done].
    destruct (run_wf_db tc inputs w Hw) as (Hnd & _).
    destruct (find_is_Some (λ r, attr_id r = attr_id a)
                (attributions (db (run tc inputs w))) a' Ha') as [b Hb].
    { by apply origin_attr_id. }
    unfold get_attribution. rewrite Hb. f_equal.
    apply (find_Some_elem (λ r, attr_id r = attr_id a)) in Hb as [Hin Hid].
    apply (NoDup_fmap_elem_inj attr_id (attributions (db (run tc inputs w))));
      [done|done|done|].
    rewrite Hid. symmetry. by apply origin_attr_id.
Qed.

(** Every attribution of a reachable world has its [JOIN] event in the
    log: an event of the user and the affiliate of the attribution that
    carries its key and the address and subnet it was created with. *)
Theorem join_events_audit tc w a :
  reachable tc w → a ∈ attributions (db w) →
  ∃ e, e ∈ events (db w) ∧ join_event_of e a.
Proof.
  intros [inputs ->]. revert a.
  induction inputs as [|i inputs IH] using rev_ind; intros a Ha.
  { by apply elem_of_nil in Ha. }
  rewrite run_snoc in Ha |- *.
  set (w := run tc inputs initial_world) in *.
  assert (wf_db (db w)) as Hw by (apply run_wf_db, wf_initial).
  destruct (react_ledger tc i w) as [He Ho]; [by destruct Hw|].
  apply (list_elem_of_fmap_2 origin) in Ha. fold (origins (db (react tc i w))) in Ha.
  assert (∀ b, b ∈ attributions (db w) → origin a = origin b →
               ∃ e, e ∈ events (db (react tc i w)) ∧ join_event_of e a) as Hold.
  { intros b Hb Hab. destruct (IH b Hb) as (e & Hin & Hj). exists e. split.
    - destruct He as [k ->]. apply elem_of_app. by left.
    - by apply join_event_of_origin with b. }
  destruct Ho as [Ho|(b & e & Ho & Hin & Hj)]; rewrite Ho in Ha.
  - apply list_elem_of_fmap in Ha as (b & Hab & Hb). by apply Hold with b.
  - apply elem_of_app in Ha as [Ha|Ha].
    + apply list_elem_of_fmap in Ha as (b' & Hab & Hb). by apply Hold with b'.
    + apply list_elem_of_singleton in Ha. exists e. split; [done|].
      by apply join_event_of_origin with b.
Qed.

End LedgerRun.

Lemma sample_world_wf_db : wf_db (db sample_world).
Proof.
  unfold wf_db, attributed_users. rewrite sample_world_attributions.
  assert (attribution_seq (db sample_world) = 4) as -> by by vm_compute.
  split; [|split].
  - apply (bool_decide_unpack _). by vm_compute.
  - apply (bool_decide_unpack _). by vm_compute.
  - repeat constructor; cbn; lia.
Qed.

Lemma ledger_append_only_witness :
  origins (db sample_world)
  `prefix_of`
  origins (db (@run sample_lib (-100) [ChatMember sample_leave] sample_world)).
Proof.
  pose proof (@ledger_append_only sample_lib (-100) [ChatMember sample_leave]
                sample_world sample_world_wf_db) as Hs.
  cbv zeta in Hs. destruct Hs as (Hs & _). exact Hs.
Defined.

Lemma join_events_audit_witness :
  ∃ e, e ∈ events (db sample_world)
       ∧ join_event_of e
           (mkAttribution 2 2 1 (seconds 10) None PENDING None
              (Some (py "10.0.0.9")) (Some (py "10.0.0.0/24"))).
Proof.
  apply (@join_events_audit sample_lib (-100)).
  - by exists sample_inputs.
  - rewrite sample_world_attributions.
    apply elem_of_cons. right. apply elem_of_cons. by left.
Defined.

(** ** A user who leaves and joins again *)

Section Rejoin.
Context `{PyLib}.

Lemma handle_join_attributed update w a :
  get_attribution_by_user (db w) (join_user update) = Some a →
  attributions (db (_handle_join update w)) = attributions (db w)
  ∧ events (db (_handle_join update w)) = events (db w)
  ∧ scheduler (_handle_join update w) = scheduler w.
Proof.
  intros Ha.
  destruct (upd_invite_link update) as [link|] eqn:El;
    [|unfold _handle_join; by rewrite El].
  destruct (truthy link) eqn:Et; [|unfold _handle_join; by rewrite El, Et].
  assert (join_rejected update w link) as Hr.
  { split; [done|]. right. right. by rewrite Ha. }
  rewrite (handle_join_rejected _ _ _ Hr). cbn [db scheduler].
  destruct (upsert_user_frame (db w) (join_user update)
              (tg_username (upd_new_user update))
              (tg_first_name (upd_new_user update))
              (tg_last_name (upd_new_user update))) as (_ & -> & -> & _). done.
Qed.

(** When a user who has an attribution leaves the chat, the attribution
    is revoked, if it was not yet, and the timer of the user is
    cancelled. A later join of this user, through whatever link, is not
    attributed again: it creates no attribution, logs no event and arms
    no timer, the attribution stays revoked, for its first affiliate, and
    a timer that fires later does not verify it. *)
Theorem leave_then_rejoin update_leave update_join w a now :
  get_attribution_by_user (db w) (tg_id (upd_old_user update_leave)) = Some a →
  join_user update_join = tg_id (upd_old_user update_leave) →
  let uid := tg_id (upd_old_user update_leave) in
  let w1 := _handle_leave update_leave w in
  let w2 := _handle_join update_join w1 in
  get_attribution_by_user (db w1) uid = Some (set_status REVOKED a)
  ∧ (status a ≠ REVOKED →
     scheduler w1 = cancel_verification uid (scheduler w)
     ∧ _verification_tasks (scheduler w1) !! uid = None)
  ∧ attributions (db w2) = attributions (db w1)
  ∧ events (db w2) = events (db w1)
  ∧ scheduler w2 = scheduler w1
  ∧ get_attribution_by_user (db w2) uid = Some (set_status REVOKED a)
  ∧ verify_pending (db w2) uid now = db w2.
Proof.
  intros Ha Hj. cbv zeta.
  assert (get_attribution_by_user (db (_handle_leave update_leave w))
            (tg_id (upd_old_user update_leave)) = Some (set_status REVOKED a)) as H1.
  { destruct (decide (status a = REVOKED)) as [Hs|Hs].
    - unfold _handle_leave.
      destruct (upsert_user _ _ _ _ _) as [db1 ju] eqn:EU.
      assert (db1 = fst (upsert_user (db w) (tg_id (upd_old_user update_leave))
                           (tg_username (upd_old_user update_leave))
                           (tg_first_name (upd_old_user update_leave))
                           (tg_last_name (upd_old_user update_leave)))) as Hdb1
        by by rewrite EU.
      assert (get_attribution_by_user db1 (tg_id (upd_old_user update_leave)) = Some a)
        as Hg by by rewrite Hdb1, get_attribution_by_user_upsert.
      rewrite Hg, Hs. rewrite !bool_decide_eq_false_2 by done. cbn [orb db].
      rewrite Hg. f_equal. destruct a. cbn in Hs. by subst.
    - rewrite (handle_leave_revokes _ _ _ Ha Hs). cbn [db].
      unfold get_attribution_by_user, log_event. cbn [attributions].
      apply (get_attribution_by_user_save_at _ _ a); [|done|].
      + by rewrite get_attribution_by_user_upsert.
      + by apply get_attribution_by_user_id in Ha. }
  split; [done|]. split.
  { intros Hs. rewrite (handle_leave_revokes _ _ _ Ha Hs). cbn [scheduler].
    split; [done|]. unfold cancel_verification.
    destruct (_verification_tasks (scheduler w) !! tg_id (upd_old_user update_leave))
      eqn:E; [|done].
    cbn. apply lookup_delete_eq. }
  rewrite <- Hj in H1.
  destruct (handle_join_attributed update_join _ _ H1) as (E1 & E2 & E3).
  split; [done|]. split; [done|]. split; [done|].
  assert (get_attribution_by_user (db (_handle_join update_join
                                         (_handle_leave update_leave w)))
            (tg_id (upd_old_user update_leave)) = Some (set_status REVOKED a)) as H2.
  { unfold get_attribution_by_user in *. rewrite E1, <- Hj. done. }
  split; [done|].
  apply verify_pending_noop. intros b Hb. rewrite H2 in Hb. injection Hb as <-.
  by left.
Qed.

End Rejoin.

Lemma leave_then_rejoin_witness :
  get_attribution_by_user
    (db (@_handle_join sample_lib
           (sample_join 1 (py "https://t.me/+zzz") (py "10.0.0.5") (seconds 50))
           (_handle_leave sample_leave sample_world))) 1
  = Some (mkAttribution 1 1 1 (seconds 0) (Some (seconds 25)) REVOKED None
            (Some (py "10.0.0.5")) (Some (py "10.0.0.0/24"))).
Proof.
  assert (get_attribution_by_user (db sample_world) (tg_id (upd_old_user sample_leave))
          = Some (mkAttribution 1 1 1 (seconds 0) (Some (seconds 25)) VERIFIED None
                    (Some (py "10.0.0.5")) (Some (py "10.0.0.0/24")))) as Ha.
  { unfold get_attribution_by_user. rewrite sample_world_attributions. reflexivity. }
  pose proof (@leave_then_rejoin sample_lib sample_leave
                (sample_join 1 (py "https://t.me/+zzz") (py "10.0.0.5") (seconds 50))
                sample_world _ 0 Ha eq_refl) as Hs.
  cbv zeta in Hs. destruct Hs as (_ & _ & _ & _ & _ & Hs & _). exact Hs.
Defined.

(** ** From a join to its verification *)

Lemma find_is_Some_app_r {A} (P : A → Prop) `{!∀ x, Decision (P x)} (l : list A) a :
  Forall (λ x, ¬ P x) l → P a → snd <$> list_find P (l ++ [a]) = Some a.
Proof.
  intros Hl Hp. induction Hl as [|x l Hx Hl IH]; simpl.
  - by rewrite decide_True.
  - rewrite decide_False by done.
    destruct (list_find P (l ++ [a])) as [[??]|]; simpl in *; congruence.
Qed.

Section CleanJoin.
Context `{PyLib}.

(** A join that is accepted and raises no suspicion creates a pending
    attribution without note and arms a timer for the user. The first
    step of the timer starts the delay and leaves the database as it is,
    a step before the 600 seconds have elapsed does nothing, and the
    step after them verifies the attribution, at the time of this step,
    and removes the timer from the registry. *)
Theorem clean_join_verified tc update w link affiliate t0 t1 :
  join_accepted update w link affiliate →
  join_reasons update w = [] →
  t0 + seconds 600 ≤ t1 →
  let uid := join_user update in
  let new := new_attribution update w affiliate [] in
  let h := length (tasks (cancel_verification uid (scheduler w))) in
  let w1 := _handle_join update w in
  let w2 := react tc (LoopStep h t0) w1 in
  let w3 := react tc (LoopStep h t1) w2 in
  get_attribution_by_user (db w1) uid = Some new
  ∧ status new = PENDING ∧ note new = None
  ∧ _verification_tasks (scheduler w1) !! uid = Some h
  ∧ tasks (scheduler w1) !! h = Some (mkTask uid Created false)
  ∧ db w2 = db w1
  ∧ (∀ t, t < t0 + seconds 600 → react tc (LoopStep h t) w2 = w2)
  ∧ get_attribution_by_user (db w3) uid
    = Some (set_verified_at (Some t1) (set_status VERIFIED new))
  ∧ _verification_tasks (scheduler w3) !! uid = None.
Proof.
  intros Ha Hr Hle. cbv zeta.
  destruct (handle_join_accepted _ _ _ _ Ha) as (Hattr & Hsched & _).
  destruct Ha as (_ & _ & _ & _ & Hnone).
  assert (burst_reported update w = false) as Hb.
  { unfold join_reasons in Hr. by destruct (burst_reported update w). }
  rewrite Hb, Hr in Hattr. rewrite Hb, Hr in Hsched.
  cbn [cancel_flagged foldl] in Hsched.
  set (uid := join_user update) in *.
  set (new := new_attribution update w affiliate []) in *.
  set (s0 := cancel_verification uid (scheduler w)) in *.
  set (h := length (tasks s0)).
  destruct (_handle_join update w) as [d1 ev1 s1]. cbn [db scheduler] in *.
  assert (get_attribution_by_user d1 uid = Some new) as Hg1.
  { unfold get_attribution_by_user. rewrite Hattr.
    apply (find_is_Some_app_r (λ a, joined_user_id a = uid)); [|done].
    by apply (find_None_elem (λ a, joined_user_id a = uid)) in Hnone. }
  assert (tasks s1 !! h = Some (mkTask uid Created false)) as Ht1.
  { rewrite Hsched. unfold schedule_verification. cbn [tasks]. fold s0.
    by rewrite list_lookup_middle. }
  split; [done|]. split; [done|]. split; [done|]. split.
  { rewrite Hsched. unfold schedule_verification. cbn [_verification_tasks]. fold s0.
    apply lookup_insert_eq. }
  split; [done|].
  assert (run_task h t0 d1 s1
          = (d1, mkScheduler
                   (<[h := mkTask uid (Sleeping (t0 + seconds 600)) false]> (tasks s1))
                   (_verification_tasks s1))) as Hstep1.
  { unfold run_task. by rewrite Ht1. }
  cbn [react db scheduler _subnet_events]. rewrite Hstep1. cbn [db scheduler _subnet_events].
  set (s2 := mkScheduler _ (_verification_tasks s1)).
  assert (tasks s2 !! h = Some (mkTask uid (Sleeping (t0 + seconds 600)) false)) as Ht2.
  { unfold s2. cbn [tasks]. apply list_lookup_insert_eq. by eapply lookup_lt_Some. }
  split; [done|]. split.
  { intros t Ht. unfold run_task. rewrite Ht2. cbn [task_state cancel_requested task_user].
    destruct (Z.leb_spec (t0 + seconds 600) t); [lia|done]. }
  unfold run_task. rewrite Ht2. cbn [task_state cancel_requested task_user].
  destruct (Z.leb_spec (t0 + seconds 600) t1); [|lia].
  cbn [db scheduler _verification_tasks]. split; [|apply lookup_delete_eq].
  rewrite (verify_pending_verifies _ _ _ _ Hg1) by done.
  apply get_attribution_by_user_save_at with new; done.
Qed.

End CleanJoin.

Lemma clean_join_verified_witness :
  let update := sample_join 1 (py "https://t.me/+abc") (py "10.0.0.5") (seconds 0) in
  let w := mkWorld (mkDatabase [] sample_affiliates [] [] 1 1) ∅ (mkScheduler [] ∅) in
  let h := length (tasks (cancel_verification (join_user update) (scheduler w))) in
  status
    <$> get_attribution_by_user
          (db (@react sample_lib (-100) (LoopStep h (seconds 601))
                 (@react sample_lib (-100) (LoopStep h (seconds 1))
                    (@_handle_join sample_lib update w))))
          (join_user update)
  = Some VERIFIED.
Proof.
  cbv zeta.
  set (update := sample_join 1 (py "https://t.me/+abc") (py "10.0.0.5") (seconds 0)).
  set (w := mkWorld (mkDatabase [] sample_affiliates [] [] 1 1) ∅ (mkScheduler [] ∅)).
  assert (join_accepted (H:=sample_lib) update w (py "https://t.me/+abc")
            (mkAffiliate 1 100 (py "https://t.me/+abc") (py "+abc") true)) as Ha.
  { split; [by split|]. split; [by vm_compute|]. split; [by vm_compute|].
    split; [done|]. by vm_compute. }
  assert (join_reasons (H:=sample_lib) update w = []) as Hr by by vm_compute.
  assert (seconds 1 + seconds 600 ≤ seconds 601) as Hle by (unfold seconds; lia).
  pose proof (@clean_join_verified sample_lib (-100) update w _ _
                (seconds 1) (seconds 601) Ha Hr Hle) as Hs.
  cbv zeta in Hs. destruct Hs as (_ & _ & _ & _ & _ & _ & _ & Hs & _).
  rewrite Hs. reflexivity.
Defined.

(** ** First touch *)

Section FirstTouch.
Context `{PyLib}.

(** Attribution goes to the first touch: once a user has an attribution
    in a reachable world, then after any further run the user still has
    this attribution, under the same key, for the same affiliate and with
    the same time of joining, address and subnet, and has no other. *)
Theorem first_touch_attribution tc w inputs uid a :
  reachable tc w →
  get_attribution_by_user (db w) uid = Some a →
  ∃ a', get_attribution_by_user (db (run tc inputs w)) uid = Some a'
        ∧ origin a' = origin a
        ∧ ∀ b, b ∈ attributions (db (run tc inputs w)) →
               joined_user_id b = uid → b = a'.
Proof.
  intros Hr Ha. apply reachable_wf in Hr as [Hw _].
  apply get_attribution_by_user_elem in Ha as [Hin Hu].
  destruct (run_ledger tc inputs w Hw) as [[k Ho] _].
  destruct (run_wf_db tc inputs w Hw) as (_ & Hus & _).
  assert (origin a ∈ origins (db (run tc inputs w))) as Hin'.
  { rewrite Ho. apply elem_of_app. left. by apply list_elem_of_fmap_2. }
  apply list_elem_of_fmap in Hin' as (a' & Heq & Ha').
  assert (joined_user_id a' = uid) as Hu'.
  { injection Heq as _ E _ _ _ _. congruence. }
  exists a'. split; [|split; [done|]].
  - rewrite <- Hu'. by apply get_attribution_by_user_row.
  - intros b Hb Hbu.
    apply (NoDup_fmap_elem_inj joined_user_id (attributions (db (run tc inputs w))));
      [done|done|done|congruence].
Qed.

(** In a reachable world every verification task is the task of a user
    who has an attribution, no user has ever had two tasks, and a task
    that can still fire is the one registered for its user in
    [_verification_tasks]. *)
Theorem timers_of_reachable tc w :
  reachable tc w →
  (∀ h t, tasks (scheduler w) !! h = Some t →
          is_Some (get_attribution_by_user (db w) (task_user t)))
  ∧ (∀ h h' t t', tasks (scheduler w) !! h = Some t →
                  tasks (scheduler w) !! h' = Some t' →
                  task_user t = task_user t' → h = h')
  ∧ (∀ h t, tasks (scheduler w) !! h = Some t → live t = true →
            _verification_tasks (scheduler w) !! task_user t = Some h).
Proof.
  intros Hr. apply reachable_wf in Hr as [_ (H1 & H2 & H3)].
  split; [|split; [exact H2|exact H3]].
  intros h t Ht. specialize (H1 h t Ht).
  destruct (get_attribution_by_user (db w) (task_user t)) eqn:E; [done|].
  by apply get_attribution_by_user_None in E.
Qed.

End FirstTouch.

Lemma first_touch_attribution_witness :
  ∃ a', get_attribution_by_user
          (db (@run sample_lib (-100) [ChatMember sample_leave] sample_world)) 1
        = Some a'
        ∧ origin a'
          = origin (mkAttribution 1 1 1 (seconds 0) (Some (seconds 25)) VERIFIED None
                      (Some (py "10.0.0.5")) (Some (py "10.0.0.0/24")))
        ∧ ∀ b, b ∈ attributions
                     (db (@run sample_lib (-100) [ChatMember sample_leave] sample_world)) →
               joined_user_id b = 1 → b = a'.
Proof.
  apply (@first_touch_attribution sample_lib (-100)).
  - by exists sample_inputs.
  - unfold get_attribution_by_user. rewrite sample_world_attributions. reflexivity.
Defined.

Lemma timers_of_reachable_witness :
  (∀ h t, tasks (scheduler sample_world) !! h = Some t →
          is_Some (get_attribution_by_user (db sample_world) (task_user t)))
  ∧ (∀ h h' t t', tasks (scheduler sample_world) !! h = Some t →
                  tasks (scheduler sample_world) !! h' = Some t' →
                  task_user t = task_user t' → h = h')
  ∧ (∀ h t, tasks (scheduler sample_world) !! h = Some t → live t = true →
            _verification_tasks (scheduler sample_world) !! task_user t = Some h).
Proof.
  apply (@timers_of_reachable sample_lib (-100) sample_world).
  by exists sample_inputs.
Defined.
